(** * stm32loader: the serial bootloader protocol engine of [stm32loader.py]

    A shallow embedding of the class [CommandInterface] and theorems about
    its framing, handshake, erase and chunked-transfer code.

    Python integers are [Z]; the bit operations [^], [&] and [>>] are
    [Z.lxor], [Z.land] and [Z.shiftr], which agree with Python on negative
    numbers too.  A [bytearray] is a [list Z] whose elements lie in
    [range(256)]; building one from a list checks that range and raises
    [ValueError] otherwise, as Python does.  Methods run in a state-and-
    exception monad over the interface object, its serial port and the heap
    of buffer objects that callers hand to [writeMemory].

    Calls that only print ([mdebug] and [print]) touch nothing of this
    state and are left out, and so is the optional progress bar: the
    branches taken are those of [usepbar = 0]. *)

From Stdlib Require Import ZArith Lia Ascii String.
From Stdlib Require Import DecimalString HexadecimalString.
From stdpp Require Import base list gmap strings.

Local Open Scope Z_scope.

(* ===================================================================== *)
(** ** Python values used by the module *)
(* ===================================================================== *)

Module Py.

(** The exceptions that the code raises or that reach it from below. *)
Inductive exn :=
| CmdException (msg : string)
| AssertionError
| ValueError
| IndexError
| AttributeError
| TypeError
| SerialException.

(** Outcome of running a method.  [OutOfFuel] only marks a loop whose
    iteration budget ran out; [readMemory_total] and [writeMemory_total]
    show that the methods below never end there. *)
Inductive result (A : Type) :=
| Returned (a : A)
| Raised (e : exn)
| OutOfFuel.
Global Arguments Returned {A} a.
Global Arguments Raised {A} e.
Global Arguments OutOfFuel {A}.

(** [range(256)] *)
Definition is_byte (c : Z) : bool := (0 <=? c) && (c <? 256).

(** Upper-casing of one ASCII character: the letters a to z, nothing
    else. *)
Definition upper_ascii (c : ascii) : ascii :=
  let n := nat_of_ascii c in
  if ((97 <=? n) && (n <=? 122))%nat then ascii_of_nat (n - 32) else c.

(** Upper-casing of the ASCII letters of a string.  This is what
    [str.upper] does on an ASCII string, and what the [X] of a format
    specification does to hexadecimal digits; it is not [str.upper] on
    other strings. *)
Fixpoint upper (s : string) : string :=
  match s with
  | EmptyString => EmptyString
  | String c r => String (upper_ascii c) (upper r)
  end.

(** Is every character of [s] an ASCII character? *)
Fixpoint is_ascii (s : string) : bool :=
  match s with
  | EmptyString => true
  | String c r => (nat_of_ascii c <? 128)%nat && is_ascii r
  end.

(** [str.upper].  Python's method knows all of Unicode (it maps the long
    s, U+017F, to S, for one); a string here is the sequence of its UTF-8
    bytes, and of the method only its behaviour on ASCII strings is laid
    down.  Whatever it does elsewhere, the code below takes it as it
    is. *)
Class StrUpper := {
  str_upper : string -> string;
  str_upper_ascii : forall s, is_ascii s = true -> str_upper s = upper s
}.

(** An upper-casing that leaves every non-ASCII byte alone: enough for
    sessions whose names are ASCII. *)
Definition ascii_upper : StrUpper :=
  {| str_upper := upper; str_upper_ascii := fun s _ => eq_refl |}.

(** ["{}".format(n)] for an integer. *)
Definition format_d (n : Z) : string :=
  DecimalString.NilZero.string_of_int (Z.to_int n).

(** ["{:X}".format(n)] for an integer. *)
Definition format_X (n : Z) : string :=
  upper (HexadecimalString.NilZero.string_of_int (Z.to_hex_int n)).

(** Index normalisation of a slice bound: negative bounds count from the
    end, and both are clamped to the sequence. *)
Definition slice_bound (len i : Z) : Z :=
  if i <? 0 then Z.max 0 (i + len) else Z.min i len.

(** [l[lo:hi]], a fresh copy. *)
Definition slice {A} (l : list A) (lo hi : Z) : list A :=
  let len := Z.of_nat (length l) in
  let lo' := slice_bound len lo in
  let hi' := slice_bound len hi in
  take (Z.to_nat (hi' - lo')) (drop (Z.to_nat lo') l).

End Py.
Import Py.

(* ===================================================================== *)
(** ** The interface object, its serial port and the heap *)
(* ===================================================================== *)

(** The two modem-control lines; [open] rejects every other name and
    rejects [_boot0 = _rst]. *)
Inductive line := RTS | DTR.

(** What crosses the transport boundary, in program order.  A [Read]
    records the size asked for, the timeout in force and the bytes that
    arrived in time. *)
Inductive event :=
| Write (data : list Z)
| Read (size : Z) (tmo : Z) (got : list Z)
| SetRTS (level : bool)
| SetDTR (level : bool)
| Sleep (ms : Z).

(** The buffer objects that callers own and pass to [writeMemory]: a
    mutable [bytearray] (a [list] of integers behaves alike here) or an
    immutable [bytes], which has no [extend]. *)
Inductive buffer :=
| ByteArray (contents : list Z)
| Bytes (contents : list Z).

Definition contents (b : buffer) : list Z :=
  match b with ByteArray l => l | Bytes l => l end.

(** References to such objects. *)
Abbreviation ref := positive.

(** [self], with [self.sp] flattened into the [sp_] fields:
    - [sp_rx] holds the bytes the device delivers before the next timeout;
      a read that finds fewer than it asked for returns those (timeout);
    - [sp_ok = false] is a port on which every operation raises. *)
Record state := mkState {
  extended_erase : bool;
  _boot0 : line;
  _rst : line;
  _dtr_pol : bool;
  _rts_pol : bool;
  sp_timeout : Z;
  sp_rx : list Z;
  sp_ok : bool;
  sp_log : list event;
  heap : gmap positive buffer
}.

Definition with_extended_erase (b : bool) (s : state) : state :=
  mkState b (_boot0 s) (_rst s) (_dtr_pol s) (_rts_pol s)
          (sp_timeout s) (sp_rx s) (sp_ok s) (sp_log s) (heap s).

Definition with_timeout (t : Z) (s : state) : state :=
  mkState (extended_erase s) (_boot0 s) (_rst s) (_dtr_pol s) (_rts_pol s)
          t (sp_rx s) (sp_ok s) (sp_log s) (heap s).

Definition with_rx (rx : list Z) (s : state) : state :=
  mkState (extended_erase s) (_boot0 s) (_rst s) (_dtr_pol s) (_rts_pol s)
          (sp_timeout s) rx (sp_ok s) (sp_log s) (heap s).

Definition with_log (l : list event) (s : state) : state :=
  mkState (extended_erase s) (_boot0 s) (_rst s) (_dtr_pol s) (_rts_pol s)
          (sp_timeout s) (sp_rx s) (sp_ok s) l (heap s).

Definition with_heap (h : gmap positive buffer) (s : state) : state :=
  mkState (extended_erase s) (_boot0 s) (_rst s) (_dtr_pol s) (_rts_pol s)
          (sp_timeout s) (sp_rx s) (sp_ok s) (sp_log s) h.

Definition emit (e : event) (s : state) : state :=
  with_log (sp_log s ++ [e]) s.

(* ===================================================================== *)
(** ** The monad of methods *)
(* ===================================================================== *)

Definition M (A : Type) : Type := state -> result A * state.

Definition ret {A} (a : A) : M A := fun s => (Returned a, s).

Definition bind {A B} (m : M A) (k : A -> M B) : M B :=
  fun s =>
    match m s with
    | (Returned a, s') => k a s'
    | (Raised e, s') => (Raised e, s')
    | (OutOfFuel, s') => (OutOfFuel, s')
    end.

Definition raise {A} (e : exn) : M A := fun s => (Raised e, s).

(** [try: body / except: handler / else: orelse] with a bare [except]. *)
Definition try_except_else {A B} (body : M A) (handler : M B)
           (orelse : A -> M B) : M B :=
  fun s =>
    match body s with
    | (Returned a, s') => orelse a s'
    | (Raised _, s') => handler s'
    | (OutOfFuel, s') => (OutOfFuel, s')
    end.

Notation "x <- m ;; k" := (bind m (fun x => k))
  (at level 100, m at next level, right associativity).
Notation "m ;;; k" := (bind m (fun _ => k))
  (at level 100, right associativity).

(** [assert c] *)
Definition assert (c : bool) : M unit :=
  if c then ret tt else raise AssertionError.

(** [bytearray(l)] for a list of integers. *)
Definition bytearray (l : list Z) : M (list Z) :=
  if forallb is_byte l then ret l else raise ValueError.

(** [b[i]] *)
Definition getitem (b : list Z) (i : nat) : M Z :=
  match b !! i with
  | Some c => ret c
  | None => raise IndexError
  end.

(** *** The serial port *)

(** [self.sp.write(data)] *)
Definition sp_write (data : list Z) : M Z :=
  fun s =>
    if sp_ok s then (Returned (Z.of_nat (length data)), emit (Write data) s)
    else (Raised SerialException, s).

(** [self.sp.read(size)]: up to [size] bytes, fewer on a timeout. *)
Definition sp_read (size : Z) : M (list Z) :=
  fun s =>
    if sp_ok s then
      let got := take (Z.to_nat size) (sp_rx s) in
      (Returned got,
       emit (Read size (sp_timeout s) got)
            (with_rx (drop (Z.to_nat size) (sp_rx s)) s))
    else (Raised SerialException, s).

Definition sp_setRTS (level : bool) : M unit :=
  fun s =>
    if sp_ok s then (Returned tt, emit (SetRTS level) s)
    else (Raised SerialException, s).

Definition sp_setDTR (level : bool) : M unit :=
  fun s =>
    if sp_ok s then (Returned tt, emit (SetDTR level) s)
    else (Raised SerialException, s).

(** [self.sp.timeout] and [self.sp.timeout = t] *)
Definition sp_get_timeout : M Z := fun s => (Returned (sp_timeout s), s).
Definition sp_set_timeout (t : Z) : M unit :=
  fun s => (Returned tt, with_timeout t s).

(** [time.sleep], in milliseconds. *)
Definition sleep (ms : Z) : M unit := fun s => (Returned tt, emit (Sleep ms) s).

(** *** Byte buffers on the heap *)

(** The bytes of the object behind [d]; a reference to nothing stands
    for an argument that is no buffer at all, on which [len] and slicing
    raise [TypeError]. *)
Definition deref (d : ref) : M (list Z) :=
  fun s =>
    match heap s !! d with
    | Some b => (Returned (contents b), s)
    | None => (Raised TypeError, s)
    end.

(** [len(data)] *)
Definition buf_len (d : ref) : M Z :=
  l <- deref d ;; ret (Z.of_nat (length l)).

(** [data[lo:hi]] *)
Definition buf_slice (d : ref) (lo hi : Z) : M (list Z) :=
  l <- deref d ;; ret (slice l lo hi).

(** [data.extend(more)]: the object itself grows; [bytes] objects have no
    such method, and a [bytearray] takes bytes only. *)
Definition buf_extend (d : ref) (more : list Z) : M unit :=
  fun s =>
    match heap s !! d with
    | Some (ByteArray l) =>
        if forallb is_byte more then
          (Returned tt, with_heap (<[d := ByteArray (l ++ more)]> (heap s)) s)
        else (Raised ValueError, s)
    | Some (Bytes _) => (Raised AttributeError, s)
    | None => (Raised AttributeError, s)
    end.

(* ===================================================================== *)
(** ** class CommandInterface *)
(* ===================================================================== *)

(** [boot0(state)]: the level is xor-ed with the polarity of the line that
    [boot0] is wired to. *)
Definition boot0 (level : bool) : M unit :=
  fun s =>
    match _boot0 s with
    | RTS => sp_setRTS (xorb level (_rts_pol s)) s
    | DTR => sp_setDTR (xorb level (_dtr_pol s)) s
    end.

(** [rst(state)] *)
Definition rst (level : bool) : M unit :=
  fun s =>
    match _rst s with
    | RTS => sp_setRTS (xorb level (_rts_pol s)) s
    | DTR => sp_setDTR (xorb level (_dtr_pol s)) s
    end.

(** [_wait_for_ask(info)] *)
Definition _wait_for_ask (info : string) : M Z :=
  try_except_else
    (b <- sp_read 1 ;; getitem b 0)
    (raise (CmdException "Can't read port or timeout"))
    (fun ask =>
       if ask =? 0x79 then
         ret 1
       else if ask =? 0x1F then
         raise (CmdException ("NACK " +:+ info))
       else
         raise (CmdException
                  ("Unknown response. " +:+ info +:+ ": " +:+ format_d ask))).

(** [reset()] *)
Definition reset : M unit :=
  rst false ;;;
  sleep 100 ;;;
  rst true ;;;
  sleep 500.

(** [initChip()] *)
Definition initChip : M Z :=
  boot0 false ;;;
  reset ;;;
  sp_write [0x7F] ;;;
  _wait_for_ask "Syncro".

(** [releaseChip()] *)
Definition releaseChip : M unit :=
  boot0 true ;;;
  reset.

(** [cmdGeneric(cmd)] *)
Definition cmdGeneric (cmd : Z) : M Z :=
  b <- bytearray [cmd] ;;
  sp_write b ;;;
  b <- bytearray [Z.lxor cmd 0xFF] ;;
  sp_write b ;;;
  _wait_for_ask (format_X cmd).

(** [if r:] on an integer. *)
Definition truthy (r : Z) : bool := negb (r =? 0).

(** [cmdGet()] *)
Definition cmdGet : M Z :=
  r <- cmdGeneric 0x00 ;;
  if truthy r then
    b <- sp_read 1 ;;
    len <- getitem b 0 ;;
    b <- sp_read 1 ;;
    version <- getitem b 0 ;;
    dat <- sp_read len ;;
    (if existsb (Z.eqb 0x44) dat
     then (fun s => (Returned tt, with_extended_erase true s))
     else ret tt) ;;;
    _wait_for_ask "0x00 end" ;;;
    ret version
  else
    raise (CmdException "Get (0x00) failed").

(** [_encode_addr(addr)]; every element is masked into [range(256)], so
    the [bytearray] call cannot fail. *)
Definition _encode_addr (addr : Z) : list Z :=
  let byte3 := Z.land (Z.shiftr addr 0) 0xFF in
  let byte2 := Z.land (Z.shiftr addr 8) 0xFF in
  let byte1 := Z.land (Z.shiftr addr 16) 0xFF in
  let byte0 := Z.land (Z.shiftr addr 24) 0xFF in
  let crc := Z.lxor (Z.lxor (Z.lxor byte0 byte1) byte2) byte3 in
  [byte0; byte1; byte2; byte3; crc].

(** [cmdReadMemory(addr, lng)] *)
Definition cmdReadMemory (addr lng : Z) : M (list Z) :=
  assert (lng <=? 256) ;;;
  r <- cmdGeneric 0x11 ;;
  if truthy r then
    b <- bytearray (_encode_addr addr) ;;
    sp_write b ;;;
    _wait_for_ask "0x11 address failed" ;;;
    let N := Z.land (lng - 1) 0xFF in
    let crc := Z.lxor N 0xFF in
    b <- bytearray [N; crc] ;;
    sp_write b ;;;
    _wait_for_ask "0x11 length failed" ;;;
    sp_read lng
  else
    raise (CmdException "ReadMemory (0x11) failed").

(** [cmdGo(addr)] *)
Definition cmdGo (addr : Z) : M unit :=
  r <- cmdGeneric 0x21 ;;
  if truthy r then
    b <- bytearray (_encode_addr addr) ;;
    sp_write b ;;;
    _wait_for_ask "0x21 go failed" ;;;
    ret tt
  else
    raise (CmdException "Go (0x21) failed").

(** The loop
<<
    for c in data:
        crc = crc ^ c
        self.sp.write(bytearray([c]))
>>
    which [cmdWriteMemory], [cmdEraseMemory] and [cmdWriteProtect] each
    spell out; it yields the final [crc]. *)
Fixpoint for_xor_write (data : list Z) (crc : Z) : M Z :=
  match data with
  | [] => ret crc
  | c :: rest =>
      let crc := Z.lxor crc c in
      b <- bytearray [c] ;;
      sp_write b ;;;
      for_xor_write rest crc
  end.

(** [cmdWriteMemory(addr, data)]; [data] is the slice it was handed. *)
Definition cmdWriteMemory (addr : Z) (data : list Z) : M unit :=
  assert (Z.of_nat (length data) <=? 256) ;;;
  r <- cmdGeneric 0x31 ;;
  if truthy r then
    b <- bytearray (_encode_addr addr) ;;
    sp_write b ;;;
    _wait_for_ask "0x31 address failed" ;;;
    let lng := Z.land (Z.of_nat (length data) - 1) 0xFF in
    b <- bytearray [lng] ;;
    sp_write b ;;;
    let crc := 0xFF in
    crc <- for_xor_write data crc ;;
    b <- bytearray [crc] ;;
    sp_write b ;;;
    _wait_for_ask "0x31 programming failed" ;;;
    ret tt
  else
    raise (CmdException "Write memory (0x31) failed").

(** [_cast_to_two_bytes(value)] *)
Definition _cast_to_two_bytes (value : Z) : M (list Z) :=
  bytearray [Z.shiftr value 8; Z.land value 0xff].

(** The loop over [sectors] in [cmdExtendedEraseMemory]. *)
Fixpoint for_xor_write_pages (sectors : list Z) (crc : Z) : M Z :=
  match sectors with
  | [] => ret crc
  | c :: rest =>
      page <- _cast_to_two_bytes c ;;
      p0 <- getitem page 0 ;;
      let crc := Z.lxor crc p0 in
      p1 <- getitem page 1 ;;
      let crc := Z.lxor crc p1 in
      sp_write page ;;;
      for_xor_write_pages rest crc
  end.

(** [cmdExtendedEraseMemory(sectors)] *)
Definition cmdExtendedEraseMemory (sectors : option (list Z)) : M unit :=
  r <- cmdGeneric 0x44 ;;
  if truthy r then
    match sectors with
    | None =>
        (* Global mass erase *)
        b <- bytearray [0xFF] ;;
        sp_write b ;;;
        b <- bytearray [0xFF] ;;
        sp_write b ;;;
        (* Checksum *)
        b <- bytearray [0x00] ;;
        sp_write b ;;;
        tmp <- sp_get_timeout ;;
        sp_set_timeout 30 ;;;
        _wait_for_ask "0x44 erasing failed" ;;;
        sp_set_timeout tmp
    | Some sectors =>
        (* Sectors erase *)
        sec_len <- _cast_to_two_bytes (Z.of_nat (length sectors) - 1) ;;
        let crc := 0x00 in
        s0 <- getitem sec_len 0 ;;
        let crc := Z.lxor crc s0 in
        s1 <- getitem sec_len 1 ;;
        let crc := Z.lxor crc s1 in
        sp_write sec_len ;;;
        crc <- for_xor_write_pages sectors crc ;;
        b <- bytearray [crc] ;;
        sp_write b ;;;
        _wait_for_ask "0x44 sector erasing failed" ;;;
        ret tt
    end
  else
    raise (CmdException "Extended Erase memory (0x44) failed").

(** [cmdEraseMemory(sectors=None)] *)
Definition cmdEraseMemory (sectors : option (list Z)) : M unit :=
  fun s =>
    if extended_erase s then
      cmdExtendedEraseMemory sectors s
    else
      (r <- cmdGeneric 0x43 ;;
       if truthy r then
         match sectors with
         | None =>
             (* Global erase *)
             b <- bytearray [0xFF] ;;
             sp_write b ;;;
             b <- bytearray [0x00] ;;
             sp_write b ;;;
             ret tt
         | Some sectors =>
             (* Sectors erase *)
             b <- bytearray [Z.land (Z.of_nat (length sectors) - 1) 0xFF] ;;
             sp_write b ;;;
             let crc := 0xFF in
             crc <- for_xor_write sectors crc ;;
             b <- bytearray [crc] ;;
             sp_write b ;;;
             ret tt
         end ;;;
         _wait_for_ask "0x43 erasing failed" ;;;
         ret tt
       else
         raise (CmdException "Erase memory (0x43) failed")) s.

(** [cmdWriteProtect(sectors)] *)
Definition cmdWriteProtect (sectors : list Z) : M unit :=
  r <- cmdGeneric 0x63 ;;
  if truthy r then
    b <- bytearray [Z.land (Z.of_nat (length sectors) - 1) 0xFF] ;;
    sp_write b ;;;
    let crc := 0xFF in
    crc <- for_xor_write sectors crc ;;
    b <- bytearray [crc] ;;
    sp_write b ;;;
    _wait_for_ask "0x63 write protect failed" ;;;
    ret tt
  else
    raise (CmdException "Write Protect memory (0x63) failed").

(** *** Complex commands section *)

(** The loop [while lng > 256:] of [readMemory]; it yields the loop
    variables [(addr, lng, data)] on exit.  [fuel] bounds the number of
    iterations. *)
Fixpoint readMemory_while (fuel : nat) (addr lng : Z) (data : list Z)
  : M (Z * Z * list Z) :=
  if lng >? 256 then
    match fuel with
    | O => fun s => (OutOfFuel, s)
    | S fuel =>
        chunk <- cmdReadMemory addr 256 ;;
        let data := data ++ chunk in
        let addr := addr + 256 in
        let lng := lng - 256 in
        readMemory_while fuel addr lng data
    end
  else
    ret (addr, lng, data).

(** [readMemory(addr, lng)].  Every iteration takes 256 off [lng], so
    [lng] iterations are more than the loop can use. *)
Definition readMemory (addr lng : Z) : M (list Z) :=
  let data := [] in
  vars <- readMemory_while (Z.to_nat lng) addr lng data ;;
  let '(addr, lng, data) := vars in
  chunk <- cmdReadMemory addr lng ;;
  let data := data ++ chunk in
  ret data.

(** The loop [while lng > 256:] of [writeMemory]; it yields
    [(addr, offs, lng)] on exit. *)
Fixpoint writeMemory_while (fuel : nat) (data : ref) (addr offs lng : Z)
  : M (Z * Z * Z) :=
  if lng >? 256 then
    match fuel with
    | O => fun s => (OutOfFuel, s)
    | S fuel =>
        chunk <- buf_slice data offs (offs + 256) ;;
        cmdWriteMemory addr chunk ;;;
        let offs := offs + 256 in
        let addr := addr + 256 in
        let lng := lng - 256 in
        writeMemory_while fuel data addr offs lng
    end
  else
    ret (addr, offs, lng).

(** [writeMemory(addr, data)]; [data] is the caller's buffer object, and
    [[0xFF] * n] is the empty list for [n <= 0]. *)
Definition writeMemory (addr : Z) (data : ref) : M unit :=
  lng <- buf_len data ;;
  let offs := 0 in
  vars <- writeMemory_while (Z.to_nat lng) data addr offs lng ;;
  let '(addr, offs, lng) := vars in
  buf_extend data (replicate (Z.to_nat (256 - lng)) 0xFF) ;;;
  chunk <- buf_slice data offs (offs + 256) ;;
  cmdWriteMemory addr chunk.

(** *** The remaining methods *)

(** Is [name] one of the two names that [open] accepts? *)
Definition is_line_name (name : string) : bool :=
  String.eqb name "RTS" || String.eqb name "DTR".

(** What the methods [boot0] and [rst] make of a stored name: they compare
    it with ["RTS"] and take every other name for the DTR line. *)
Definition stored_line (name : string) : line :=
  if String.eqb name "RTS" then RTS else DTR.

(** [open(aport, abaudrate, boot0, rst)].  [serial.Serial(...)] opens the
    port with the 5 s timeout and raises when the port cannot be had.  The
    two upper-cased names are stored first and checked afterwards, against
    each other and then against the two known lines, so a refused wiring
    stays stored; the polarities are reset only when the wiring is
    accepted. *)
Definition open `{StrUpper} (aport : string) (abaudrate : Z)
           (boot0 rst : string) : M unit :=
  fun s =>
    if sp_ok s then
      let s := with_timeout 5 s in
      let _boot0 := str_upper boot0 in
      let _rst := str_upper rst in
      let s :=
        mkState (extended_erase s) (stored_line _boot0) (stored_line _rst)
                (_dtr_pol s) (_rts_pol s)
                (sp_timeout s) (sp_rx s) (sp_ok s) (sp_log s) (heap s) in
      if String.eqb _boot0 _rst then
        (Raised ValueError, s)
      else if negb (is_line_name _boot0) || negb (is_line_name _rst) then
        (Raised ValueError, s)
      else
        (Returned tt,
         mkState (extended_erase s) (stored_line _boot0) (stored_line _rst)
                 false false
                 (sp_timeout s) (sp_rx s) (sp_ok s) (sp_log s) (heap s))
    else (Raised SerialException, s).

(** [dtr_polarity(invert)] *)
Definition dtr_polarity (invert : bool) : M unit :=
  fun s =>
    (Returned tt,
     mkState (extended_erase s) (_boot0 s) (_rst s) invert (_rts_pol s)
             (sp_timeout s) (sp_rx s) (sp_ok s) (sp_log s) (heap s)).

(** [rts_polarity(invert)] *)
Definition rts_polarity (invert : bool) : M unit :=
  fun s =>
    (Returned tt,
     mkState (extended_erase s) (_boot0 s) (_rst s) (_dtr_pol s) invert
             (sp_timeout s) (sp_rx s) (sp_ok s) (sp_log s) (heap s)).

(** [cmdWriteUnprotect()] *)
Definition cmdWriteUnprotect : M unit :=
  r <- cmdGeneric 0x73 ;;
  if truthy r then
    _wait_for_ask "0x73 write unprotect failed" ;;;
    _wait_for_ask "0x73 write unprotect 2 failed" ;;;
    ret tt
  else
    raise (CmdException "Write Unprotect (0x73) failed").

(** [cmdReadoutProtect()] *)
Definition cmdReadoutProtect : M unit :=
  r <- cmdGeneric 0x82 ;;
  if truthy r then
    _wait_for_ask "0x82 readout protect failed" ;;;
    _wait_for_ask "0x82 readout protect 2 failed" ;;;
    ret tt
  else
    raise (CmdException "Readout protect (0x82) failed").

(** [cmdReadoutUnprotect()] *)
Definition cmdReadoutUnprotect : M unit :=
  r <- cmdGeneric 0x92 ;;
  if truthy r then
    _wait_for_ask "0x92 readout unprotect failed" ;;;
    _wait_for_ask "0x92 readout unprotect 2 failed" ;;;
    ret tt
  else
    raise (CmdException "Readout unprotect (0x92) failed").

(** [__exit__(exc_type, exc_val, exc_tb)] *)
Definition __exit__ : M unit := releaseChip.

(* ===================================================================== *)
(** ** Vocabulary of the statements *)
(* ===================================================================== *)

(** [after evs rx s]: the port has exchanged [evs] and still holds [rx];
    everything else is as in [s]. *)
Definition after (evs : list event) (rx : list Z) (s : state) : state :=
  with_log (sp_log s ++ evs) (with_rx rx s).

(** The byte that a one-byte read obtains in [s], if any: none on a port
    error and none on a timeout. *)
Definition next_byte (s : state) : option Z :=
  if sp_ok s then head (sp_rx s) else None.

(** The event of driving the logical line wired to [l] to [level]. *)
Definition drive (l : line) (level : bool) (s : state) : event :=
  match l with
  | RTS => SetRTS (xorb level (_rts_pol s))
  | DTR => SetDTR (xorb level (_dtr_pol s))
  end.

(** The handshake read as it shows in the log. *)
Definition ack_read (s : state) : event :=
  Read 1 (sp_timeout s) (take 1 (sp_rx s)).

(** The bytes handed to [sp.write], call by call. *)
Definition writes (log : list event) : list (list Z) :=
  omap (fun e => match e with Write d => Some d | _ => None end) log.

(** [cmdWriteMemory] called on each frame in turn. *)
Fixpoint issue_writes (frames : list (Z * list Z)) : M unit :=
  match frames with
  | [] => ret tt
  | (addr, payload) :: rest => cmdWriteMemory addr payload ;;; issue_writes rest
  end.

(** [cmdReadMemory] called on each frame in turn, results concatenated in
    that order. *)
Fixpoint issue_reads (frames : list (Z * Z)) : M (list Z) :=
  match frames with
  | [] => ret []
  | (addr, lng) :: rest =>
      chunk <- cmdReadMemory addr lng ;;
      more <- issue_reads rest ;;
      ret (chunk ++ more)
  end.

(** One acknowledged write frame as it shows in the log, under timeout
    [tmo]. *)
Definition write_frame_events (tmo : Z) (f : Z * list Z) : list event :=
  [Write [0x31]; Write [0xCE]; Read 1 tmo [0x79];
   Write (_encode_addr f.1); Read 1 tmo [0x79];
   Write [Z.land (Z.of_nat (length f.2) - 1) 0xFF]]
  ++ map (fun c => Write [c]) f.2
  ++ [Write [foldl Z.lxor 0xFF f.2]; Read 1 tmo [0x79]].

(** One acknowledged read frame, answered with [payload], as it shows in
    the log under timeout [tmo]. *)
Definition read_frame_events (tmo : Z) (f : Z * Z) (payload : list Z)
  : list event :=
  [Write [0x11]; Write [0xEE]; Read 1 tmo [0x79];
   Write (_encode_addr f.1); Read 1 tmo [0x79];
   Write [Z.land (f.2 - 1) 0xFF; Z.lxor (Z.land (f.2 - 1) 0xFF) 0xFF];
   Read 1 tmo [0x79];
   Read f.2 tmo payload].

(** What a device that acknowledges a read frame and delivers [payload]
    sends: the three ACKs, then the data. *)
Definition read_reply (payload : list Z) : list Z :=
  [0x79; 0x79; 0x79] ++ payload.

(** [s'] differs from [s] in the port's traffic and timeout only: the
    session flag, the wiring, the port's health and the heap are those of
    [s]. *)
Definition same_object (s s' : state) : Prop :=
  extended_erase s' = extended_erase s /\
  _boot0 s' = _boot0 s /\ _rst s' = _rst s /\
  _dtr_pol s' = _dtr_pol s /\ _rts_pol s' = _rts_pol s /\
  sp_ok s' = sp_ok s /\ heap s' = heap s.

(** A method that touches nothing but the port, and whose loops, if it has
    any, end within their budget. *)
Definition port_only {A} (m : M A) : Prop :=
  forall s, fst (m s) <> OutOfFuel /\ same_object s (snd (m s)).

(** How often the loops [while lng > 256: ...; lng = lng - 256] turn. *)
Definition loop_turns (lng : Z) : nat := Z.to_nat ((lng - 1) / 256).

(** The address that a block of [_encode_addr] spells: its first four
    bytes, most significant first. *)
Definition decode_addr (block : list Z) : Z :=
  match block with
  | b0 :: b1 :: b2 :: b3 :: _ =>
      b0 * 2 ^ 24 + b1 * 2 ^ 16 + b2 * 2 ^ 8 + b3
  | _ => 0
  end.

(** Does the event drive the physical line [l]? *)
Definition on_line (l : line) (e : event) : bool :=
  match l, e with
  | RTS, SetRTS _ => true
  | DTR, SetDTR _ => true
  | _, _ => false
  end.

(** The two bytes of a 16-bit value, most significant first. *)
Definition two_bytes (v : Z) : list Z := [v / 256; v mod 256].

(** Is [v] a 16-bit value? *)
Definition is_u16 (v : Z) : bool := (0 <=? v) && (v <? 65536).

(** A method that never clears the session's [extended_erase] flag. *)
Definition flag_stays_set {A} (m : M A) : Prop :=
  forall s, extended_erase s = true -> extended_erase (snd (m s)) = true.

(** A method that leaves the port's read timeout as it found it. *)
Definition keeps_timeout {A} (m : M A) : Prop :=
  forall s, sp_timeout (snd (m s)) = sp_timeout s.

(** The event [e] with the levels of the DTR line inverted when [dtr] and
    those of the RTS line when [rts]. *)
Definition inverted (dtr rts : bool) (e : event) : event :=
  match e with
  | SetDTR level => SetDTR (xorb level dtr)
  | SetRTS level => SetRTS (xorb level rts)
  | _ => e
  end.

(** *** The chunking of section 4.4, in the specification's words *)

Module Spec.

(** Number of frames of a transfer of [n] bytes: [ceil(n/256)], and one
    frame for an empty transfer. *)
Definition frame_count (n : nat) : nat := Nat.max 1 ((n + 255) / 256)%nat.

(** The full 256-byte chunks before the final one, unmodified. *)
Definition full_chunks (addr : Z) (data : list Z) : list (Z * list Z) :=
  map (fun i => (addr + 256 * Z.of_nat i, take 256 (drop (256 * i) data)))
      (seq 0 (frame_count (length data) - 1)).

(** The fill that brings the final chunk to 256 bytes. *)
Definition padding (data : list Z) : list Z :=
  replicate (256 * frame_count (length data) - length data) 0xFF.

(** The final (possibly partial) chunk, padded. *)
Definition final_chunk (addr : Z) (data : list Z) : Z * list Z :=
  let k := frame_count (length data) in
  (addr + 256 * Z.of_nat (k - 1),
   drop (256 * (k - 1)) data ++ padding data).

Definition write_frames (addr : Z) (data : list Z) : list (Z * list Z) :=
  full_chunks addr data ++ [final_chunk addr data].

(** Read frames: 256-byte requests while more than 256 bytes remain,
    then one request for the remainder. *)
Definition read_frames (addr lng : Z) : list (Z * Z) :=
  let k := Z.to_nat ((lng + 255) / 256) in
  map (fun i => (addr + 256 * Z.of_nat i, 256)) (seq 0 (k - 1))
  ++ [(addr + 256 * Z.of_nat (k - 1), lng - 256 * Z.of_nat (k - 1))].

(** The order of [enterBootloader] as section 4.1 words it. *)
Definition enterBootloader_order (s : state) : list event :=
  [drive (_rst s) false s; Sleep 100; drive (_boot0 s) false s;
   drive (_rst s) true s; Sleep 500; Write [0x7F]; ack_read s].

(** The checksum of sections 4.4 and 4.5: XOR of the count (or length)
    byte and all following bytes. *)
Definition checksum (count : Z) (bytes : list Z) : Z :=
  foldl Z.lxor count bytes.

(** "The two encodings are never mixed within one session", for a session
    of erase and Get requests: of the two erase opcodes, at most one is
    among the session's writes. *)
Definition one_erase_encoding (session_writes : list (list Z)) : Prop :=
  ~ (In [0x43] session_writes /\ In [0x44] session_writes).

End Spec.

(** One acknowledged write frame as the protocol lays it out: the length
    byte is the payload length minus one, the checksum is that of
    [Spec.checksum] over the length byte and the payload. *)
Definition protocol_write_frame (tmo : Z) (f : Z * list Z) : list event :=
  let N := Z.of_nat (length f.2) - 1 in
  [Write [0x31]; Write [0xCE]; Read 1 tmo [0x79];
   Write (_encode_addr f.1); Read 1 tmo [0x79];
   Write [N]]
  ++ map (fun c => Write [c]) f.2
  ++ [Write [Spec.checksum N f.2]; Read 1 tmo [0x79]].

(* ===================================================================== *)
(** ** Sample sessions *)
(* ===================================================================== *)

(** A freshly opened port ([open] sets the 5 s timeout and both polarities
    to [False]) with [rx] waiting to be received and [h] as heap. *)
Definition opened (ext : bool) (rx : list Z) (h : gmap positive buffer)
  : state :=
  mkState ext RTS DTR false false 5 rx true [] h.

(** Some 300 bytes of firmware. *)
Definition firmware300 : list Z :=
  map (fun i => Z.of_nat i mod 251) (seq 0 300).

(** A heap whose only object, at reference 1, is a [bytearray] holding
    [data]. *)
Definition one_buffer (data : list Z) : gmap positive buffer :=
  {[ 1%positive := ByteArray data ]}.

(** Flashing [firmware300] to a device that acknowledges six
    handshakes. *)
Definition flashing300 : state :=
  opened false (replicate 6 0x79) (one_buffer firmware300).


(** A heap whose only object, at reference 1, is a [bytes] object holding
    [data], as [open(path, 'rb').read()] gives. *)
Definition one_file (data : list Z) : gmap positive buffer :=
  {[ 1%positive := Bytes data ]}.

(** Flashing [firmware300], read from a file, to a device that
    acknowledges three handshakes. *)
Definition flashing_file300 : state :=
  opened false (replicate 3 0x79) (one_file firmware300).

(** Flashing [firmware300], read from a file, to a device that is ready
    to acknowledge six handshakes, two frames' worth. *)
Definition flashing_image300 : state :=
  opened false (replicate 6 0x79) (one_file firmware300).


(** A session of a legacy device that turns out to know the extended
    erase: it acknowledges a global erase, answers Get with version 0x22
    and the one command 0x44, and acknowledges a second global erase. *)
Definition erase_get_erase : state :=
  opened false ([0x79; 0x79] ++ [0x79; 1; 0x22; 0x44; 0x79] ++ [0x79; 0x79])
         ∅.

(** Flashing to a device that answers the first opcode with NACK. *)
Definition refused (data : list Z) : state :=
  opened false [0x1F] (one_buffer data).

(* ===================================================================== *)
(** ** The monad *)
(* ===================================================================== *)

Lemma bind_ret_l {A B} (a : A) (k : A -> M B) s : bind (ret a) k s = k a s.
Proof. reflexivity. Qed.

Lemma bind_assoc {A B C} (m : M A) (k : A -> M B) (h : B -> M C) s :
  bind (bind m k) h s = bind m (fun a => bind (k a) h) s.
Proof. unfold bind. destruct (m s) as [[a|e|] s']; reflexivity. Qed.

Lemma bind_run {A B} (m : M A) (k : A -> M B) s a s' :
  m s = (Returned a, s') -> bind m k s = k a s'.
Proof. unfold bind. intros ->. reflexivity. Qed.

Lemma bind_cong {A B} (m m' : M A) (k : A -> M B) s :
  m s = m' s -> bind m k s = bind m' k s.
Proof. unfold bind. intros ->. reflexivity. Qed.

Lemma bind_ext {A B} (m : M A) (k k' : A -> M B) s :
  (forall a s', m s = (Returned a, s') -> k a s' = k' a s') ->
  bind m k s = bind m k' s.
Proof.
  unfold bind. intros H. destruct (m s) as [[a|e|] s']; auto.
Qed.
Example format_X_43 : format_X 0x43 = "43"%string.
Proof. reflexivity. Qed.

Example format_X_bc : format_X 0xBC = "BC"%string.
Proof. reflexivity. Qed.

Example format_d_31 : format_d 0x1F = "31"%string.
Proof. reflexivity. Qed.

Example slice_tail : slice [1; 2; 3; 4; 5] 3 259 = [4; 5].
Proof. reflexivity. Qed.


(* ===================================================================== *)
(** ** Bytes *)
(* ===================================================================== *)

Lemma is_byte_spec c : is_byte c = true <-> 0 <= c < 256.
Proof. unfold is_byte. rewrite andb_true_iff, Z.leb_le, Z.ltb_lt. tauto. Qed.

Lemma land_0xFF x : Z.land x 0xFF = x mod 256.
Proof. change 0xFF with (Z.ones 8). rewrite Z.land_ones by lia. reflexivity. Qed.

Lemma is_byte_land x : is_byte (Z.land x 0xFF) = true.
Proof.
  apply is_byte_spec. rewrite land_0xFF. apply Z.mod_pos_bound. lia.
Qed.

Lemma is_byte_lxor a b :
  is_byte a = true -> is_byte b = true -> is_byte (Z.lxor a b) = true.
Proof.
  rewrite !is_byte_spec. intros [Ha0 Ha] [Hb0 Hb].
  assert (H0 : 0 <= Z.lxor a b) by (apply Z.lxor_nonneg; lia).
  split; [exact H0|].
  destruct (Z.eq_dec (Z.lxor a b) 0) as [->|Hne]; [lia|].
  apply (Z.log2_lt_pow2 _ 8); [lia|].
  eapply Z.le_lt_trans; [apply Z.log2_lxor; lia|].
  apply Z.max_lub_lt.
  - destruct (Z.eq_dec a 0) as [->|]; [reflexivity|].
    apply Z.log2_lt_pow2; lia.
  - destruct (Z.eq_dec b 0) as [->|]; [reflexivity|].
    apply Z.log2_lt_pow2; lia.
Qed.

Lemma encode_addr_bytes addr : forallb is_byte (_encode_addr addr) = true.
Proof.
  unfold _encode_addr. cbn [forallb].
  rewrite !is_byte_land. cbn [andb].
  rewrite andb_true_r.
  repeat apply is_byte_lxor; apply is_byte_land.
Qed.

Lemma foldl_lxor_byte l : forall z,
  is_byte z = true -> forallb is_byte l = true ->
  is_byte (foldl Z.lxor z l) = true.
Proof.
  induction l as [|c l IH]; intros z Hz Hl; [exact Hz|].
  cbn [forallb] in Hl. apply andb_true_iff in Hl as [Hc Hl].
  cbn [foldl]. apply IH; [apply is_byte_lxor; assumption|exact Hl].
Qed.

Lemma replicate_0xFF_bytes n : forallb is_byte (replicate n 0xFF) = true.
Proof. induction n; [reflexivity|]. cbn [replicate forallb]. rewrite IHn. reflexivity. Qed.

(* ===================================================================== *)
(** ** Running the port *)
(* ===================================================================== *)

(** States reached by port traffic are kept in the form [after evs rx s]. *)

Lemma after_after evs1 rx1 evs2 rx2 s :
  after evs2 rx2 (after evs1 rx1 s) = after (evs1 ++ evs2) rx2 s.
Proof. unfold after, with_log, with_rx. cbn. rewrite app_assoc. reflexivity. Qed.

Lemma emit_base e s : emit e s = after [e] (sp_rx s) s.
Proof. destruct s. reflexivity. Qed.

Lemma sp_rx_after evs rx s : sp_rx (after evs rx s) = rx.
Proof. reflexivity. Qed.

Lemma sp_ok_after evs rx s : sp_ok (after evs rx s) = sp_ok s.
Proof. reflexivity. Qed.

Lemma sp_timeout_after evs rx s : sp_timeout (after evs rx s) = sp_timeout s.
Proof. reflexivity. Qed.

Lemma sp_log_after evs rx s : sp_log (after evs rx s) = sp_log s ++ evs.
Proof. reflexivity. Qed.

Lemma heap_after evs rx s : heap (after evs rx s) = heap s.
Proof. reflexivity. Qed.

Lemma after_nil s : after [] (sp_rx s) s = s.
Proof. destruct s. unfold after, with_log, with_rx. cbn. rewrite app_nil_r. reflexivity. Qed.

(** Brings the state of the goal back to the form [after evs rx s]. *)
Ltac norm_state :=
  rewrite ?after_after, ?sp_rx_after, ?sp_ok_after, ?sp_timeout_after;
  cbn [app].

(** One step of a method body: the first action of a [bind] runs as the
    lemma [lem] says. *)
Ltac run_by lem :=
  erewrite bind_run
    by (apply lem; rewrite ?sp_ok_after, ?sp_rx_after;
        first [eassumption | reflexivity]);
  norm_state.

Lemma sp_write_run data s :
  sp_ok s = true ->
  sp_write data s
  = (Returned (Z.of_nat (length data)), after [Write data] (sp_rx s) s).
Proof. unfold sp_write. intros ->. rewrite emit_base. reflexivity. Qed.

Lemma sp_read_run size s :
  sp_ok s = true ->
  sp_read size s
  = (Returned (take (Z.to_nat size) (sp_rx s)),
     after [Read size (sp_timeout s) (take (Z.to_nat size) (sp_rx s))]
           (drop (Z.to_nat size) (sp_rx s)) s).
Proof. unfold sp_read. intros ->. destruct s. reflexivity. Qed.

Lemma bytearray_run l s :
  forallb is_byte l = true -> bytearray l s = (Returned l, s).
Proof. unfold bytearray. intros ->. reflexivity. Qed.

(** [self.sp.write(bytearray(l))] at the head of a body, wherever the
    binds are nested; the side condition is that [l] holds bytes. *)
Ltac run_send :=
  rewrite ?bind_assoc;
  erewrite bind_run; [|apply bytearray_run];
  [rewrite ?bind_assoc; run_by sp_write_run|].

(** [_wait_for_ask] with its [try] resolved. *)
Lemma wait_for_ask_unfold info s :
  _wait_for_ask info s =
  if sp_ok s then
    match sp_rx s with
    | [] =>
        (Raised (CmdException "Can't read port or timeout"),
         after [Read 1 (sp_timeout s) []] [] s)
    | ask :: rest =>
        (if ask =? 0x79 then Returned 1
         else if ask =? 0x1F then Raised (CmdException ("NACK " +:+ info))
         else Raised (CmdException
                        ("Unknown response. " +:+ info +:+ ": "
                         +:+ format_d ask)),
         after [Read 1 (sp_timeout s) [ask]] rest s)
    end
  else (Raised (CmdException "Can't read port or timeout"), s).
Proof.
  unfold _wait_for_ask, try_except_else, bind, sp_read.
  change (Z.to_nat 1) with 1%nat.
  destruct (sp_ok s); [|reflexivity].
  destruct (sp_rx s) as [|ask rest]; [reflexivity|].
  cbn. destruct (ask =? 121); [reflexivity|].
  destruct (ask =? 31); reflexivity.
Qed.

Lemma wait_for_ask_ack info s rest :
  sp_ok s = true -> sp_rx s = 0x79 :: rest ->
  _wait_for_ask info s
  = (Returned 1, after [Read 1 (sp_timeout s) [0x79]] rest s).
Proof.
  intros Hok Hrx. rewrite wait_for_ask_unfold, Hok, Hrx. reflexivity.
Qed.

Lemma cmdGeneric_ack cmd s rest :
  is_byte cmd = true -> sp_ok s = true -> sp_rx s = 0x79 :: rest ->
  cmdGeneric cmd s
  = (Returned 1,
     after [Write [cmd]; Write [Z.lxor cmd 0xFF];
            Read 1 (sp_timeout s) [0x79]] rest s).
Proof.
  intros Hc Hok Hrx. unfold cmdGeneric.
  run_send; [|cbn; rewrite Hc; reflexivity].
  run_send;
    [|cbn; rewrite is_byte_lxor; [reflexivity|assumption|reflexivity]].
  rewrite (wait_for_ask_ack _ _ rest) by (norm_state; assumption).
  norm_state. reflexivity.
Qed.

Lemma wait_for_ask_state info s :
  sp_ok s = true ->
  snd (_wait_for_ask info s) = after [ack_read s] (drop 1 (sp_rx s)) s.
Proof.
  intros Hok. rewrite wait_for_ask_unfold, Hok. unfold ack_read.
  destruct (sp_rx s) as [|b rest]; reflexivity.
Qed.

(** The handshake's verdict depends on the port's health and pending
    input alone. *)
Lemma wait_for_ask_verdict info s s' :
  sp_ok s' = sp_ok s -> sp_rx s' = sp_rx s ->
  fst (_wait_for_ask info s') = fst (_wait_for_ask info s).
Proof.
  intros Hok Hrx. rewrite !wait_for_ask_unfold, Hok, Hrx.
  destruct (sp_ok s); [|reflexivity].
  destruct (sp_rx s) as [|b rest]; reflexivity.
Qed.

(* ===================================================================== *)
(** ** Handshake *)
(* ===================================================================== *)

(** C4.  [_wait_for_ask] sorts what its one-byte read obtains into exactly
    three outcomes.  The byte 0x79 makes it return (success); the byte
    0x1F raises the exception with the NACK message; every other byte
    raises it with the unknown-response message, and a timeout or a port
    error raises it with the cannot-read message (these two are the
    specification's protocol error).  The code has the single class
    [CmdException], so the kinds of failure are told apart by message.
    Whenever the call returns, the byte read was 0x79. *)
Theorem wait_for_ask_classification (info : string) (s : state) :
  let r := fst (_wait_for_ask info s) in
  match next_byte s with
  | Some b =>
      (b = 0x79 /\ r = Returned 1)
      \/ (b = 0x1F /\ r = Raised (CmdException ("NACK " +:+ info)))
      \/ (b <> 0x79 /\ b <> 0x1F /\
          r = Raised (CmdException
                        ("Unknown response. " +:+ info +:+ ": " +:+ format_d b)))
  | None => r = Raised (CmdException "Can't read port or timeout")
  end
  /\ (forall v, r = Returned v -> next_byte s = Some 0x79).
Proof.
  unfold next_byte. rewrite wait_for_ask_unfold.
  destruct (sp_ok s); [|split; [reflexivity|discriminate]].
  destruct (sp_rx s) as [|b rest]; [split; [reflexivity|discriminate]|].
  cbn.
  destruct (Z.eqb_spec b 121) as [->|H79].
  { split; [left; split; reflexivity|reflexivity]. }
  destruct (Z.eqb_spec b 31) as [->|H1F].
  { split; [right; left; split; reflexivity|discriminate]. }
  split; [right; right; repeat split; assumption|discriminate].
Qed.

(* ===================================================================== *)
(** ** What the commands leave alone *)
(* ===================================================================== *)

Lemma same_object_refl s : same_object s s.
Proof. repeat split. Qed.

Lemma same_object_trans s1 s2 s3 :
  same_object s1 s2 -> same_object s2 s3 -> same_object s1 s3.
Proof.
  unfold same_object. intros (?&?&?&?&?&?&?) (?&?&?&?&?&?&?).
  repeat split; congruence.
Qed.

Lemma port_only_ret {A} (a : A) : port_only (ret a).
Proof. intros s. split; [discriminate|apply same_object_refl]. Qed.

Lemma port_only_raise {A} e : port_only (@raise A e).
Proof. intros s. split; [discriminate|apply same_object_refl]. Qed.

Lemma port_only_bind {A B} (m : M A) (k : A -> M B) :
  port_only m -> (forall a, port_only (k a)) -> port_only (bind m k).
Proof.
  intros Hm Hk s. unfold bind. destruct (Hm s) as [Hf Hs].
  destruct (m s) as [[a|e|] s']; cbn in *;
    [|split; [discriminate|assumption]|contradiction].
  destruct (Hk a s') as [Hf' Hs'].
  split; [exact Hf'|]. eapply same_object_trans; eassumption.
Qed.

Lemma port_only_try {A B} (body : M A) (handler : M B) (orelse : A -> M B) :
  port_only body -> port_only handler -> (forall a, port_only (orelse a)) ->
  port_only (try_except_else body handler orelse).
Proof.
  intros Hb Hh Ho s. unfold try_except_else. destruct (Hb s) as [Hf Hs].
  destruct (body s) as [[a|e|] s']; cbn in *; [| |contradiction].
  - destruct (Ho a s') as [Hf' Hs'].
    split; [exact Hf'|]. eapply same_object_trans; eassumption.
  - destruct (Hh s') as [Hf' Hs'].
    split; [exact Hf'|]. eapply same_object_trans; eassumption.
Qed.

Lemma port_only_assert c : port_only (assert c).
Proof. destruct c; [apply port_only_ret|apply port_only_raise]. Qed.

Lemma port_only_bytearray l : port_only (bytearray l).
Proof.
  unfold bytearray. destruct (forallb is_byte l);
    [apply port_only_ret|apply port_only_raise].
Qed.

Lemma port_only_getitem b i : port_only (getitem b i).
Proof.
  unfold getitem. destruct (b !! i);
    [apply port_only_ret|apply port_only_raise].
Qed.

Lemma port_only_sp_write data : port_only (sp_write data).
Proof.
  intros s. unfold sp_write.
  destruct (sp_ok s); (split; [discriminate|repeat split]).
Qed.

Lemma port_only_sp_read size : port_only (sp_read size).
Proof.
  intros s. unfold sp_read.
  destruct (sp_ok s); (split; [discriminate|repeat split]).
Qed.

Lemma port_only_get_timeout : port_only sp_get_timeout.
Proof. intros s. split; [discriminate|repeat split]. Qed.

Lemma port_only_set_timeout t : port_only (sp_set_timeout t).
Proof. intros s. split; [discriminate|repeat split]. Qed.

Create HintDb port discriminated.
#[local] Hint Resolve port_only_ret port_only_raise port_only_assert
  port_only_bytearray port_only_getitem port_only_sp_write
  port_only_sp_read port_only_get_timeout port_only_set_timeout : port.

(** Walks down a method body: binds, conditionals and the leaves above. *)
Ltac port_only_body :=
  repeat first
    [ solve [auto with port]
    | apply port_only_bind; [|intros ?]
    | apply port_only_try; [| |intros ?]
    | match goal with
      | |- port_only (if ?c then _ else _) => destruct c
      | |- port_only (match ?o with Some _ => _ | None => _ end) => destruct o
      end ].

Lemma port_only_wait_for_ask info : port_only (_wait_for_ask info).
Proof. unfold _wait_for_ask. port_only_body. Qed.
#[local] Hint Resolve port_only_wait_for_ask : port.

Lemma port_only_cmdGeneric cmd : port_only (cmdGeneric cmd).
Proof. unfold cmdGeneric. port_only_body. Qed.
#[local] Hint Resolve port_only_cmdGeneric : port.

Lemma port_only_for_xor_write data crc : port_only (for_xor_write data crc).
Proof.
  revert crc. induction data as [|c rest IH]; intros crc; cbn [for_xor_write].
  - apply port_only_ret.
  - port_only_body.
Qed.
#[local] Hint Resolve port_only_for_xor_write : port.

Lemma port_only_for_xor_write_pages sectors crc :
  port_only (for_xor_write_pages sectors crc).
Proof.
  revert crc.
  induction sectors as [|c rest IH]; intros crc; cbn [for_xor_write_pages].
  - apply port_only_ret.
  - unfold _cast_to_two_bytes. port_only_body.
Qed.
#[local] Hint Resolve port_only_for_xor_write_pages : port.

Lemma port_only_cmdReadMemory addr lng : port_only (cmdReadMemory addr lng).
Proof. unfold cmdReadMemory. port_only_body. Qed.

Lemma port_only_cmdWriteMemory addr data : port_only (cmdWriteMemory addr data).
Proof. unfold cmdWriteMemory. port_only_body. Qed.

Lemma port_only_cmdExtendedEraseMemory sectors :
  port_only (cmdExtendedEraseMemory sectors).
Proof.
  unfold cmdExtendedEraseMemory, _cast_to_two_bytes. port_only_body.
Qed.

Lemma port_only_cmdEraseMemory sectors : port_only (cmdEraseMemory sectors).
Proof.
  intros s. unfold cmdEraseMemory.
  destruct (extended_erase s).
  - apply port_only_cmdExtendedEraseMemory.
  - revert s. port_only_body.
Qed.

(* ===================================================================== *)
(** ** Entering the bootloader *)
(* ===================================================================== *)

Lemma snd_then_ret {A B} (m : M A) (b : B) s :
  snd ((m ;;; ret b) s) = snd (m s).
Proof. unfold bind. destruct (m s) as [[a|e|] s']; reflexivity. Qed.

Lemma then_ret_tt (m : M unit) s : (m ;;; ret tt) s = m s.
Proof. unfold bind. destruct (m s) as [[[]|e|] s']; reflexivity. Qed.

Lemma boot0_run level s :
  sp_ok s = true ->
  boot0 level s
  = (Returned tt, after [drive (_boot0 s) level s] (sp_rx s) s).
Proof.
  intros Hok. unfold boot0, drive, sp_setRTS, sp_setDTR.
  destruct (_boot0 s); rewrite Hok, emit_base; reflexivity.
Qed.

Lemma rst_run level s :
  sp_ok s = true ->
  rst level s = (Returned tt, after [drive (_rst s) level s] (sp_rx s) s).
Proof.
  intros Hok. unfold rst, drive, sp_setRTS, sp_setDTR.
  destruct (_rst s); rewrite Hok, emit_base; reflexivity.
Qed.

Lemma sleep_run ms s :
  sleep ms s = (Returned tt, after [Sleep ms] (sp_rx s) s).
Proof. unfold sleep. rewrite emit_base. reflexivity. Qed.

Lemma reset_run s :
  sp_ok s = true ->
  reset s
  = (Returned tt,
     after [drive (_rst s) false s; Sleep 100; drive (_rst s) true s;
            Sleep 500] (sp_rx s) s).
Proof.
  intros Hok. unfold reset.
  run_by rst_run.
  run_by sleep_run.
  run_by rst_run.
  rewrite sleep_run. norm_state. reflexivity.
Qed.

(** C8, as the code has it.  On a working port [initChip] performs, in
    this order: set boot0 to the select-bootloader level, drive reset low,
    wait 100 ms, drive reset high, wait 500 ms, write the one
    synchronisation byte 0x7F, and do the handshake wait, whose verdict it
    returns.  The boot0 change comes before the reset pulse, not inside
    it. *)
Theorem initChip_order (s : state) :
  sp_ok s = true ->
  sp_log (snd (initChip s))
  = sp_log s ++
    [drive (_boot0 s) false s;
     drive (_rst s) false s; Sleep 100; drive (_rst s) true s; Sleep 500;
     Write [0x7F]; ack_read s]
  /\ fst (initChip s) = fst (_wait_for_ask "Syncro" s).
Proof.
  intros Hok. unfold initChip.
  run_by boot0_run.
  run_by reset_run.
  run_by sp_write_run.
  split.
  - rewrite wait_for_ask_state by (norm_state; exact Hok).
    norm_state. reflexivity.
  - apply wait_for_ask_verdict; reflexivity.
Qed.

Lemma initChip_order_witness :
  let s := opened false [0x79] ∅ in
  sp_log (snd (initChip s))
  = [SetRTS false; SetDTR false; Sleep 100; SetDTR true; Sleep 500;
     Write [0x7F]; Read 1 5 [0x79]]
  /\ fst (initChip s) = Returned 1.
Proof. exact (initChip_order (opened false [0x79] ∅) eq_refl). Defined.

(** C8 as worded fails: the specification's order (reset low, wait, boot0,
    reset high, ...) is not the order of the events of [initChip]. *)
Lemma initChip_boot0_not_inside_reset_pulse :
  sp_log (snd (initChip (opened false [0x79] ∅)))
  <> Spec.enterBootloader_order (opened false [0x79] ∅).
Proof. vm_compute. discriminate. Qed.

(* ===================================================================== *)
(** ** Erase *)
(* ===================================================================== *)

(** The tail of the mass-erase branch: save the timeout, raise it to 30,
    wait, put it back.  The last step is skipped when the wait raises. *)
Lemma mass_erase_wait_state info s :
  sp_ok s = true ->
  let s' := snd ((tmp <- sp_get_timeout ;;
                  sp_set_timeout 30 ;;;
                  _wait_for_ask info ;;;
                  sp_set_timeout tmp) s) in
  sp_log s' = sp_log s ++ [Read 1 30 (take 1 (sp_rx s))]
  /\ sp_timeout s' = (if decide (head (sp_rx s) = Some 0x79)
                      then sp_timeout s else 30).
Proof.
  intros Hok. cbv zeta.
  unfold sp_get_timeout, sp_set_timeout, bind at 1 2.
  unfold bind. rewrite wait_for_ask_unfold.
  cbn [sp_ok with_timeout sp_rx sp_timeout]. rewrite Hok.
  destruct (sp_rx s) as [|b rest]; cbn [head take].
  { split; [reflexivity|]. case_decide; [discriminate|reflexivity]. }
  destruct (Z.eqb_spec b 121) as [->|Hb].
  { split; [reflexivity|]. case_decide; [reflexivity|contradiction]. }
  assert (Hne : Some b <> Some 121) by congruence.
  destruct (b =? 31); (split; [reflexivity|]);
    (case_decide; [contradiction|reflexivity]).
Qed.

(** A global erase request (no sector list) with its generic frame
    acknowledged: opcode 0x43 with payload [0xFF, 0x00] when the
    session's [extended_erase] is false, opcode 0x44 with payload
    [0xFF, 0xFF, 0x00] when it is true. *)
Lemma global_erase_log (s : state) (rest : list Z) :
  sp_ok s = true -> sp_rx s = 0x79 :: rest ->
  sp_log (snd (cmdEraseMemory None s))
  = sp_log s ++
    (if extended_erase s then
       [Write [0x44]; Write [0xBB]; Read 1 (sp_timeout s) [0x79];
        Write [0xFF]; Write [0xFF]; Write [0x00];
        Read 1 30 (take 1 rest)]
     else
       [Write [0x43]; Write [0xBC]; Read 1 (sp_timeout s) [0x79];
        Write [0xFF]; Write [0x00];
        Read 1 (sp_timeout s) (take 1 rest)]).
Proof.
  intros Hok Hrx.
  unfold cmdEraseMemory. destruct (extended_erase s).
  - unfold cmdExtendedEraseMemory.
    run_by cmdGeneric_ack. change (truthy 1) with true. cbv iota.
    do 3 (run_send; [|reflexivity]).
    match goal with
    | |- sp_log (snd (?m ?s1)) = _ =>
        destruct (mass_erase_wait_state "0x44 erasing failed" s1 Hok)
          as [Hlog _]
    end.
    cbv zeta in Hlog. rewrite Hlog. norm_state.
    rewrite sp_log_after, <- app_assoc. reflexivity.
  - run_by cmdGeneric_ack. change (truthy 1) with true. cbv iota.
    do 2 (run_send; [|reflexivity]).
    rewrite bind_ret_l, snd_then_ret.
    rewrite wait_for_ask_state by (norm_state; exact Hok).
    unfold ack_read. norm_state. reflexivity.
Qed.

(** On a mass erase the timeout is back at its old value exactly when the
    final wait saw the ACK. *)
Lemma extended_mass_erase_timeout (s : state) (rest : list Z) :
  sp_ok s = true -> sp_rx s = 0x79 :: rest ->
  sp_timeout (snd (cmdExtendedEraseMemory None s))
  = if decide (head rest = Some 0x79) then sp_timeout s else 30.
Proof.
  intros Hok Hrx. unfold cmdExtendedEraseMemory.
  run_by cmdGeneric_ack. change (truthy 1) with true. cbv iota.
  do 3 (run_send; [|reflexivity]).
  match goal with
  | |- sp_timeout (snd (?m ?s1)) = _ =>
      destruct (mass_erase_wait_state "0x44 erasing failed" s1 Hok)
        as [_ Htmo]
  end.
  cbv zeta in Htmo. rewrite Htmo. reflexivity.
Qed.

(** C7, the code at a failing wait.  A session with extended erase, opened
    with the 5 s timeout, whose device acknowledges the 0x44 frame and
    then answers the mass erase with NACK: the call raises, and the port's
    timeout is left at 30 instead of the 5 it had before the call. *)
Theorem extended_mass_erase_nack_leaves_timeout_30 :
  let s := opened true [0x79; 0x1F] ∅ in
  fst (cmdEraseMemory None s)
  = Raised (CmdException "NACK 0x44 erasing failed")
  /\ sp_timeout s = 5
  /\ sp_timeout (snd (cmdEraseMemory None s)) = 30.
Proof. vm_compute. repeat split. Qed.

Lemma for_xor_write_run data : forall crc s,
  sp_ok s = true -> forallb is_byte data = true ->
  for_xor_write data crc s
  = (Returned (foldl Z.lxor crc data),
     after (map (fun c => Write [c]) data) (sp_rx s) s).
Proof.
  induction data as [|c data IH]; intros crc s Hok Hb.
  - cbn [for_xor_write foldl map]. rewrite after_nil. reflexivity.
  - cbn [forallb] in Hb. apply andb_true_iff in Hb as [Hc Hd].
    cbn [for_xor_write foldl map].
    run_send; [|cbn; rewrite Hc; reflexivity].
    rewrite IH; [|exact Hok|exact Hd].
    norm_state. reflexivity.
Qed.

(** The legacy sector erase on the wire: the checksum starts from the
    constant 0xFF, whatever the count byte is. *)
Lemma legacy_sector_erase_log (sectors : list Z) (s : state) (rest : list Z) :
  extended_erase s = false ->
  sp_ok s = true -> sp_rx s = 0x79 :: rest ->
  forallb is_byte sectors = true ->
  sp_log (snd (cmdEraseMemory (Some sectors) s))
  = sp_log s ++
    [Write [0x43]; Write [0xBC]; Read 1 (sp_timeout s) [0x79];
     Write [Z.land (Z.of_nat (length sectors) - 1) 0xFF]]
    ++ map (fun c => Write [c]) sectors
    ++ [Write [foldl Z.lxor 0xFF sectors];
        Read 1 (sp_timeout s) (take 1 rest)].
Proof.
  intros Hext Hok Hrx Hb. unfold cmdEraseMemory. rewrite Hext.
  run_by cmdGeneric_ack. change (truthy 1) with true. cbv iota.
  run_send; [|cbn [forallb]; rewrite is_byte_land; reflexivity].
  rewrite ?bind_assoc. run_by for_xor_write_run.
  run_send;
    [|cbn [forallb]; rewrite andb_true_r;
      apply foldl_lxor_byte; [reflexivity|exact Hb]].
  rewrite bind_ret_l, snd_then_ret.
  rewrite wait_for_ask_state by (norm_state; exact Hok).
  unfold ack_read. norm_state.
  rewrite sp_log_after, <- !app_assoc. reflexivity.
Qed.

(** C2, the code at sectors [2, 5].  The legacy erase, both frames
    acknowledged, writes the count byte 0x01, the sectors 0x02 and 0x05
    and then the checksum 0xF8 = 0xFF xor 0x02 xor 0x05, where the XOR of
    the count byte and the sector bytes is 0x06. *)
Theorem legacy_sector_erase_2_5_checksum :
  let s := opened false [0x79; 0x79] ∅ in
  cmdEraseMemory (Some [2; 5]) s
  = (Returned tt,
     after [Write [0x43]; Write [0xBC]; Read 1 5 [0x79];
            Write [0x01]; Write [0x02]; Write [0x05]; Write [0xF8];
            Read 1 5 [0x79]] [] s)
  /\ Spec.checksum 0x01 [0x02; 0x05] = 0x06
  /\ 0xF8 <> Spec.checksum 0x01 [0x02; 0x05].
Proof. vm_compute. repeat split. discriminate. Qed.

(* ===================================================================== *)
(** ** The write-memory and read-memory frames *)
(* ===================================================================== *)

(** One write frame with all three handshakes acknowledged: opcode and
    complement, address block, length byte, the payload byte by byte, and
    a checksum that starts from the constant 0xFF. *)
Lemma cmdWriteMemory_ack (addr : Z) (data : list Z) (s : state) (rest : list Z) :
  sp_ok s = true -> sp_rx s = 0x79 :: 0x79 :: 0x79 :: rest ->
  forallb is_byte data = true -> (length data <= 256)%nat ->
  cmdWriteMemory addr data s
  = (Returned tt,
     after ([Write [0x31]; Write [0xCE]; Read 1 (sp_timeout s) [0x79];
             Write (_encode_addr addr); Read 1 (sp_timeout s) [0x79];
             Write [Z.land (Z.of_nat (length data) - 1) 0xFF]]
            ++ map (fun c => Write [c]) data
            ++ [Write [foldl Z.lxor 0xFF data];
                Read 1 (sp_timeout s) [0x79]]) rest s).
Proof.
  intros Hok Hrx Hb Hlen. unfold cmdWriteMemory.
  assert (Hle : (Z.of_nat (length data) <=? 256) = true) by (apply Z.leb_le; lia).
  unfold assert. rewrite Hle, bind_ret_l.
  run_by cmdGeneric_ack. change (truthy 1) with true. cbv iota.
  run_send; [|apply encode_addr_bytes].
  run_by wait_for_ask_ack.
  run_send; [|cbn [forallb]; rewrite is_byte_land; reflexivity].
  run_by for_xor_write_run.
  run_send;
    [|cbn [forallb]; rewrite andb_true_r;
      apply foldl_lxor_byte; [reflexivity|exact Hb]].
  run_by wait_for_ask_ack.
  unfold ret. rewrite <- !app_assoc. reflexivity.
Qed.

(** For the 256-byte payloads that [writeMemory] hands over, the constant
    is the length byte, and the checksum is the protocol's. *)
Lemma cmdWriteMemory_checksum_256 (data : list Z) :
  length data = 256%nat ->
  foldl Z.lxor 0xFF data
  = Spec.checksum (Z.land (Z.of_nat (length data) - 1) 0xFF) data.
Proof. intros ->. reflexivity. Qed.

(** C3, the code at a one-byte payload.  [cmdWriteMemory] with payload
    [0x12], every handshake acknowledged, writes the length byte 0x00, the
    byte 0x12 and then the checksum 0xED = 0xFF xor 0x12, where the XOR of
    the length byte and the payload is 0x12. *)
Theorem cmdWriteMemory_one_byte_checksum :
  let s := opened false [0x79; 0x79; 0x79] ∅ in
  cmdWriteMemory 0x08000000 [0x12] s
  = (Returned tt,
     after [Write [0x31]; Write [0xCE]; Read 1 5 [0x79];
            Write [0x08; 0x00; 0x00; 0x00; 0x08]; Read 1 5 [0x79];
            Write [0x00]; Write [0x12]; Write [0xED];
            Read 1 5 [0x79]] [] s)
  /\ Spec.checksum 0x00 [0x12] = 0x12
  /\ 0xED <> Spec.checksum 0x00 [0x12].
Proof. vm_compute. repeat split. discriminate. Qed.

(** One read frame answered with three ACKs and [lng] bytes. *)
Lemma cmdReadMemory_ack (addr lng : Z) (payload : list Z) (s : state)
      (rest : list Z) :
  sp_ok s = true -> sp_rx s = read_reply payload ++ rest ->
  lng <= 256 -> Z.of_nat (length payload) = lng ->
  cmdReadMemory addr lng s
  = (Returned payload,
     after [Write [0x11]; Write [0xEE]; Read 1 (sp_timeout s) [0x79];
            Write (_encode_addr addr); Read 1 (sp_timeout s) [0x79];
            Write [Z.land (lng - 1) 0xFF;
                   Z.lxor (Z.land (lng - 1) 0xFF) 0xFF];
            Read 1 (sp_timeout s) [0x79];
            Read lng (sp_timeout s) payload] rest s).
Proof.
  intros Hok Hrx Hle Hlen. unfold cmdReadMemory.
  assert (Hleb : (lng <=? 256) = true) by (apply Z.leb_le; lia).
  unfold assert. rewrite Hleb, bind_ret_l.
  unfold read_reply in Hrx. cbn [app] in Hrx.
  run_by cmdGeneric_ack. change (truthy 1) with true. cbv iota.
  run_send; [|apply encode_addr_bytes].
  run_by wait_for_ask_ack.
  run_send;
    [|cbn [forallb]; rewrite is_byte_land, is_byte_lxor;
      [reflexivity|apply is_byte_land|reflexivity]].
  run_by wait_for_ask_ack.
  rewrite sp_read_run by (norm_state; exact Hok). norm_state.
  assert (Hn : Z.to_nat lng = length payload) by lia.
  rewrite Hn, take_app_length, drop_app_length. reflexivity.
Qed.

(* ===================================================================== *)
(** ** Chunked transfer: reading *)
(* ===================================================================== *)

Lemma loop_turns_done lng : lng <= 256 -> loop_turns lng = 0%nat.
Proof.
  intros H. unfold loop_turns.
  assert ((lng - 1) / 256 <= 0) by (apply Z.lt_succ_r, Z.div_lt_upper_bound; lia).
  lia.
Qed.

Lemma loop_turns_more lng :
  256 < lng -> loop_turns lng = S (loop_turns (lng - 256)).
Proof.
  intros H. unfold loop_turns.
  replace (lng - 1) with ((lng - 256 - 1) + 1 * 256) by lia.
  rewrite Z.div_add by lia.
  assert (0 <= (lng - 256 - 1) / 256) by (apply Z.div_pos; lia).
  lia.
Qed.

Lemma ceil_turns lng :
  1 <= lng -> Z.to_nat ((lng + 255) / 256) = S (loop_turns lng).
Proof.
  intros H. unfold loop_turns.
  replace (lng + 255) with ((lng - 1) + 1 * 256) by lia.
  rewrite Z.div_add by lia.
  assert (0 <= (lng - 1) / 256) by (apply Z.div_pos; lia).
  lia.
Qed.

Lemma port_only_issue_reads frames : port_only (issue_reads frames).
Proof.
  induction frames as [|[a n] rest IH]; cbn [issue_reads].
  - apply port_only_ret.
  - apply port_only_bind; [apply port_only_cmdReadMemory|intros chunk].
    apply port_only_bind; [exact IH|intros more]. apply port_only_ret.
Qed.

Lemma issue_reads_app f1 : forall f2 s,
  issue_reads (f1 ++ f2) s
  = (c1 <- issue_reads f1 ;; c2 <- issue_reads f2 ;; ret (c1 ++ c2)) s.
Proof.
  induction f1 as [|[a n] f1 IH]; intros f2 s.
  - cbn [app issue_reads]. rewrite bind_ret_l. unfold bind.
    destruct (issue_reads f2 s) as [[c|e|] s']; reflexivity.
  - cbn [app issue_reads]. unfold bind.
    destruct (cmdReadMemory a n s) as [[chunk|e|] s1]; try reflexivity.
    rewrite IH. unfold bind.
    destruct (issue_reads f1 s1) as [[c1|e|] s2]; try reflexivity.
    unfold ret. cbv beta iota.
    destruct (issue_reads f2 s2) as [[c2|e|] s3]; try reflexivity.
    rewrite app_assoc. reflexivity.
Qed.

Lemma issue_reads_one addr lng s :
  issue_reads [(addr, lng)] s = cmdReadMemory addr lng s.
Proof.
  cbn [issue_reads]. unfold bind.
  destruct (cmdReadMemory addr lng s) as [[c|e|] s']; try reflexivity.
  cbn. rewrite app_nil_r. reflexivity.
Qed.

(** The loop of [readMemory] is a run of 256-byte frames. *)
Lemma readMemory_while_frames : forall fuel addr lng acc s,
  lng <= 256 * Z.of_nat fuel + 256 ->
  readMemory_while fuel addr lng acc s
  = (chunks <- issue_reads
                 (map (fun i => (addr + 256 * Z.of_nat i, 256))
                      (seq 0 (loop_turns lng))) ;;
     ret (addr + 256 * Z.of_nat (loop_turns lng),
          lng - 256 * Z.of_nat (loop_turns lng),
          acc ++ chunks)) s.
Proof.
  induction fuel as [|fuel IH]; intros addr lng acc s Hfuel.
  - assert (Hle : lng <= 256) by lia.
    cbn [readMemory_while].
    assert (Hgt : (lng >? 256) = false)
      by (rewrite Z.gtb_ltb; apply Z.ltb_ge; lia).
    rewrite Hgt.
    rewrite loop_turns_done by exact Hle.
    cbn [seq map issue_reads]. rewrite bind_ret_l. unfold ret.
    change (Z.of_nat 0) with 0.
    rewrite app_nil_r, Z.mul_0_r, Z.add_0_r, Z.sub_0_r. reflexivity.
  - cbn [readMemory_while].
    destruct (Z.gtb_spec lng 256) as [Hgt|Hle].
    + rewrite (loop_turns_more lng) by lia.
      set (j := loop_turns (lng - 256)).
      replace (addr + 256 * Z.of_nat (S j))
        with (addr + 256 + 256 * Z.of_nat j) by lia.
      replace (lng - 256 * Z.of_nat (S j))
        with (lng - 256 - 256 * Z.of_nat j) by lia.
      cbn [seq map issue_reads].
      change (Z.of_nat 0) with 0. rewrite Z.mul_0_r, Z.add_0_r.
      rewrite <- seq_shift, map_map.
      rewrite (map_ext _ (fun i => (addr + 256 + 256 * Z.of_nat i, 256)))
        by (intros i; f_equal; lia).
      rewrite bind_assoc.
      apply bind_ext. intros chunk s1 _.
      rewrite IH by lia. fold j. rewrite bind_assoc.
      apply bind_ext. intros more s2 _.
      rewrite bind_ret_l. unfold ret. rewrite app_assoc. reflexivity.
    + rewrite loop_turns_done by exact Hle.
      cbn [seq map issue_reads]. rewrite bind_ret_l. unfold ret.
      change (Z.of_nat 0) with 0.
      rewrite app_nil_r, Z.mul_0_r, Z.add_0_r, Z.sub_0_r. reflexivity.
Qed.

(** [readMemory] is the run of the specification's frames. *)
Lemma readMemory_issue_reads addr lng s :
  1 <= lng ->
  readMemory addr lng s = issue_reads (Spec.read_frames addr lng) s.
Proof.
  intros Hlng. unfold readMemory, Spec.read_frames.
  rewrite ceil_turns by exact Hlng.
  replace (S (loop_turns lng) - 1)%nat with (loop_turns lng) by lia.
  rewrite issue_reads_app.
  erewrite bind_cong by (apply readMemory_while_frames; lia).
  rewrite bind_assoc.
  apply bind_ext. intros chunks s1 _.
  rewrite bind_ret_l. cbv beta iota. cbn [app].
  unfold bind. rewrite issue_reads_one.
  destruct (cmdReadMemory _ _ s1) as [[chunk|e|] s2]; reflexivity.
Qed.

(** The loop of [readMemory] stays within its budget, whatever [lng]. *)
Lemma readMemory_total addr lng s : fst (readMemory addr lng s) <> OutOfFuel.
Proof.
  unfold readMemory.
  erewrite bind_cong by (apply readMemory_while_frames; lia).
  rewrite bind_assoc.
  match goal with
  | |- fst (bind ?m ?k s) <> _ => assert (H : port_only (bind m k))
  end.
  { apply port_only_bind; [apply port_only_issue_reads|intros chunks].
    apply port_only_bind; [apply port_only_ret|intros [[a l] d]].
    apply port_only_bind; [apply port_only_cmdReadMemory|intros chunk].
    apply port_only_ret. }
  exact (proj1 (H s)).
Qed.

Lemma loop_turns_remainder lng :
  1 <= lng -> 1 <= lng - 256 * Z.of_nat (loop_turns lng) <= 256.
Proof.
  intros H. unfold loop_turns.
  assert (0 <= (lng - 1) / 256) by (apply Z.div_pos; lia).
  rewrite Z2Nat.id by assumption.
  pose proof (Z.div_mod (lng - 1) 256 ltac:(lia)) as Hdm.
  pose proof (Z.mod_pos_bound (lng - 1) 256 ltac:(lia)) as Hmod.
  lia.
Qed.

Lemma read_frames_length addr lng :
  1 <= lng ->
  length (Spec.read_frames addr lng) = S (loop_turns lng).
Proof.
  intros H. unfold Spec.read_frames.
  rewrite ceil_turns by exact H.
  rewrite length_app, length_map, length_seq. cbn [length]. lia.
Qed.

Lemma read_frames_sizes addr lng :
  1 <= lng -> Forall (fun f => 1 <= f.2 <= 256) (Spec.read_frames addr lng).
Proof.
  intros H. unfold Spec.read_frames.
  rewrite ceil_turns by exact H.
  replace (S (loop_turns lng) - 1)%nat with (loop_turns lng) by lia.
  apply Forall_app. split.
  - apply Forall_forall. intros f Hf.
    apply list_elem_of_In, in_map_iff in Hf as (i & <- & _). cbn. lia.
  - constructor; [|constructor]. cbn [snd].
    apply loop_turns_remainder, H.
Qed.

Lemma read_frames_total addr lng :
  1 <= lng -> foldr Z.add 0 (map snd (Spec.read_frames addr lng)) = lng.
Proof.
  intros H. unfold Spec.read_frames.
  rewrite ceil_turns by exact H.
  replace (S (loop_turns lng) - 1)%nat with (loop_turns lng) by lia.
  assert (Hsum : forall (l : list nat) (x : Z * Z),
            foldr Z.add 0
              (map snd (map (fun i => (addr + 256 * Z.of_nat i, 256)) l
                        ++ [x]))
            = 256 * Z.of_nat (length l) + x.2).
  { induction l as [|i l IH]; intros x; cbn [map app foldr length snd]; [lia|].
    rewrite IH. lia. }
  rewrite Hsum, length_seq. cbn [snd]. lia.
Qed.

Lemma answered_length (frames : list (Z * Z)) (payloads : list (list Z)) :
  Forall2 (fun f p => Z.of_nat (length p) = f.2) frames payloads ->
  Z.of_nat (length (concat payloads)) = foldr Z.add 0 (map snd frames).
Proof.
  induction 1 as [|f p frames payloads Hfp _ IH]; [reflexivity|].
  cbn [concat map foldr]. rewrite length_app, Nat2Z.inj_add, IH, Hfp.
  reflexivity.
Qed.

(** A device that acknowledges every read frame and delivers what was
    asked for makes the run return the data, in order; the log grows by
    the frames, one after the other. *)
Lemma issue_reads_answered (frames : list (Z * Z)) (payloads : list (list Z)) :
  Forall2 (fun f p => Z.of_nat (length p) = f.2) frames payloads ->
  Forall (fun f => 1 <= f.2 <= 256) frames ->
  forall s rest,
    sp_ok s = true ->
    sp_rx s = concat (map read_reply payloads) ++ rest ->
    issue_reads frames s
    = (Returned (concat payloads),
       after (concat (zip_with (read_frame_events (sp_timeout s))
                               frames payloads))
             rest s).
Proof.
  induction 1 as [|[a n] p frames payloads Hfp _ IH];
    intros Hsz s rest Hok Hrx.
  - cbn in Hrx. cbn [issue_reads zip_with concat].
    rewrite <- Hrx, after_nil. reflexivity.
  - inversion Hsz as [|? ? Hn Hsz']; subst. cbn [snd] in Hfp, Hn.
    cbn [map concat] in Hrx. rewrite <- app_assoc in Hrx.
    cbn [issue_reads].
    erewrite bind_run
      by (eapply cmdReadMemory_ack; [exact Hok|exact Hrx|lia|exact Hfp]).
    match goal with
    | |- bind (issue_reads frames) _ ?s1 = _ =>
        rewrite (bind_run _ _ _ _ _ (IH Hsz' s1 rest Hok eq_refl))
    end.
    rewrite after_after, sp_timeout_after. reflexivity.
Qed.

(** C5.  For every [lng >= 1] (so for all of 1..100000), [readMemory]
    is exactly the run of [cmdReadMemory] over the frames of section 4.4;
    there are [ceil(lng/256)] of them, each asking for between 1 and 256
    bytes; and on a device that acknowledges each frame and returns the
    number of bytes it was asked for, the port carries exactly these
    frames and [readMemory] returns the concatenation of their data in
    address order, whose length is [lng]. *)
Theorem readMemory_frames (addr lng : Z) (s : state)
        (payloads : list (list Z)) (rest : list Z) :
  1 <= lng ->
  sp_ok s = true ->
  Forall2 (fun f p => Z.of_nat (length p) = f.2)
          (Spec.read_frames addr lng) payloads ->
  sp_rx s = concat (map read_reply payloads) ++ rest ->
  let frames := Spec.read_frames addr lng in
  let k := Z.of_nat (length frames) in
  (forall s0, readMemory addr lng s0 = issue_reads frames s0)
  /\ 256 * (k - 1) < lng <= 256 * k
  /\ Forall (fun f => 1 <= f.2 <= 256) frames
  /\ fst (readMemory addr lng s) = Returned (concat payloads)
  /\ sp_log (snd (readMemory addr lng s))
     = sp_log s
       ++ concat (zip_with (read_frame_events (sp_timeout s)) frames payloads)
  /\ sp_rx (snd (readMemory addr lng s)) = rest
  /\ Z.of_nat (length (concat payloads)) = lng.
Proof.
  intros Hlng Hok Hans Hrx frames k. subst k frames.
  pose proof (read_frames_sizes addr lng Hlng) as Hsz.
  pose proof (issue_reads_answered _ _ Hans Hsz s rest Hok Hrx) as Hrun.
  split; [intros s0; apply readMemory_issue_reads, Hlng|].
  split.
  { rewrite read_frames_length by exact Hlng.
    pose proof (loop_turns_remainder lng Hlng). lia. }
  split; [exact Hsz|].
  rewrite readMemory_issue_reads by exact Hlng.
  rewrite Hrun.
  split; [reflexivity|]. split; [reflexivity|]. split; [reflexivity|].
  rewrite (answered_length _ _ Hans). apply read_frames_total, Hlng.
Qed.

Lemma readMemory_frames_witness :
  let payloads := [take 256 firmware300; drop 256 firmware300] in
  let s := opened false (concat (map read_reply payloads)) ∅ in
  fst (readMemory 0x08000000 300 s) = Returned firmware300
  /\ length (Spec.read_frames 0x08000000 300) = 2%nat.
Proof.
  pose proof (readMemory_frames 0x08000000 300
                (opened false
                   (concat (map read_reply
                                [take 256 firmware300; drop 256 firmware300])) ∅)
                [take 256 firmware300; drop 256 firmware300] []
                ltac:(lia) eq_refl
                ltac:(repeat constructor)
                ltac:(vm_compute; reflexivity)) as H.
  cbv zeta in H. destruct H as (_ & _ & _ & Hret & _ & _ & _).
  split; [exact Hret|reflexivity].
Defined.

(* ===================================================================== *)
(** ** Chunked transfer: writing *)
(* ===================================================================== *)

(** The slices that [writeMemory] takes: a window of 256 from a
    non-negative offset, cut short at the end of the buffer. *)
Lemma slice_window {A} (l : list A) (o : nat) :
  slice l (Z.of_nat o) (Z.of_nat o + 256) = take 256 (drop o l).
Proof.
  unfold slice, slice_bound.
  assert (Hlo : (Z.of_nat o <? 0) = false) by (apply Z.ltb_ge; lia).
  assert (Hhi : (Z.of_nat o + 256 <? 0) = false) by (apply Z.ltb_ge; lia).
  rewrite Hlo, Hhi.
  destruct (le_lt_dec o (length l)) as [Hin|Hout].
  - replace (Z.to_nat (Z.min (Z.of_nat o) (Z.of_nat (length l)))) with o by lia.
    destruct (le_lt_dec (o + 256) (length l)) as [Hfull|Hpart].
    + f_equal. lia.
    + rewrite !take_ge; [reflexivity| |]; rewrite length_drop; lia.
  - rewrite !drop_ge by lia. rewrite !take_nil. reflexivity.
Qed.

Lemma deref_run d b s :
  heap s !! d = Some b -> deref d s = (Returned (contents b), s).
Proof. unfold deref. intros ->. reflexivity. Qed.

Lemma buf_len_run d b s :
  heap s !! d = Some b ->
  buf_len d s = (Returned (Z.of_nat (length (contents b))), s).
Proof.
  intros H. unfold buf_len. rewrite (bind_run _ _ _ _ _ (deref_run d b s H)).
  reflexivity.
Qed.

Lemma buf_slice_run d b lo hi s :
  heap s !! d = Some b ->
  buf_slice d lo hi s = (Returned (slice (contents b) lo hi), s).
Proof.
  intros H. unfold buf_slice.
  rewrite (bind_run _ _ _ _ _ (deref_run d b s H)). reflexivity.
Qed.

Lemma buf_extend_run d l n s :
  heap s !! d = Some (ByteArray l) ->
  buf_extend d (replicate n 0xFF) s
  = (Returned tt,
     with_heap (<[d := ByteArray (l ++ replicate n 0xFF)]> (heap s)) s).
Proof.
  intros H. unfold buf_extend. rewrite H, replicate_0xFF_bytes. reflexivity.
Qed.

Lemma buf_extend_bytes d l more s :
  heap s !! d = Some (Bytes l) ->
  buf_extend d more s = (Raised AttributeError, s).
Proof. intros H. unfold buf_extend. rewrite H. reflexivity. Qed.

Lemma port_only_issue_writes frames : port_only (issue_writes frames).
Proof.
  induction frames as [|[a p] rest IH]; cbn [issue_writes].
  - apply port_only_ret.
  - apply port_only_bind; [apply port_only_cmdWriteMemory|intros _; exact IH].
Qed.

Lemma frame_count_turns (n : nat) :
  Spec.frame_count n = S (loop_turns (Z.of_nat n)).
Proof.
  unfold Spec.frame_count, loop_turns.
  destruct n as [|n]; [reflexivity|].
  assert (H0 : 0 <= (Z.of_nat (S n) - 1) / 256) by (apply Z.div_pos; lia).
  pose proof (Nat.div_mod_eq (S n + 255) 256) as Hn.
  pose proof (Nat.mod_upper_bound (S n + 255) 256 ltac:(lia)) as Hr.
  pose proof (Z.div_mod (Z.of_nat (S n) - 1) 256 ltac:(lia)) as Hz.
  pose proof (Z.mod_pos_bound (Z.of_nat (S n) - 1) 256 ltac:(lia)) as Hm.
  revert H0 Hn Hr Hz Hm.
  generalize ((S n + 255) / 256)%nat, ((S n + 255) mod 256)%nat,
             ((Z.of_nat (S n) - 1) / 256), ((Z.of_nat (S n) - 1) mod 256).
  intros q r z r' H0 Hn Hr Hz Hm. lia.
Qed.

(** The loop of [writeMemory] is a run of unmodified 256-byte slices. *)
Lemma writeMemory_while_frames d b : forall fuel addr (o : nat) lng s,
  let data := contents b in
  heap s !! d = Some b ->
  lng <= 256 * Z.of_nat fuel + 256 ->
  writeMemory_while fuel d addr (Z.of_nat o) lng s
  = (issue_writes
       (map (fun i => (addr + 256 * Z.of_nat i,
                       take 256 (drop (o + 256 * i) data)))
            (seq 0 (loop_turns lng))) ;;;
     ret (addr + 256 * Z.of_nat (loop_turns lng),
          Z.of_nat o + 256 * Z.of_nat (loop_turns lng),
          lng - 256 * Z.of_nat (loop_turns lng))) s.
Proof.
  induction fuel as [|fuel IH]; intros addr o lng s data Hd Hfuel.
  - assert (Hle : lng <= 256) by lia.
    cbn [writeMemory_while].
    assert (Hgt : (lng >? 256) = false)
      by (rewrite Z.gtb_ltb; apply Z.ltb_ge; lia).
    rewrite Hgt, loop_turns_done by exact Hle.
    cbn [seq map issue_writes]. rewrite bind_ret_l. unfold ret.
    change (Z.of_nat 0) with 0.
    rewrite Z.mul_0_r, !Z.add_0_r, Z.sub_0_r. reflexivity.
  - cbn [writeMemory_while].
    destruct (Z.gtb_spec lng 256) as [Hgt|Hle].
    + rewrite (loop_turns_more lng) by lia.
      set (j := loop_turns (lng - 256)).
      replace (addr + 256 * Z.of_nat (S j))
        with (addr + 256 + 256 * Z.of_nat j) by lia.
      replace (Z.of_nat o + 256 * Z.of_nat (S j))
        with (Z.of_nat (o + 256) + 256 * Z.of_nat j) by lia.
      replace (lng - 256 * Z.of_nat (S j))
        with (lng - 256 - 256 * Z.of_nat j) by lia.
      cbn [seq map issue_writes].
      change (Z.of_nat 0) with 0. rewrite Z.mul_0_r, Z.add_0_r.
      replace (o + 256 * 0)%nat with o by lia.
      rewrite <- seq_shift, map_map.
      rewrite (map_ext _ (fun i => (addr + 256 + 256 * Z.of_nat i,
                                    take 256 (drop (o + 256 + 256 * i) data))))
        by (intros i; f_equal; [lia|do 2 f_equal; lia]).
      rewrite (bind_run _ _ _ _ _ (buf_slice_run d b _ _ s Hd)).
      fold data. rewrite slice_window, bind_assoc.
      apply bind_ext. intros [] s1 Hs1.
      replace (Z.of_nat o + 256) with (Z.of_nat (o + 256)) by lia.
      rewrite IH; [fold j; reflexivity| |lia].
      destruct (port_only_cmdWriteMemory addr (take 256 (drop o data)) s)
        as (_ & _ & _ & _ & _ & _ & _ & Hheap).
      rewrite Hs1 in Hheap. cbn [snd] in Hheap. rewrite Hheap. exact Hd.
    + rewrite loop_turns_done by exact Hle.
      cbn [seq map issue_writes]. rewrite bind_ret_l. unfold ret.
      change (Z.of_nat 0) with 0.
      rewrite Z.mul_0_r, !Z.add_0_r, Z.sub_0_r. reflexivity.
Qed.

Lemma turns_bounds (n : nat) :
  (256 * loop_turns (Z.of_nat n) <= n
   /\ n <= 256 * S (loop_turns (Z.of_nat n)))%nat.
Proof.
  destruct n as [|n]; [split; [reflexivity|lia]|].
  pose proof (loop_turns_remainder (Z.of_nat (S n)) ltac:(lia)). lia.
Qed.

Lemma final_window (data : list Z) (j : nat) :
  (256 * j <= length data)%nat -> (length data <= 256 * S j)%nat ->
  take 256 (drop (256 * j)
                 (data ++ replicate (256 * S j - length data) 0xFF))
  = drop (256 * j) data ++ replicate (256 * S j - length data) 0xFF.
Proof.
  intros Hlo Hhi. rewrite drop_app_le by exact Hlo.
  apply take_ge. rewrite length_app, length_drop, length_replicate. lia.
Qed.

(** [writeMemory] as a run of frames: the full chunks, then the buffer is
    extended, then the final chunk. *)
Lemma writeMemory_decompose addr d data s :
  heap s !! d = Some (ByteArray data) ->
  writeMemory addr d s
  = (issue_writes (Spec.full_chunks addr data) ;;;
     buf_extend d (Spec.padding data) ;;;
     cmdWriteMemory (Spec.final_chunk addr data).1
                    (Spec.final_chunk addr data).2) s.
Proof.
  intros Hd. unfold writeMemory.
  rewrite (bind_run _ _ _ _ _ (buf_len_run d _ s Hd)).
  cbv zeta. cbn [contents].
  erewrite bind_cong
    by (apply (writeMemory_while_frames d (ByteArray data) _ addr 0%nat _ s Hd);
        lia).
  cbn [contents].
  rewrite bind_assoc.
  unfold Spec.full_chunks, Spec.final_chunk, Spec.padding.
  rewrite frame_count_turns.
  set (j := loop_turns (Z.of_nat (length data))).
  replace (S j - 1)%nat with j by lia.
  cbn [Nat.add fst snd].
  destruct (turns_bounds (length data)) as [Hlo Hhi]. fold j in Hlo, Hhi.
  apply bind_ext. intros [] s1 Hs1.
  assert (Hd1 : heap s1 !! d = Some (ByteArray data)).
  { match type of Hs1 with
    | issue_writes ?fs s = _ =>
        destruct (port_only_issue_writes fs s)
          as (_ & _ & _ & _ & _ & _ & _ & Hheap)
    end.
    rewrite Hs1 in Hheap. cbn [snd] in Hheap. rewrite Hheap. exact Hd. }
  rewrite bind_ret_l. cbv beta iota.
  replace (Z.to_nat (256 - (Z.of_nat (length data) - 256 * Z.of_nat j)))
    with (256 * S j - length data)%nat by lia.
  rewrite !(bind_run _ _ _ _ _ (buf_extend_run d data _ s1 Hd1)).
  erewrite bind_run; cycle 1.
  { apply buf_slice_run. cbn [heap with_heap]. apply lookup_insert_eq. }
  replace (Z.of_nat 0 + 256 * Z.of_nat j) with (Z.of_nat (256 * j)) by lia.
  cbn [contents]. rewrite slice_window, final_window by assumption.
  reflexivity.
Qed.

(** The loop of [writeMemory] stays within its budget. *)
Lemma bind_total {A B} (m : M A) (k : A -> M B) s :
  fst (m s) <> OutOfFuel ->
  (forall a s', fst (k a s') <> OutOfFuel) ->
  fst (bind m k s) <> OutOfFuel.
Proof.
  intros Hm Hk. unfold bind.
  destruct (m s) as [[a|e|] s']; cbn in *; [apply Hk|discriminate|contradiction].
Qed.

Lemma writeMemory_total addr d s : fst (writeMemory addr d s) <> OutOfFuel.
Proof.
  unfold writeMemory.
  destruct (heap s !! d) as [b|] eqn:Hd.
  - rewrite (bind_run _ _ _ _ _ (buf_len_run d b s Hd)). cbv zeta.
    erewrite bind_cong
      by (apply (writeMemory_while_frames d b _ addr 0%nat _ s Hd); lia).
    rewrite bind_assoc.
    apply bind_total; [apply port_only_issue_writes|intros [] s1].
    rewrite bind_ret_l. cbv beta iota.
    apply bind_total; [|intros [] s2].
    { unfold buf_extend.
      destruct (heap s1 !! d) as [[l|l]|]; [|cbn; discriminate..].
      destruct (forallb is_byte _); cbn; discriminate. }
    apply bind_total; [|intros chunk s3; apply port_only_cmdWriteMemory].
    unfold buf_slice, bind, deref.
    destruct (heap s2 !! d); cbn; discriminate.
  - assert (E : buf_len d s = (Raised TypeError, s))
      by (unfold buf_len, bind, deref; rewrite Hd; reflexivity).
    unfold bind at 1. rewrite E. cbn. discriminate.
Qed.

Lemma full_chunks_lookup addr data (i : nat) :
  (i < Spec.frame_count (length data) - 1)%nat ->
  Spec.write_frames addr data !! i
  = Some (addr + 256 * Z.of_nat i, take 256 (drop (256 * i) data)).
Proof.
  intros Hi. unfold Spec.write_frames, Spec.full_chunks.
  rewrite lookup_app_l by (rewrite length_map, length_seq; exact Hi).
  rewrite list_lookup_fmap, lookup_seq_lt by exact Hi. reflexivity.
Qed.

Lemma final_chunk_lookup addr data :
  Spec.write_frames addr data !! (Spec.frame_count (length data) - 1)%nat
  = Some (Spec.final_chunk addr data).
Proof.
  unfold Spec.write_frames, Spec.full_chunks.
  rewrite lookup_app_r by (rewrite length_map, length_seq; lia).
  rewrite length_map, length_seq, Nat.sub_diag. reflexivity.
Qed.

Lemma write_frames_sizes addr data :
  Forall (fun f => length f.2 = 256%nat) (Spec.write_frames addr data).
Proof.
  unfold Spec.write_frames, Spec.full_chunks, Spec.final_chunk, Spec.padding.
  rewrite frame_count_turns.
  destruct (turns_bounds (length data)) as [Hlo Hhi].
  set (j := loop_turns (Z.of_nat (length data))) in *.
  replace (S j - 1)%nat with j by lia.
  apply Forall_app. split.
  - apply Forall_forall. intros f Hf.
    apply list_elem_of_In, in_map_iff in Hf as (i & <- & Hi).
    apply in_seq in Hi. cbn [snd].
    rewrite length_take, length_drop. lia.
  - constructor; [|constructor]. cbn [snd].
    rewrite length_app, length_drop, length_replicate. lia.
Qed.

Lemma heap_after_writeMemory addr d data s :
  heap s !! d = Some (ByteArray data) ->
  fst (writeMemory addr d s) = Returned tt ->
  heap (snd (writeMemory addr d s))
  = <[d := ByteArray (data ++ Spec.padding data)]> (heap s).
Proof.
  intros Hd. rewrite (writeMemory_decompose addr d data s Hd).
  destruct (port_only_issue_writes (Spec.full_chunks addr data) s)
    as (_ & _ & _ & _ & _ & _ & _ & Hheap).
  destruct (issue_writes (Spec.full_chunks addr data) s)
    as [[[]|e|] s1] eqn:E1; cbn [snd] in Hheap.
  - rewrite !(bind_run _ _ _ _ _ E1).
    assert (Hd1 : heap s1 !! d = Some (ByteArray data))
      by (rewrite Hheap; exact Hd).
    unfold Spec.padding at 1 2.
    rewrite !(bind_run _ _ _ _ _ (buf_extend_run d data _ s1 Hd1)).
    intros _.
    match goal with
    | |- heap (snd (cmdWriteMemory ?a ?p ?s2)) = _ =>
        destruct (port_only_cmdWriteMemory a p s2)
          as (_ & _ & _ & _ & _ & _ & _ & Hheap2)
    end.
    rewrite Hheap2. cbn [heap with_heap]. rewrite Hheap. reflexivity.
  - unfold bind at 1. rewrite E1. discriminate.
  - unfold bind at 1. rewrite E1. discriminate.
Qed.

(** [256 * frame_count n] is the next positive multiple of 256 from [n]. *)
Lemma padded_length_least (n : nat) :
  let m := (256 * Spec.frame_count n)%nat in
  (0 < m /\ n <= m /\ Nat.divide 256 m
   /\ forall m', 0 < m' -> Nat.divide 256 m' -> n <= m' -> m <= m')%nat.
Proof.
  cbv zeta. rewrite frame_count_turns.
  destruct (turns_bounds n) as [Hlo Hhi].
  split; [lia|]. split; [exact Hhi|].
  split; [exists (S (loop_turns (Z.of_nat n))); lia|].
  intros m' Hpos [q ->] Hn.
  destruct n as [|n].
  - change (loop_turns (Z.of_nat 0)) with 0%nat. lia.
  - pose proof (loop_turns_remainder (Z.of_nat (S n)) ltac:(lia)). nia.
Qed.

(** C9.  When [writeMemory] returns, the caller's buffer object has grown
    in place to the next positive multiple of 256 bytes, the new bytes all
    0xFF, and no other buffer has changed.  A buffer whose length was
    already a positive multiple of 256 is unchanged; an empty buffer has
    become 256 bytes of 0xFF. *)
Theorem writeMemory_extends_buffer
        (addr : Z) (d : ref) (data : list Z) (s : state) :
  heap s !! d = Some (ByteArray data) ->
  fst (writeMemory addr d s) = Returned tt ->
  let n := length data in
  let m := (256 * Spec.frame_count n)%nat in
  let s' := snd (writeMemory addr d s) in
  heap s' = <[d := ByteArray (data ++ replicate (m - n) 0xFF)]> (heap s)
  /\ (0 < m /\ n <= m /\ Nat.divide 256 m
      /\ forall m', 0 < m' -> Nat.divide 256 m' -> n <= m' -> m <= m')%nat
  /\ ((0 < n)%nat -> (n mod 256 = 0)%nat -> heap s' = heap s)
  /\ (data = [] -> heap s' !! d = Some (ByteArray (replicate 256 0xFF))).
Proof.
  intros Hd Hret n m s'. subst s'.
  pose proof (heap_after_writeMemory addr d data s Hd Hret) as Hheap.
  unfold Spec.padding in Hheap. fold n in Hheap. fold m in Hheap.
  pose proof (padded_length_least n) as Hm. cbv zeta in Hm. fold m in Hm.
  split; [exact Hheap|]. split; [exact Hm|]. split.
  - intros Hpos Hmod. rewrite Hheap.
    destruct Hm as (_ & Hle & _ & Hleast).
    assert (Hmn : (m <= n)%nat).
    { apply Hleast; [exact Hpos| |lia].
      exists (n / 256)%nat. pose proof (Nat.div_mod_eq n 256). lia. }
    replace (m - n)%nat with 0%nat by lia.
    cbn [replicate]. rewrite app_nil_r. apply insert_id, Hd.
  - intros ->. rewrite Hheap. subst m n. rewrite lookup_insert_eq.
    reflexivity.
Qed.

Lemma writeMemory_extends_buffer_witness :
  heap (snd (writeMemory 0x08000000 1%positive flashing300)) !! 1%positive
  = Some (ByteArray (firmware300 ++ replicate 212 0xFF)).
Proof.
  pose proof (writeMemory_extends_buffer 0x08000000 1%positive firmware300
                flashing300
                ltac:(vm_compute; reflexivity)
                ltac:(vm_compute; reflexivity)) as H.
  cbv zeta in H. destruct H as (Hheap & _).
  rewrite Hheap. apply lookup_insert_eq.
Defined.



(** The command-line path reads the file into a [bytes] object: the full
    chunks go out, then [data.extend] raises and the final chunk is never
    sent. *)
Lemma writeMemory_bytes addr d data s :
  heap s !! d = Some (Bytes data) ->
  writeMemory addr d s
  = (issue_writes (Spec.full_chunks addr data) ;;; raise AttributeError) s.
Proof.
  intros Hd. unfold writeMemory.
  rewrite (bind_run _ _ _ _ _ (buf_len_run d _ s Hd)).
  cbv zeta. cbn [contents].
  erewrite bind_cong
    by (apply (writeMemory_while_frames d (Bytes data) _ addr 0%nat _ s Hd);
        lia).
  cbn [contents]. rewrite bind_assoc.
  unfold Spec.full_chunks. rewrite frame_count_turns.
  set (j := loop_turns (Z.of_nat (length data))).
  replace (S j - 1)%nat with j by lia. cbn [Nat.add].
  apply bind_ext. intros [] s1 Hs1.
  assert (Hd1 : heap s1 !! d = Some (Bytes data)).
  { match type of Hs1 with
    | issue_writes ?fs s = _ =>
        destruct (port_only_issue_writes fs s)
          as (_ & _ & _ & _ & _ & _ & _ & Hheap)
    end.
    rewrite Hs1 in Hheap. cbn [snd] in Hheap. rewrite Hheap. exact Hd. }
  rewrite bind_ret_l. cbv beta iota. unfold bind at 1.
  rewrite (buf_extend_bytes d data _ s1 Hd1). reflexivity.
Qed.

(* ===================================================================== *)
(** ** The transfers on the wire *)
(* ===================================================================== *)

Lemma forallb_take {A} (p : A -> bool) (l : list A) : forall n,
  forallb p l = true -> forallb p (take n l) = true.
Proof.
  induction l as [|x l IH]; intros [|n] H; try reflexivity.
  cbn [forallb] in H. apply andb_true_iff in H as [Hx Hl].
  cbn [take forallb]. rewrite Hx, IH by exact Hl. reflexivity.
Qed.

Lemma forallb_drop {A} (p : A -> bool) (l : list A) : forall n,
  forallb p l = true -> forallb p (drop n l) = true.
Proof.
  induction l as [|x l IH]; intros [|n] H; try reflexivity; try exact H.
  cbn [forallb] in H. apply andb_true_iff in H as [Hx Hl].
  cbn [drop]. apply IH, Hl.
Qed.

Lemma write_frames_bytes addr data :
  forallb is_byte data = true ->
  Forall (fun f => forallb is_byte f.2 = true)
         (Spec.write_frames addr data).
Proof.
  intros Hb. unfold Spec.write_frames, Spec.full_chunks, Spec.final_chunk,
    Spec.padding.
  apply Forall_app. split.
  - apply Forall_forall. intros f Hf.
    apply list_elem_of_In, in_map_iff in Hf as (i & <- & _). cbn [snd].
    apply forallb_take, forallb_drop, Hb.
  - constructor; [|constructor]. cbn [snd].
    rewrite forallb_app, forallb_drop by exact Hb.
    apply replicate_0xFF_bytes.
Qed.

(** A run of write frames on a device that acknowledges every handshake:
    it returns, and the log grows by the frames, one after the other. *)
Lemma issue_writes_acked (frames : list (Z * list Z)) :
  Forall (fun f => forallb is_byte f.2 = true) frames ->
  Forall (fun f => length f.2 = 256%nat) frames ->
  forall s rest,
    sp_ok s = true ->
    sp_rx s = replicate (3 * length frames) 0x79 ++ rest ->
    issue_writes frames s
    = (Returned tt,
       after (concat (map (write_frame_events (sp_timeout s)) frames))
             rest s).
Proof.
  induction frames as [|[a p] frames IH]; intros Hb Hsz s rest Hok Hrx.
  - cbn in Hrx. cbn [issue_writes map concat].
    rewrite <- Hrx, after_nil. reflexivity.
  - inversion Hb as [|? ? Hp Hb']; subst.
    inversion Hsz as [|? ? Hl Hsz']; subst. cbn [snd] in Hp, Hl.
    cbn [length] in Hrx.
    replace (3 * S (length frames))%nat
      with (3 + 3 * length frames)%nat in Hrx by lia.
    rewrite replicate_add in Hrx. cbn [replicate app] in Hrx.
    cbn [issue_writes].
    erewrite bind_run
      by (apply cmdWriteMemory_ack; [exact Hok|exact Hrx|exact Hp|lia]).
    cbv beta.
    match goal with
    | |- issue_writes frames ?s1 = _ =>
        rewrite (IH Hb' Hsz' s1 rest Hok eq_refl)
    end.
    rewrite after_after, sp_timeout_after. reflexivity.
Qed.

(** The whole write on the wire.  With a buffer of bytes and a device
    that acknowledges every handshake, [writeMemory] returns, the port has
    carried exactly the frames of the chunking, and the buffer has been
    extended. *)
Lemma writeMemory_on_the_wire (addr : Z) (d : ref) (data : list Z)
      (s : state) (rest : list Z) :
  heap s !! d = Some (ByteArray data) ->
  forallb is_byte data = true ->
  sp_ok s = true ->
  sp_rx s = replicate (3 * Spec.frame_count (length data)) 0x79 ++ rest ->
  let s' := snd (writeMemory addr d s) in
  fst (writeMemory addr d s) = Returned tt
  /\ sp_log s'
     = sp_log s
       ++ concat (map (write_frame_events (sp_timeout s))
                      (Spec.write_frames addr data))
  /\ sp_rx s' = rest
  /\ heap s' = <[d := ByteArray (data ++ Spec.padding data)]> (heap s).
Proof.
  intros Hd Hb Hok Hrx. cbv zeta.
  pose proof (write_frames_bytes addr data Hb) as Hfb.
  pose proof (write_frames_sizes addr data) as Hfs.
  unfold Spec.write_frames in Hfb, Hfs |- *.
  apply Forall_app in Hfb as [Hfb1 Hfb2]. apply Forall_app in Hfs as [Hfs1 Hfs2].
  inversion Hfb2 as [|? ? Hlastb _]; subst.
  inversion Hfs2 as [|? ? Hlastl _]; subst.
  assert (Hcount : length (Spec.full_chunks addr data)
                   = (Spec.frame_count (length data) - 1)%nat)
    by (unfold Spec.full_chunks; rewrite length_map, length_seq; reflexivity).
  assert (Hpos : (1 <= Spec.frame_count (length data))%nat)
    by (unfold Spec.frame_count; lia).
  replace (3 * Spec.frame_count (length data))%nat
    with (3 * length (Spec.full_chunks addr data) + 3)%nat in Hrx by lia.
  rewrite replicate_add, <- app_assoc in Hrx.
  rewrite (writeMemory_decompose addr d data s Hd).
  rewrite (bind_run _ _ _ _ _
             (issue_writes_acked _ Hfb1 Hfs1 s _ Hok Hrx)).
  unfold Spec.padding.
  erewrite bind_run by (apply buf_extend_run; exact Hd).
  rewrite (cmdWriteMemory_ack _ _ _ rest);
    [|exact Hok|reflexivity|exact Hlastb|lia].
  cbn [fst snd]. rewrite map_app, concat_app.
  cbn [map concat]. rewrite app_nil_r.
  destruct (Spec.final_chunk addr data) as [a p] eqn:Elast.
  repeat split; try reflexivity.
  rewrite sp_log_after. cbn [sp_log with_heap]. rewrite sp_log_after.
  rewrite <- app_assoc. reflexivity.
Qed.

(** The chunking of a [bytearray].  On a buffer that has the [extend]
    method, [writeMemory] is exactly this run of [cmdWriteMemory] frames:
    every full 256-byte chunk of the buffer, unmodified and in order, and
    then the final (possibly partial) chunk padded with 0xFF, the buffer
    being extended just before that last frame.  Every frame carries
    exactly 256 bytes.  On a device that acknowledges every handshake the
    call returns and the port has carried exactly these frames.  For a
    buffer of 300 bytes there are exactly two frames: the first 256 input
    bytes as they are, and 256 bytes made of the remaining input followed
    by 0xFF fill, so that its last 44 bytes are 0xFF. *)
Theorem writeMemory_chunks (addr : Z) (d : ref) (data : list Z) (s : state)
        (rest : list Z) :
  heap s !! d = Some (ByteArray data) ->
  forallb is_byte data = true ->
  sp_ok s = true ->
  sp_rx s = replicate (3 * Spec.frame_count (length data)) 0x79 ++ rest ->
  let frames := Spec.write_frames addr data in
  let k := Spec.frame_count (length data) in
  (forall s0,
      heap s0 !! d = Some (ByteArray data) ->
      writeMemory addr d s0
      = (issue_writes (Spec.full_chunks addr data) ;;;
         buf_extend d (Spec.padding data) ;;;
         issue_writes [Spec.final_chunk addr data]) s0)
  /\ length frames = k
  /\ Forall (fun f => length f.2 = 256%nat) frames
  /\ (forall i : nat, (i < k - 1)%nat ->
        frames !! i
        = Some (addr + 256 * Z.of_nat i, take 256 (drop (256 * i) data)))
  /\ frames !! (k - 1)%nat
     = Some (addr + 256 * Z.of_nat (k - 1),
             drop (256 * (k - 1)) data
             ++ replicate (256 * k - length data) 0xFF)
  /\ fst (writeMemory addr d s) = Returned tt
  /\ sp_log (snd (writeMemory addr d s))
     = sp_log s ++ concat (map (write_frame_events (sp_timeout s)) frames)
  /\ (length data = 300%nat ->
      frames = [(addr, take 256 data);
                (addr + 256, drop 256 data ++ replicate 212 0xFF)]
      /\ drop 212 (drop 256 data ++ replicate 212 0xFF)
         = replicate 44 0xFF).
Proof.
  intros Hd Hb Hok Hrx frames k. subst frames k.
  split.
  { intros s0 Hd0. rewrite (writeMemory_decompose addr d data s0 Hd0).
    apply bind_ext. intros [] s1 _.
    apply bind_ext. intros [] s2 _.
    cbn [issue_writes]. destruct (Spec.final_chunk addr data) as [a p].
    rewrite then_ret_tt. reflexivity. }
  split.
  { unfold Spec.write_frames, Spec.full_chunks.
    rewrite length_app, length_map, length_seq. cbn [length].
    unfold Spec.frame_count. lia. }
  split; [apply write_frames_sizes|].
  split; [intros i Hi; apply full_chunks_lookup, Hi|].
  split; [apply final_chunk_lookup|].
  destruct (writeMemory_on_the_wire addr d data s rest Hd Hb Hok Hrx)
    as (Hret & Hlog & _ & _).
  split; [exact Hret|]. split; [exact Hlog|].
  intros H300.
  split.
  - unfold Spec.write_frames, Spec.full_chunks, Spec.final_chunk,
      Spec.padding.
    rewrite H300. change (Spec.frame_count 300) with 2%nat.
    change (2 - 1)%nat with 1%nat. change (256 * 2 - 300)%nat with 212%nat.
    change (256 * 1)%nat with 256%nat.
    cbn [seq map app]. change (256 * 0)%nat with 0%nat.
    rewrite drop_0. repeat f_equal; lia.
  - rewrite drop_app_ge by (rewrite length_drop; lia).
    rewrite length_drop, H300, drop_replicate. reflexivity.
Qed.

Lemma writeMemory_chunks_witness :
  Spec.write_frames 0x08000000 firmware300
  = [(0x08000000, take 256 firmware300);
     (0x08000100, drop 256 firmware300 ++ replicate 212 0xFF)]
  /\ fst (writeMemory 0x08000000 1%positive flashing300) = Returned tt
  /\ sp_log (snd (writeMemory 0x08000000 1%positive flashing300))
     = write_frame_events 5 (0x08000000, take 256 firmware300)
       ++ write_frame_events 5
            (0x08000100, drop 256 firmware300 ++ replicate 212 0xFF).
Proof.
  pose proof (writeMemory_chunks 0x08000000 1%positive firmware300
                flashing300 []
                ltac:(vm_compute; reflexivity)
                ltac:(vm_compute; reflexivity)
                eq_refl
                ltac:(vm_compute; reflexivity)) as H.
  cbv zeta in H. destruct H as (_ & _ & _ & _ & _ & Hret & Hlog & H300).
  destruct (H300 eq_refl) as [Hframes _].
  split; [exact Hframes|]. split; [exact Hret|].
  rewrite Hlog, Hframes. cbn [map concat sp_log flashing300 opened app].
  rewrite app_nil_r. reflexivity.
Defined.

(** C1, the code on the command-line path.  [__main__] hands
    [writeMemory] what [open(path, 'rb').read()] returned, a [bytes]
    object.  For 300 bytes and a device ready to acknowledge both frames
    of the chunking, the first frame (the first 256 bytes, unmodified)
    goes out and is acknowledged; then [data.extend] raises
    [AttributeError].  One frame has been issued, not two: the padded
    final chunk never reaches the port, and the three ACKs meant for it
    are left unread. *)
Theorem writeMemory_300_bytes_one_frame :
  let s := flashing_image300 in
  let frames := Spec.write_frames 0x08000000 firmware300 in
  frames = [(0x08000000, take 256 firmware300);
            (0x08000100, drop 256 firmware300 ++ replicate 212 0xFF)]
  /\ writeMemory 0x08000000 1%positive s
     = (Raised AttributeError,
        after (write_frame_events 5 (0x08000000, take 256 firmware300))
              (replicate 3 0x79) s)
  /\ sp_log (snd (writeMemory 0x08000000 1%positive s))
     <> concat (map (write_frame_events 5) frames).
Proof.
  cbv zeta.
  assert (Hrun : writeMemory 0x08000000 1%positive flashing_image300
                 = (Raised AttributeError,
                    after (write_frame_events 5
                             (0x08000000, take 256 firmware300))
                          (replicate 3 0x79) flashing_image300))
    by (vm_compute; reflexivity).
  split; [vm_compute; reflexivity|]. split; [exact Hrun|].
  rewrite Hrun. intros H. apply (f_equal length) in H.
  vm_compute in H. discriminate H.
Qed.




(** The 300-byte write on a device that acknowledges: two frames, both
    with length byte 0xFF, the second one carrying the 44 remaining bytes
    and 212 bytes of fill. *)
Example writeMemory_300_on_the_wire :
  fst (writeMemory 0x08000000 1%positive flashing300) = Returned tt
  /\ writes (sp_log (snd (writeMemory 0x08000000 1%positive flashing300)))
     = [[0x31]; [0xCE]; [0x08; 0x00; 0x00; 0x00; 0x08]; [0xFF]]
       ++ map (fun c => [c]) (take 256 firmware300)
       ++ [[foldl Z.lxor 0xFF (take 256 firmware300)]]
       ++ [[0x31]; [0xCE]; [0x08; 0x00; 0x01; 0x00; 0x09]; [0xFF]]
       ++ map (fun c => [c]) (drop 256 firmware300 ++ replicate 212 0xFF)
       ++ [[foldl Z.lxor 0xFF (drop 256 firmware300 ++ replicate 212 0xFF)]].
Proof. vm_compute. split; reflexivity. Qed.

(** The same transfer read back: two frames, asking for 256 and for 44
    bytes. *)
Example readMemory_300_on_the_wire :
  let s := opened false
             (read_reply (take 256 firmware300)
              ++ read_reply (drop 256 firmware300)) ∅ in
  fst (readMemory 0x08000000 300 s) = Returned firmware300
  /\ writes (sp_log (snd (readMemory 0x08000000 300 s)))
     = [[0x11]; [0xEE]; [0x08; 0x00; 0x00; 0x00; 0x08]; [0xFF; 0x00];
        [0x11]; [0xEE]; [0x08; 0x00; 0x01; 0x00; 0x09]; [0x2B; 0xD4]].
Proof. vm_compute. split; reflexivity. Qed.

(* ===================================================================== *)
(** ** Further properties: the frame codec *)
(* ===================================================================== *)

Lemma shiftr_8 a : Z.shiftr a 8 = a / 256.
Proof. rewrite Z.shiftr_div_pow2 by lia. reflexivity. Qed.

Lemma encode_addr_div addr :
  _encode_addr addr
  = [(addr / 2 ^ 24) mod 256; (addr / 2 ^ 16) mod 256;
     (addr / 2 ^ 8) mod 256; addr mod 256;
     Z.lxor (Z.lxor (Z.lxor ((addr / 2 ^ 24) mod 256)
                            ((addr / 2 ^ 16) mod 256))
                    ((addr / 2 ^ 8) mod 256))
            (addr mod 256)].
Proof.
  unfold _encode_addr. rewrite !land_0xFF, !Z.shiftr_div_pow2 by lia.
  change (2 ^ 0) with 1. rewrite Z.div_1_r. reflexivity.
Qed.

Lemma decode_encode_mod addr :
  decode_addr (_encode_addr addr) = addr mod 2 ^ 32.
Proof.
  rewrite encode_addr_div. cbn [decode_addr].
  change (2 ^ 32) with (2 ^ 24 * 256).
  change (2 ^ 16) with (256 * 256). change (2 ^ 8) with 256.
  change (2 ^ 24) with (256 * 256 * 256).
  rewrite <- !Z.div_div by lia.
  pose proof (Z.div_mod addr 256 ltac:(lia)) as H0.
  pose proof (Z.mod_pos_bound addr 256 ltac:(lia)) as B0.
  set (q1 := addr / 256) in *.
  pose proof (Z.div_mod q1 256 ltac:(lia)) as H1.
  pose proof (Z.mod_pos_bound q1 256 ltac:(lia)) as B1.
  set (q2 := q1 / 256) in *.
  pose proof (Z.div_mod q2 256 ltac:(lia)) as H2.
  pose proof (Z.mod_pos_bound q2 256 ltac:(lia)) as B2.
  set (q3 := q2 / 256) in *.
  pose proof (Z.div_mod q3 256 ltac:(lia)) as H3.
  pose proof (Z.mod_pos_bound q3 256 ltac:(lia)) as B3.
  apply Z.mod_unique with (q := q3 / 256); [left|]; lia.
Qed.

(** X1.  Round trip of the address block: for a 32-bit address, the block
    of [_encode_addr] has five bytes, and reading its first four bytes
    most significant first gives the address back. *)
Theorem encode_addr_roundtrip (addr : Z) :
  0 <= addr < 2 ^ 32 ->
  decode_addr (_encode_addr addr) = addr
  /\ length (_encode_addr addr) = 5%nat
  /\ forallb is_byte (_encode_addr addr) = true.
Proof.
  intros H. split; [|split; [reflexivity|apply encode_addr_bytes]].
  rewrite decode_encode_mod. apply Z.mod_small, H.
Qed.

Lemma encode_addr_roundtrip_witness :
  decode_addr (_encode_addr 0x08000100) = 0x08000100
  /\ length (_encode_addr 0x08000100) = 5%nat
  /\ forallb is_byte (_encode_addr 0x08000100) = true.
Proof. apply (encode_addr_roundtrip 0x08000100). lia. Defined.

(** X2.  Whatever integer it is given, [_encode_addr] never fails: its
    five values are all in 0..255, so the [bytearray] constructor takes
    them.  The block encodes the address modulo 2^32 (higher bits and the
    sign are dropped silently): its first four bytes are the base-256
    digits of that number, most significant first, and the fifth is their
    XOR, so that the XOR of all five bytes is zero, which is what the
    receiver checks. *)
Theorem encode_addr_any (addr : Z) :
  (forall s, bytearray (_encode_addr addr) s = (Returned (_encode_addr addr), s))
  /\ length (_encode_addr addr) = 5%nat
  /\ forallb is_byte (_encode_addr addr) = true
  /\ take 4 (_encode_addr addr)
     = [(addr mod 2 ^ 32) / 2 ^ 24; (addr mod 2 ^ 32) / 2 ^ 16 mod 256;
        (addr mod 2 ^ 32) / 2 ^ 8 mod 256; (addr mod 2 ^ 32) mod 256]
  /\ drop 4 (_encode_addr addr)
     = [foldl Z.lxor 0 (take 4 (_encode_addr addr))]
  /\ decode_addr (_encode_addr addr) = addr mod 2 ^ 32
  /\ foldl Z.lxor 0 (_encode_addr addr) = 0
  /\ _encode_addr (addr + 2 ^ 32) = _encode_addr addr.
Proof.
  split; [intros s; apply bytearray_run, encode_addr_bytes|].
  split; [reflexivity|]. split; [apply encode_addr_bytes|].
  split.
  { rewrite encode_addr_div. cbn [take].
    pose proof (Z.mod_pos_bound addr (2 ^ 32) ltac:(lia)) as Hm.
    pose proof (Z.div_mod addr (2 ^ 32) ltac:(lia)) as Hd.
    set (m := addr mod 2 ^ 32) in *. set (q := addr / 2 ^ 32) in *.
    assert (E : addr = m + q * 2 ^ 32) by lia.
    rewrite E.
    assert (E24 : (m + q * 2 ^ 32) / 2 ^ 24 mod 256 = m / 2 ^ 24).
    { replace (m + q * 2 ^ 32) with (m + (q * 256) * 2 ^ 24) by lia.
      rewrite Z.div_add by lia.
      rewrite Z.add_mod, Z.mod_mul, Z.add_0_r, Z.mod_mod by lia.
      apply Z.mod_small. split; [apply Z.div_pos; lia|].
      apply Z.div_lt_upper_bound; lia. }
    assert (E16 : (m + q * 2 ^ 32) / 2 ^ 16 mod 256 = m / 2 ^ 16 mod 256).
    { replace (m + q * 2 ^ 32) with (m + (q * 2 ^ 16) * 2 ^ 16) by lia.
      rewrite Z.div_add by lia.
      replace (q * 2 ^ 16) with (q * 256 * 256) by lia.
      apply Z.mod_add. lia. }
    assert (E8 : (m + q * 2 ^ 32) / 2 ^ 8 mod 256 = m / 2 ^ 8 mod 256).
    { replace (m + q * 2 ^ 32) with (m + (q * 2 ^ 24) * 2 ^ 8) by lia.
      rewrite Z.div_add by lia.
      replace (q * 2 ^ 24) with (q * 2 ^ 16 * 256) by lia.
      apply Z.mod_add. lia. }
    assert (E0 : (m + q * 2 ^ 32) mod 256 = m mod 256).
    { replace (q * 2 ^ 32) with (q * 2 ^ 24 * 256) by lia.
      apply Z.mod_add. lia. }
    rewrite E24, E16, E8, E0. reflexivity. }
  split.
  { unfold _encode_addr. cbn [take drop foldl]. rewrite Z.lxor_0_l.
    reflexivity. }
  split; [apply decode_encode_mod|]. split.
  - unfold _encode_addr. cbn [foldl]. rewrite Z.lxor_0_l.
    apply Z.lxor_nilpotent.
  - rewrite !encode_addr_div.
    assert (H3 : (addr + 2 ^ 32) mod 256 = addr mod 256).
    { change (2 ^ 32) with (2 ^ 24 * 256).
      apply Z.mod_add. lia. }
    assert (H2 : ((addr + 2 ^ 32) / 2 ^ 8) mod 256 = (addr / 2 ^ 8) mod 256).
    { change (2 ^ 32) with (2 ^ 24 * 2 ^ 8). rewrite Z.div_add by lia.
      change (2 ^ 24) with (2 ^ 16 * 256). apply Z.mod_add. lia. }
    assert (H1 : ((addr + 2 ^ 32) / 2 ^ 16) mod 256 = (addr / 2 ^ 16) mod 256).
    { change (2 ^ 32) with (2 ^ 16 * 2 ^ 16). rewrite Z.div_add by lia.
      change (2 ^ 16) with (2 ^ 8 * 256) at 2. apply Z.mod_add. lia. }
    assert (H0 : ((addr + 2 ^ 32) / 2 ^ 24) mod 256 = (addr / 2 ^ 24) mod 256).
    { change (2 ^ 32) with (2 ^ 8 * 2 ^ 24). rewrite Z.div_add by lia.
      change (2 ^ 8) with (1 * 256). apply Z.mod_add. lia. }
    rewrite H0, H1, H2, H3. reflexivity.
Qed.

Lemma two_bytes_check v :
  forallb is_byte [Z.shiftr v 8; Z.land v 0xff] = is_u16 v.
Proof.
  cbn [forallb]. rewrite is_byte_land, shiftr_8, !andb_true_r.
  unfold is_byte, is_u16.
  pose proof (Z.div_mod v 256 ltac:(lia)).
  pose proof (Z.mod_pos_bound v 256 ltac:(lia)).
  destruct (Z.leb_spec 0 v), (Z.leb_spec 0 (v / 256));
    destruct (Z.ltb_spec v 65536), (Z.ltb_spec (v / 256) 256);
    cbn; try reflexivity; lia.
Qed.

(** X3.  [_cast_to_two_bytes] yields the two bytes of a 16-bit value, most
    significant first, from which the value is recovered; every other
    integer (negative, or 65536 and above) makes it raise [ValueError]. *)
Theorem cast_to_two_bytes_range (value : Z) (s : state) :
  _cast_to_two_bytes value s
  = (if is_u16 value then Returned (two_bytes value) else Raised ValueError,
     s)
  /\ 256 * (value / 256) + value mod 256 = value.
Proof.
  split.
  - unfold _cast_to_two_bytes, bytearray, two_bytes.
    rewrite two_bytes_check, shiftr_8, land_0xFF.
    destruct (is_u16 value); reflexivity.
  - pose proof (Z.div_mod value 256 ltac:(lia)). lia.
Qed.

Lemma lxor_0xFF_complement c : is_byte c = true -> Z.lxor c 0xFF = 255 - c.
Proof.
  intros H. apply is_byte_spec in H.
  assert (A : forallb (fun n => Z.lxor (Z.of_nat n) 255 =? 255 - Z.of_nat n)
                      (seq 0 256) = true) by (vm_compute; reflexivity).
  rewrite forallb_forall in A.
  specialize (A (Z.to_nat c)).
  rewrite Z2Nat.id in A by lia. apply Z.eqb_eq, A, in_seq. lia.
Qed.

(** [cmdGeneric] with its steps resolved. *)
Lemma cmdGeneric_unfold cmd s :
  sp_ok s = true ->
  cmdGeneric cmd s
  = if is_byte cmd then
      (fst (_wait_for_ask (format_X cmd) s),
       after [Write [cmd]; Write [255 - cmd]; ack_read s]
             (drop 1 (sp_rx s)) s)
    else (Raised ValueError, s).
Proof.
  intros Hok. unfold cmdGeneric.
  destruct (is_byte cmd) eqn:Hc.
  - run_send; [|cbn; rewrite Hc; reflexivity].
    run_send;
      [|cbn; rewrite is_byte_lxor; [reflexivity|assumption|reflexivity]].
    rewrite lxor_0xFF_complement by exact Hc.
    match goal with
    | |- _wait_for_ask ?i ?s1 = _ =>
        rewrite (surjective_pairing (_wait_for_ask i s1));
        rewrite (wait_for_ask_state i s1) by (norm_state; exact Hok);
        rewrite (wait_for_ask_verdict i s s1) by reflexivity
    end.
    unfold ack_read. norm_state. reflexivity.
  - unfold bind, bytearray. cbn [forallb]. rewrite Hc. reflexivity.
Qed.

(** X4.  [cmdGeneric] on a working port: for an opcode in 0..255 it writes
    the opcode, then its complement (the two add up to 0xFF), does one
    handshake read and returns or raises as that handshake does; for any
    other integer it raises [ValueError] and sends nothing. *)
Theorem cmdGeneric_frame (cmd : Z) (s : state) :
  sp_ok s = true ->
  cmdGeneric cmd s
  = (if is_byte cmd then
       (fst (_wait_for_ask (format_X cmd) s),
        after [Write [cmd]; Write [255 - cmd]; ack_read s]
              (drop 1 (sp_rx s)) s)
     else (Raised ValueError, s))
  /\ (is_byte cmd = true -> is_byte (255 - cmd) = true).
Proof.
  intros Hok. split; [apply cmdGeneric_unfold, Hok|].
  rewrite !is_byte_spec. lia.
Qed.

Lemma cmdGeneric_frame_witness :
  cmdGeneric 0x31 (opened false [0x79] ∅)
  = (Returned 1,
     after [Write [0x31]; Write [0xCE]; Read 1 5 [0x79]] []
           (opened false [0x79] ∅)).
Proof.
  exact (proj1 (cmdGeneric_frame 0x31 (opened false [0x79] ∅) eq_refl)).
Defined.

Lemma wait_for_ask_returns_one info s r s' :
  _wait_for_ask info s = (Returned r, s') -> r = 1.
Proof.
  rewrite wait_for_ask_unfold.
  destruct (sp_ok s); [|discriminate].
  destruct (sp_rx s) as [|ask rest]; [discriminate|].
  destruct (ask =? 121); [intros [= <- _]; reflexivity|].
  destruct (ask =? 31); discriminate.
Qed.

Lemma cmdGeneric_returns_one cmd s r s' :
  cmdGeneric cmd s = (Returned r, s') -> r = 1.
Proof.
  unfold cmdGeneric, bind.
  destruct (bytearray [cmd] s) as [[b|e|] s1]; try discriminate.
  destruct (sp_write b s1) as [[n|e|] s2]; try discriminate.
  destruct (bytearray [Z.lxor cmd 255] s2) as [[b'|e|] s3]; try discriminate.
  destruct (sp_write b' s3) as [[n'|e|] s4]; try discriminate.
  apply wait_for_ask_returns_one.
Qed.

(** X5.  [cmdGeneric] never returns anything but 1: it fails only by
    raising.  So in every command of the form [if self.cmdGeneric(op):
    ... else: raise CmdException("... failed")] the [else] branch is
    never taken, whatever the device does. *)
Theorem cmdGeneric_else_is_dead {A} (cmd : Z) (k1 k2 : M A) (s : state) :
  (r <- cmdGeneric cmd ;; if truthy r then k1 else k2) s
  = (cmdGeneric cmd ;;; k1) s
  /\ (forall r, fst (cmdGeneric cmd s) = Returned r -> r = 1).
Proof.
  split.
  - apply bind_ext. intros r s' H.
    rewrite (cmdGeneric_returns_one cmd s r s' H). reflexivity.
  - intros r H. destruct (cmdGeneric cmd s) as [res s'] eqn:E.
    cbn [fst] in H. subst res. exact (cmdGeneric_returns_one cmd s r s' E).
Qed.

Lemma rejected_head s :
  head (sp_rx s) <> Some 0x79 -> sp_ok s = true ->
  forall info, exists msg,
    fst (_wait_for_ask info s) = Raised (CmdException msg).
Proof.
  intros Hne Hok info. rewrite wait_for_ask_unfold, Hok.
  destruct (sp_rx s) as [|ask rest]; [eexists; reflexivity|].
  cbn [head] in Hne. cbn [fst].
  destruct (Z.eqb_spec ask 121) as [->|_]; [contradiction|].
  destruct (ask =? 31); eexists; reflexivity.
Qed.

(** X6.  Abort on a rejected opcode.  When the device does not answer the
    generic frame with ACK (NACK, any other byte, or nothing in time), a
    command raises [CmdException] having sent the two opcode bytes and
    nothing else; for [cmdWriteMemory] in particular neither the address
    nor a single payload byte goes out. *)
Theorem rejected_frame_aborts {A} (cmd : Z) (k : Z -> M A)
        (addr : Z) (data : list Z) (s : state) :
  is_byte cmd = true ->
  sp_ok s = true ->
  head (sp_rx s) <> Some 0x79 ->
  (length data <= 256)%nat ->
  (exists msg,
      bind (cmdGeneric cmd) k s
      = (Raised (CmdException msg),
         after [Write [cmd]; Write [255 - cmd]; ack_read s]
               (drop 1 (sp_rx s)) s))
  /\ (exists msg,
        cmdWriteMemory addr data s
        = (Raised (CmdException msg),
           after [Write [0x31]; Write [0xCE]; ack_read s]
                 (drop 1 (sp_rx s)) s)).
Proof.
  intros Hc Hok Hne Hlen.
  assert (Hgen : forall B c (k' : Z -> M B), is_byte c = true ->
            exists msg,
              bind (cmdGeneric c) k' s
              = (Raised (CmdException msg),
                 after [Write [c]; Write [255 - c]; ack_read s]
                       (drop 1 (sp_rx s)) s)).
  { intros B c k' Hb.
    destruct (rejected_head s Hne Hok (format_X c)) as [msg Hmsg].
    exists msg. unfold bind.
    rewrite (cmdGeneric_unfold c s Hok), Hb, Hmsg. reflexivity. }
  split; [apply Hgen, Hc|].
  unfold cmdWriteMemory, assert.
  assert (Hle : (Z.of_nat (length data) <=? 256) = true)
    by (apply Z.leb_le; lia).
  rewrite Hle, bind_ret_l. apply (Hgen unit 0x31). reflexivity.
Qed.

Lemma rejected_frame_aborts_witness :
  cmdWriteMemory 0x08000000 [1; 2; 3] (opened false [0x1F] ∅)
  = (Raised (CmdException "NACK 31"),
     after [Write [0x31]; Write [0xCE]; Read 1 5 [0x1F]] []
           (opened false [0x1F] ∅)).
Proof.
  destruct (rejected_frame_aborts 0x31 (fun _ => ret tt) 0x08000000 [1; 2; 3]
              (opened false [0x1F] ∅) eq_refl eq_refl
              ltac:(discriminate) ltac:(cbn; lia)) as [_ [msg H]].
  rewrite H. vm_compute in H. injection H as H. rewrite H. reflexivity.
Defined.

(* ===================================================================== *)
(** ** Further properties: handshake, read, go *)
(* ===================================================================== *)

Lemma writes_app l1 l2 : writes (l1 ++ l2) = writes l1 ++ writes l2.
Proof. unfold writes. apply omap_app. Qed.

(** X7.  The handshake wait is a pure read.  On a working port
    [_wait_for_ask] takes exactly one byte off the input (none if none
    came), whether it then returns or raises; it transmits nothing and
    leaves the timeout, the session flag, the wiring and the buffers as
    they were.  On a failed port it changes nothing at all. *)
Theorem wait_for_ask_reads_one_byte (info : string) (s : state) :
  let s' := snd (_wait_for_ask info s) in
  (if sp_ok s
   then sp_rx s' = drop 1 (sp_rx s)
        /\ sp_log s' = sp_log s ++ [ack_read s]
   else s' = s)
  /\ writes (sp_log s') = writes (sp_log s)
  /\ sp_timeout s' = sp_timeout s
  /\ same_object s s'.
Proof.
  cbv zeta. destruct (sp_ok s) eqn:Hok.
  - rewrite wait_for_ask_state by exact Hok.
    split; [split; reflexivity|].
    split; [|split; [reflexivity|repeat split]].
    rewrite sp_log_after, writes_app. cbn. apply app_nil_r.
  - rewrite wait_for_ask_unfold, Hok. cbn [snd].
    split; [reflexivity|]. split; [reflexivity|].
    split; [reflexivity|apply same_object_refl].
Qed.

(** X8.  Oversized requests are refused before any traffic: asking
    [cmdReadMemory] for more than 256 bytes, or handing [cmdWriteMemory]
    more than 256 bytes, raises [AssertionError] with the port untouched
    (the [assert] statements, when Python runs them). *)
Theorem oversized_frame_refused (addr lng : Z) (data : list Z) (s : state) :
  256 < lng ->
  (256 < length data)%nat ->
  cmdReadMemory addr lng s = (Raised AssertionError, s)
  /\ cmdWriteMemory addr data s = (Raised AssertionError, s).
Proof.
  intros Hlng Hdata. split.
  - unfold cmdReadMemory, assert.
    assert (H : (lng <=? 256) = false) by (apply Z.leb_gt; lia).
    rewrite H. reflexivity.
  - unfold cmdWriteMemory, assert.
    assert (H : (Z.of_nat (length data) <=? 256) = false)
      by (apply Z.leb_gt; lia).
    rewrite H. reflexivity.
Qed.

Lemma oversized_frame_refused_witness :
  cmdReadMemory 0 257 (opened false [0x79] ∅)
  = (Raised AssertionError, opened false [0x79] ∅)
  /\ cmdWriteMemory 0 (replicate 257 0) (opened false [0x79] ∅)
     = (Raised AssertionError, opened false [0x79] ∅).
Proof.
  apply (oversized_frame_refused 0 257 (replicate 257 0)); [lia|].
  rewrite length_replicate. lia.
Defined.

(** One read frame with its three handshakes acknowledged, whatever data
    follows. *)
Lemma cmdReadMemory_acked (addr lng : Z) (s : state) (incoming : list Z) :
  sp_ok s = true -> sp_rx s = 0x79 :: 0x79 :: 0x79 :: incoming ->
  lng <= 256 ->
  cmdReadMemory addr lng s
  = (Returned (take (Z.to_nat lng) incoming),
     after [Write [0x11]; Write [0xEE]; Read 1 (sp_timeout s) [0x79];
            Write (_encode_addr addr); Read 1 (sp_timeout s) [0x79];
            Write [Z.land (lng - 1) 0xFF;
                   Z.lxor (Z.land (lng - 1) 0xFF) 0xFF];
            Read 1 (sp_timeout s) [0x79];
            Read lng (sp_timeout s) (take (Z.to_nat lng) incoming)]
           (drop (Z.to_nat lng) incoming) s).
Proof.
  intros Hok Hrx Hle. unfold cmdReadMemory, assert.
  assert (Hleb : (lng <=? 256) = true) by (apply Z.leb_le; lia).
  rewrite Hleb, bind_ret_l.
  run_by cmdGeneric_ack. change (truthy 1) with true. cbv iota.
  run_send; [|apply encode_addr_bytes].
  run_by wait_for_ask_ack.
  run_send;
    [|cbn [forallb]; rewrite is_byte_land, is_byte_lxor;
      [reflexivity|apply is_byte_land|reflexivity]].
  run_by wait_for_ask_ack.
  rewrite sp_read_run by (norm_state; exact Hok). norm_state.
  reflexivity.
Qed.

(** X9.  [cmdReadMemory] for 1..256 bytes, all three handshakes
    acknowledged: after the opcode pair and the address block it sends
    the length byte [lng - 1] and its complement [256 - lng], and returns
    the bytes that then arrive, at most [lng] of them.  Fewer bytes than
    asked for (a timeout in the data) are returned as they are: a short
    read raises nothing. *)
Theorem cmdReadMemory_frame (addr lng : Z) (s : state) (incoming : list Z) :
  sp_ok s = true -> sp_rx s = 0x79 :: 0x79 :: 0x79 :: incoming ->
  1 <= lng <= 256 ->
  cmdReadMemory addr lng s
  = (Returned (take (Z.to_nat lng) incoming),
     after [Write [0x11]; Write [0xEE]; Read 1 (sp_timeout s) [0x79];
            Write (_encode_addr addr); Read 1 (sp_timeout s) [0x79];
            Write [lng - 1; 256 - lng];
            Read 1 (sp_timeout s) [0x79];
            Read lng (sp_timeout s) (take (Z.to_nat lng) incoming)]
           (drop (Z.to_nat lng) incoming) s)
  /\ (length (take (Z.to_nat lng) incoming) <= Z.to_nat lng)%nat
  /\ ((length incoming < Z.to_nat lng)%nat ->
      take (Z.to_nat lng) incoming = incoming).
Proof.
  intros Hok Hrx Hlng.
  rewrite (cmdReadMemory_acked addr lng s incoming Hok Hrx) by lia.
  assert (HN : Z.land (lng - 1) 0xFF = lng - 1)
    by (rewrite land_0xFF; apply Z.mod_small; lia).
  rewrite HN, lxor_0xFF_complement by (apply is_byte_spec; lia).
  replace (255 - (lng - 1)) with (256 - lng) by lia.
  split; [reflexivity|]. split.
  - rewrite length_take. lia.
  - intros Hshort. apply take_ge. lia.
Qed.

Lemma cmdReadMemory_frame_witness :
  cmdReadMemory 0x08000000 4 (opened false [0x79; 0x79; 0x79; 7; 8] ∅)
  = (Returned [7; 8],
     after [Write [0x11]; Write [0xEE]; Read 1 5 [0x79];
            Write [0x08; 0x00; 0x00; 0x00; 0x08]; Read 1 5 [0x79];
            Write [3; 252]; Read 1 5 [0x79]; Read 4 5 [7; 8]]
           [] (opened false [0x79; 0x79; 0x79; 7; 8] ∅)).
Proof.
  exact (proj1 (cmdReadMemory_frame 0x08000000 4
                  (opened false [0x79; 0x79; 0x79; 7; 8] ∅) [7; 8]
                  eq_refl eq_refl ltac:(lia))).
Defined.

(** X10.  A read of zero bytes still issues one frame, and that frame
    carries the length byte 0xFF, the code for 256 bytes: the device is
    asked for 256 bytes, [readMemory] reads none of them and returns the
    empty result, and whatever the device sends stays in the input. *)
Theorem readMemory_zero_length (addr : Z) (s : state) (incoming : list Z) :
  sp_ok s = true -> sp_rx s = 0x79 :: 0x79 :: 0x79 :: incoming ->
  readMemory addr 0 s
  = (Returned [],
     after [Write [0x11]; Write [0xEE]; Read 1 (sp_timeout s) [0x79];
            Write (_encode_addr addr); Read 1 (sp_timeout s) [0x79];
            Write [0xFF; 0x00];
            Read 1 (sp_timeout s) [0x79];
            Read 0 (sp_timeout s) []]
           incoming s).
Proof.
  intros Hok Hrx. unfold readMemory.
  change (Z.to_nat 0) with 0%nat. cbn [readMemory_while].
  change (0 >? 256) with false. cbv iota. rewrite bind_ret_l. cbv beta iota.
  rewrite (bind_run _ _ _ _ _
             (cmdReadMemory_acked addr 0 s incoming Hok Hrx ltac:(lia))).
  reflexivity.
Qed.

Lemma readMemory_zero_length_witness :
  fst (readMemory 0x08000000 0 (opened false [0x79; 0x79; 0x79; 1; 2] ∅))
  = Returned []
  /\ sp_rx (snd (readMemory 0x08000000 0
                   (opened false [0x79; 0x79; 0x79; 1; 2] ∅)))
     = [1; 2].
Proof.
  rewrite (readMemory_zero_length 0x08000000
             (opened false [0x79; 0x79; 0x79; 1; 2] ∅) [1; 2]
             eq_refl eq_refl).
  split; reflexivity.
Defined.

(** X11.  [cmdGo] with both handshakes acknowledged writes the opcode pair
    0x21, 0xDE and the five-byte address block, and returns; nothing
    follows the second ACK. *)
Theorem cmdGo_frame (addr : Z) (s : state) (rest : list Z) :
  sp_ok s = true -> sp_rx s = 0x79 :: 0x79 :: rest ->
  cmdGo addr s
  = (Returned tt,
     after [Write [0x21]; Write [0xDE]; Read 1 (sp_timeout s) [0x79];
            Write (_encode_addr addr); Read 1 (sp_timeout s) [0x79]]
           rest s).
Proof.
  intros Hok Hrx. unfold cmdGo.
  run_by cmdGeneric_ack. change (truthy 1) with true. cbv iota.
  run_send; [|apply encode_addr_bytes].
  run_by wait_for_ask_ack.
  reflexivity.
Qed.

Lemma cmdGo_frame_witness :
  writes (sp_log (snd (cmdGo 0x08000000 (opened false [0x79; 0x79] ∅))))
  = [[0x21]; [0xDE]; [0x08; 0x00; 0x00; 0x00; 0x08]].
Proof.
  rewrite (cmdGo_frame 0x08000000 (opened false [0x79; 0x79] ∅) []
             eq_refl eq_refl).
  reflexivity.
Defined.

(* ===================================================================== *)
(** ** Further properties: capability negotiation *)
(* ===================================================================== *)

Lemma flag_stays_set_port_only {A} (m : M A) :
  port_only m -> flag_stays_set m.
Proof.
  intros H s Hs. destruct (H s) as (_ & Hflag & _). rewrite Hflag. exact Hs.
Qed.

Lemma flag_stays_set_bind {A B} (m : M A) (k : A -> M B) :
  flag_stays_set m -> (forall a, flag_stays_set (k a)) ->
  flag_stays_set (bind m k).
Proof.
  intros Hm Hk s Hs. unfold bind. specialize (Hm s Hs).
  destruct (m s) as [[a|e|] s']; cbn [snd] in *; try exact Hm.
  apply Hk, Hm.
Qed.

Lemma cmdGet_run (s : state) (n version : Z) (cmds rest : list Z) :
  sp_ok s = true ->
  sp_rx s = 0x79 :: n :: version :: cmds ++ 0x79 :: rest ->
  Z.of_nat (length cmds) = n ->
  exists s',
    cmdGet s = (Returned version, s')
    /\ extended_erase s' = extended_erase s || existsb (Z.eqb 0x44) cmds
    /\ sp_rx s' = rest
    /\ writes (sp_log s') = writes (sp_log s) ++ [[0x00]; [0xFF]].
Proof.
  intros Hok Hrx Hn. unfold cmdGet.
  run_by cmdGeneric_ack. change (truthy 1) with true. cbv iota.
  erewrite bind_run by (apply sp_read_run; norm_state; exact Hok).
  norm_state. change (Z.to_nat 1) with 1%nat. cbn [take drop].
  rewrite ?take_0, ?drop_0.
  unfold getitem at 1. cbn [lookup list_lookup]. rewrite bind_ret_l.
  erewrite bind_run by (apply sp_read_run; norm_state; exact Hok).
  norm_state. change (Z.to_nat 1) with 1%nat. cbn [take drop].
  rewrite ?take_0, ?drop_0.
  unfold getitem at 1. cbn [lookup list_lookup]. rewrite bind_ret_l.
  erewrite bind_run by (apply sp_read_run; norm_state; exact Hok).
  norm_state.
  replace (Z.to_nat n) with (length cmds) by lia.
  rewrite take_app_length, drop_app_length.
  destruct (existsb (Z.eqb 68) cmds) eqn:E.
  - unfold bind at 1. cbv beta iota.
    erewrite bind_run
      by (apply wait_for_ask_ack; [exact Hok|reflexivity]).
    eexists. split; [reflexivity|].
    split; [cbn; rewrite orb_true_r; reflexivity|].
    split; [reflexivity|].
    cbn [sp_log after with_log with_rx with_extended_erase].
    rewrite !writes_app. cbn. rewrite ?app_nil_r. reflexivity.
  - rewrite bind_ret_l.
    run_by wait_for_ask_ack.
    eexists. split; [reflexivity|].
    split; [cbn; rewrite orb_false_r; reflexivity|].
    split; [reflexivity|].
    rewrite sp_log_after, !writes_app. cbn. rewrite ?app_nil_r.
    reflexivity.
Qed.

(** X12.  [cmdGet] on a well-formed reply (ACK, a length byte [n], the
    version byte, [n] command bytes, ACK) sends only the opcode pair 0x00,
    0xFF, returns the version byte, consumes exactly that reply, and
    leaves [extended_erase] set if it was set before or if 0x44 is among
    the command bytes. *)
Theorem cmdGet_reply (s : state) (n version : Z) (cmds rest : list Z) :
  sp_ok s = true ->
  sp_rx s = 0x79 :: n :: version :: cmds ++ 0x79 :: rest ->
  Z.of_nat (length cmds) = n ->
  let s' := snd (cmdGet s) in
  fst (cmdGet s) = Returned version
  /\ extended_erase s' = extended_erase s || existsb (Z.eqb 0x44) cmds
  /\ sp_rx s' = rest
  /\ writes (sp_log s') = writes (sp_log s) ++ [[0x00]; [0xFF]].
Proof.
  intros Hok Hrx Hn. cbv zeta.
  destruct (cmdGet_run s n version cmds rest Hok Hrx Hn)
    as (s' & -> & H).
  exact (conj eq_refl H).
Qed.

Lemma cmdGet_reply_witness :
  let s := opened false [0x79; 2; 0x22; 0x31; 0x44; 0x79] ∅ in
  fst (cmdGet s) = Returned 0x22
  /\ extended_erase (snd (cmdGet s)) = true.
Proof.
  pose proof (cmdGet_reply (opened false [0x79; 2; 0x22; 0x31; 0x44; 0x79] ∅)
                2 0x22 [0x31; 0x44] [] eq_refl eq_refl eq_refl) as H.
  cbv zeta in H. destruct H as (Hv & Hflag & _).
  split; [exact Hv|exact Hflag].
Defined.

Lemma flag_stays_set_cmdGet : flag_stays_set cmdGet.
Proof.
  unfold cmdGet.
  apply flag_stays_set_bind;
    [apply flag_stays_set_port_only, port_only_cmdGeneric|intros r].
  destruct (truthy r);
    [|apply flag_stays_set_port_only, port_only_raise].
  apply flag_stays_set_bind;
    [apply flag_stays_set_port_only, port_only_sp_read|intros b].
  apply flag_stays_set_bind;
    [apply flag_stays_set_port_only, port_only_getitem|intros len].
  apply flag_stays_set_bind;
    [apply flag_stays_set_port_only, port_only_sp_read|intros b'].
  apply flag_stays_set_bind;
    [apply flag_stays_set_port_only, port_only_getitem|intros version].
  apply flag_stays_set_bind;
    [apply flag_stays_set_port_only, port_only_sp_read|intros dat].
  apply flag_stays_set_bind; [|intros _].
  { destruct (existsb (Z.eqb 68) dat);
      [intros s _; reflexivity
      |apply flag_stays_set_port_only, port_only_ret]. }
  apply flag_stays_set_bind;
    [apply flag_stays_set_port_only, port_only_wait_for_ask|intros _].
  apply flag_stays_set_port_only, port_only_ret.
Qed.

(** X13.  [cmdGet] only ever sets the session flag: a session that has
    [extended_erase] set keeps it set through any later [cmdGet], whatever
    the device answers, and the read, write, go and erase commands do not
    change the flag at all. *)
Theorem extended_erase_never_cleared :
  flag_stays_set cmdGet
  /\ (forall addr lng, port_only (cmdReadMemory addr lng))
  /\ (forall addr data, port_only (cmdWriteMemory addr data))
  /\ (forall sectors, port_only (cmdEraseMemory sectors))
  /\ (forall addr s,
        extended_erase (snd (cmdGo addr s)) = extended_erase s).
Proof.
  split.
  - apply flag_stays_set_cmdGet.
  - split; [intros; apply port_only_cmdReadMemory|].
    split; [intros; apply port_only_cmdWriteMemory|].
    split; [intros; apply port_only_cmdEraseMemory|].
    intros addr s.
    assert (H : port_only (cmdGo addr))
      by (unfold cmdGo; port_only_body).
    apply H.
Qed.

(* ===================================================================== *)
(** ** The erase variant over a session *)
(* ===================================================================== *)

(** C6, as the code has it.  With the generic frame acknowledged, a
    global erase request (no sector list) goes out as opcode 0x43 with
    payload [0xFF, 0x00] when [extended_erase] is false at the time of the
    call, and as opcode 0x44 with payload [0xFF, 0xFF, 0x00] when it is
    true: the flag, as it stands at the call, alone selects the variant.
    No erase call, with or without sectors, changes the flag.  [cmdGet]
    does: it never clears the flag, and on a well-formed reply it sets it
    exactly when 0x44 is among the commands listed; so erase requests with
    no such [cmdGet] between them use one encoding, and neither an erase
    nor a [cmdGet] takes a session back from the extended encoding to the
    legacy one. *)
Theorem global_erase_encoding (s : state) (rest : list Z) :
  sp_ok s = true -> sp_rx s = 0x79 :: rest ->
  sp_log (snd (cmdEraseMemory None s))
  = sp_log s ++
    (if extended_erase s then
       [Write [0x44]; Write [0xBB]; Read 1 (sp_timeout s) [0x79];
        Write [0xFF]; Write [0xFF]; Write [0x00];
        Read 1 30 (take 1 rest)]
     else
       [Write [0x43]; Write [0xBC]; Read 1 (sp_timeout s) [0x79];
        Write [0xFF]; Write [0x00];
        Read 1 (sp_timeout s) (take 1 rest)])
  /\ (forall sectors s0,
        extended_erase (snd (cmdEraseMemory sectors s0)) = extended_erase s0)
  /\ (forall s0,
        extended_erase s0 = true -> extended_erase (snd (cmdGet s0)) = true)
  /\ (forall s0 n version cmds rest0,
        sp_ok s0 = true ->
        sp_rx s0 = 0x79 :: n :: version :: cmds ++ 0x79 :: rest0 ->
        Z.of_nat (length cmds) = n ->
        extended_erase (snd (cmdGet s0))
        = extended_erase s0 || existsb (Z.eqb 0x44) cmds).
Proof.
  intros Hok Hrx.
  split; [apply global_erase_log; assumption|].
  split; [intros sectors s0; apply port_only_cmdEraseMemory|].
  split; [exact flag_stays_set_cmdGet|].
  intros s0 n version cmds rest0 Hok0 Hrx0 Hn.
  destruct (cmdGet_run s0 n version cmds rest0 Hok0 Hrx0 Hn)
    as (s' & Hrun & Hflag & _).
  rewrite Hrun. exact Hflag.
Qed.

Lemma global_erase_encoding_witness :
  writes (sp_log (snd (cmdEraseMemory None (opened false [0x79; 0x79] ∅))))
  = [[0x43]; [0xBC]; [0xFF]; [0x00]]
  /\ writes (sp_log (snd (cmdEraseMemory None (opened true [0x79; 0x79] ∅))))
     = [[0x44]; [0xBB]; [0xFF]; [0xFF]; [0x00]].
Proof.
  split.
  - rewrite (proj1 (global_erase_encoding
                      (opened false [0x79; 0x79] ∅) [0x79] eq_refl eq_refl)).
    reflexivity.
  - rewrite (proj1 (global_erase_encoding
                      (opened true [0x79; 0x79] ∅) [0x79] eq_refl eq_refl)).
    reflexivity.
Defined.

(** C6 as worded fails: the flag is not fixed for a session.  On one
    object, a global erase, then a [cmdGet] whose reply lists 0x44, then a
    second global erase all return, and the first erase has gone out in
    the legacy encoding and the second in the extended one. *)
Lemma erase_encodings_mixed_in_one_session :
  let session := cmdEraseMemory None ;;; cmdGet ;;; cmdEraseMemory None in
  fst (session erase_get_erase) = Returned tt
  /\ writes (sp_log (snd (session erase_get_erase)))
     = [[0x43]; [0xBC]; [0xFF]; [0x00]]
       ++ [[0x00]; [0xFF]]
       ++ [[0x44]; [0xBB]; [0xFF]; [0xFF]; [0x00]]
  /\ ~ Spec.one_erase_encoding (writes (sp_log (snd (session erase_get_erase)))).
Proof.
  cbv zeta.
  assert (E : writes (sp_log (snd ((cmdEraseMemory None ;;; cmdGet ;;;
                                    cmdEraseMemory None) erase_get_erase)))
              = [[0x43]; [0xBC]; [0xFF]; [0x00]]
                ++ [[0x00]; [0xFF]]
                ++ [[0x44]; [0xBB]; [0xFF]; [0xFF]; [0x00]])
    by (vm_compute; reflexivity).
  split; [vm_compute; reflexivity|]. split; [exact E|].
  rewrite E. unfold Spec.one_erase_encoding. intros H. apply H.
  split; cbn; tauto.
Qed.

(** X14.  When the device acknowledges the Get frame and then falls
    silent, [cmdGet] does not raise the module's [CmdException]: the
    length byte (or, if that came, the version byte) is indexed outside
    the [try], and the call ends in [IndexError]. *)
Theorem cmdGet_silence_is_IndexError (s : state) (tail : list Z) :
  sp_ok s = true ->
  sp_rx s = 0x79 :: tail ->
  (length tail < 2)%nat ->
  fst (cmdGet s) = Raised IndexError.
Proof.
  intros Hok Hrx Hlen. unfold cmdGet.
  run_by cmdGeneric_ack. change (truthy 1) with true. cbv iota.
  erewrite bind_run by (apply sp_read_run; norm_state; exact Hok).
  norm_state. change (Z.to_nat 1) with 1%nat.
  destruct tail as [|n tail]; [reflexivity|].
  cbn [take drop]. unfold getitem at 1. cbn [lookup list_lookup].
  rewrite bind_ret_l.
  erewrite bind_run by (apply sp_read_run; norm_state; exact Hok).
  norm_state. change (Z.to_nat 1) with 1%nat.
  destruct tail as [|v tail]; [reflexivity|].
  cbn [length] in Hlen. lia.
Qed.

Lemma cmdGet_silence_is_IndexError_witness :
  fst (cmdGet (opened false [0x79] ∅)) = Raised IndexError.
Proof.
  apply (cmdGet_silence_is_IndexError (opened false [0x79] ∅) []);
    [reflexivity|reflexivity|cbn; lia].
Defined.

(* ===================================================================== *)
(** ** Further properties: erase and protection *)
(* ===================================================================== *)

Lemma cast_two_bytes_run v s :
  is_u16 v = true -> _cast_to_two_bytes v s = (Returned (two_bytes v), s).
Proof.
  intros H. unfold _cast_to_two_bytes, bytearray, two_bytes.
  rewrite two_bytes_check, H, shiftr_8, land_0xFF. reflexivity.
Qed.

Lemma two_bytes_are_bytes v :
  is_u16 v = true -> forallb is_byte (two_bytes v) = true.
Proof.
  intros H. rewrite <- two_bytes_check in H.
  rewrite shiftr_8, land_0xFF in H. exact H.
Qed.

Lemma pages_are_bytes sectors :
  forallb is_u16 sectors = true ->
  forallb is_byte (concat (map two_bytes sectors)) = true.
Proof.
  induction sectors as [|c l IH]; intros H; [reflexivity|].
  cbn [forallb] in H. apply andb_true_iff in H as [Hc Hl].
  cbn [map concat]. rewrite forallb_app, two_bytes_are_bytes, IH by assumption.
  reflexivity.
Qed.

Lemma for_xor_write_pages_run sectors : forall crc s,
  sp_ok s = true -> forallb is_u16 sectors = true ->
  for_xor_write_pages sectors crc s
  = (Returned (foldl Z.lxor crc (concat (map two_bytes sectors))),
     after (map (fun c => Write (two_bytes c)) sectors) (sp_rx s) s).
Proof.
  induction sectors as [|c l IH]; intros crc s Hok H.
  - cbn [for_xor_write_pages map concat foldl]. rewrite after_nil.
    reflexivity.
  - cbn [forallb] in H. apply andb_true_iff in H as [Hc Hl].
    cbn [for_xor_write_pages].
    rewrite (bind_run _ _ _ _ _ (cast_two_bytes_run c s Hc)).
    unfold two_bytes at 1 2. unfold getitem. cbn [lookup list_lookup].
    rewrite !bind_ret_l.
    run_by sp_write_run.
    rewrite IH; [|exact Hok|exact Hl].
    norm_state. cbn [map concat two_bytes app foldl]. reflexivity.
Qed.

Lemma extended_sector_erase_run (sectors : list Z) (s : state)
      (rest : list Z) :
  sp_ok s = true -> sp_rx s = 0x79 :: 0x79 :: rest ->
  is_u16 (Z.of_nat (length sectors) - 1) = true ->
  forallb is_u16 sectors = true ->
  cmdExtendedEraseMemory (Some sectors) s
  = (Returned tt,
     after ([Write [0x44]; Write [0xBB]; Read 1 (sp_timeout s) [0x79];
             Write (two_bytes (Z.of_nat (length sectors) - 1))]
            ++ map (fun c => Write (two_bytes c)) sectors
            ++ [Write [Spec.checksum 0
                         (two_bytes (Z.of_nat (length sectors) - 1)
                          ++ concat (map two_bytes sectors))];
                Read 1 (sp_timeout s) [0x79]]) rest s).
Proof.
  intros Hok Hrx Hn Hb. unfold cmdExtendedEraseMemory.
  run_by cmdGeneric_ack. change (truthy 1) with true. cbv iota.
  erewrite bind_run by (apply cast_two_bytes_run; exact Hn).
  unfold two_bytes at 1 2. unfold getitem. cbn [lookup list_lookup].
  rewrite !bind_ret_l.
  run_by sp_write_run.
  run_by for_xor_write_pages_run.
  assert (Hcrc : Z.lxor (Z.lxor 0 ((Z.of_nat (length sectors) - 1) / 256))
                        ((Z.of_nat (length sectors) - 1) mod 256)
                 = foldl Z.lxor 0 (two_bytes (Z.of_nat (length sectors) - 1)))
    by reflexivity.
  rewrite Hcrc, <- foldl_app.
  fold (Spec.checksum 0 (two_bytes (Z.of_nat (length sectors) - 1)
                         ++ concat (map two_bytes sectors))).
  run_send.
  2:{ cbn [forallb]. rewrite andb_true_r. unfold Spec.checksum.
      apply foldl_lxor_byte; [reflexivity|].
      rewrite forallb_app, two_bytes_are_bytes, pages_are_bytes by assumption.
      reflexivity. }
  run_by wait_for_ask_ack.
  unfold ret. rewrite <- !app_assoc. reflexivity.
Qed.

(** X15.  The extended sector erase on the wire, every handshake
    acknowledged: opcode pair 0x44, 0xBB; the count [n - 1] as two bytes,
    most significant first; every sector index as two bytes, most
    significant first; then one checksum byte, the XOR of all those
    bytes.  It holds for 1 to 65536 sectors with 16-bit indices, and this
    branch leaves the port's timeout alone. *)
Theorem extended_sector_erase_encoding (sectors : list Z) (s : state)
        (rest : list Z) :
  sp_ok s = true -> sp_rx s = 0x79 :: 0x79 :: rest ->
  is_u16 (Z.of_nat (length sectors) - 1) = true ->
  forallb is_u16 sectors = true ->
  let n1 := Z.of_nat (length sectors) - 1 in
  cmdExtendedEraseMemory (Some sectors) s
  = (Returned tt,
     after ([Write [0x44]; Write [0xBB]; Read 1 (sp_timeout s) [0x79];
             Write [n1 / 256; n1 mod 256]]
            ++ map (fun c => Write [c / 256; c mod 256]) sectors
            ++ [Write [Spec.checksum 0
                         ([n1 / 256; n1 mod 256]
                          ++ concat (map two_bytes sectors))];
                Read 1 (sp_timeout s) [0x79]]) rest s)
  /\ sp_timeout (snd (cmdExtendedEraseMemory (Some sectors) s))
     = sp_timeout s.
Proof.
  intros Hok Hrx Hn Hb n1.
  rewrite (extended_sector_erase_run sectors s rest Hok Hrx Hn Hb).
  split; reflexivity.
Qed.

Lemma extended_sector_erase_encoding_witness :
  writes (sp_log (snd (cmdExtendedEraseMemory (Some [2; 5])
                         (opened true [0x79; 0x79] ∅))))
  = [[0x44]; [0xBB]; [0x00; 0x01]; [0x00; 0x02]; [0x00; 0x05]; [0x06]].
Proof.
  rewrite (proj1 (extended_sector_erase_encoding [2; 5]
                    (opened true [0x79; 0x79] ∅) []
                    eq_refl eq_refl eq_refl eq_refl)).
  reflexivity.
Defined.

(** X16.  An empty sector list is not a no-op.  With the opcode
    acknowledged, the extended variant raises [ValueError] when it encodes
    the count -1, leaving the device with an accepted opcode and no
    payload; the legacy variant sends the count byte 0xFF, which is the
    code of a global erase, followed by the byte 0xFF. *)
Theorem erase_empty_sector_list (s : state) (rest : list Z) :
  sp_ok s = true -> sp_rx s = 0x79 :: 0x79 :: rest ->
  cmdEraseMemory (Some []) s
  = if extended_erase s then
      (Raised ValueError,
       after [Write [0x44]; Write [0xBB]; Read 1 (sp_timeout s) [0x79]]
             (0x79 :: rest) s)
    else
      (Returned tt,
       after [Write [0x43]; Write [0xBC]; Read 1 (sp_timeout s) [0x79];
              Write [0xFF]; Write [0xFF]; Read 1 (sp_timeout s) [0x79]]
             rest s).
Proof.
  intros Hok Hrx. unfold cmdEraseMemory. destruct (extended_erase s).
  - unfold cmdExtendedEraseMemory.
    run_by cmdGeneric_ack. change (truthy 1) with true. cbv iota.
    reflexivity.
  - run_by cmdGeneric_ack. change (truthy 1) with true. cbv iota.
    run_send; [|reflexivity].
    cbn [for_xor_write]. rewrite ?bind_assoc, bind_ret_l.
    run_send; [|reflexivity].
    rewrite bind_ret_l.
    run_by wait_for_ask_ack.
    reflexivity.
Qed.

Lemma erase_empty_sector_list_witness :
  fst (cmdEraseMemory (Some []) (opened true [0x79; 0x79] ∅))
  = Raised ValueError
  /\ writes (sp_log (snd (cmdEraseMemory (Some [])
                            (opened false [0x79; 0x79] ∅))))
     = [[0x43]; [0xBC]; [0xFF]; [0xFF]].
Proof.
  split.
  - rewrite (erase_empty_sector_list (opened true [0x79; 0x79] ∅) []
               eq_refl eq_refl).
    reflexivity.
  - rewrite (erase_empty_sector_list (opened false [0x79; 0x79] ∅) []
               eq_refl eq_refl).
    reflexivity.
Defined.

Lemma legacy_sector_erase_run (sectors : list Z) (s : state) (rest : list Z) :
  extended_erase s = false ->
  sp_ok s = true -> sp_rx s = 0x79 :: 0x79 :: rest ->
  forallb is_byte sectors = true ->
  cmdEraseMemory (Some sectors) s
  = (Returned tt,
     after ([Write [0x43]; Write [0xBC]; Read 1 (sp_timeout s) [0x79];
             Write [Z.land (Z.of_nat (length sectors) - 1) 0xFF]]
            ++ map (fun c => Write [c]) sectors
            ++ [Write [foldl Z.lxor 0xFF sectors];
                Read 1 (sp_timeout s) [0x79]]) rest s).
Proof.
  intros Hext Hok Hrx Hb. unfold cmdEraseMemory. rewrite Hext.
  run_by cmdGeneric_ack. change (truthy 1) with true. cbv iota.
  run_send; [|cbn [forallb]; rewrite is_byte_land; reflexivity].
  rewrite ?bind_assoc. run_by for_xor_write_run.
  run_send;
    [|cbn [forallb]; rewrite andb_true_r;
      apply foldl_lxor_byte; [reflexivity|exact Hb]].
  rewrite bind_ret_l.
  run_by wait_for_ask_ack.
  unfold ret. rewrite <- !app_assoc. reflexivity.
Qed.

Lemma cmdWriteProtect_run (sectors : list Z) (s : state) (rest : list Z) :
  sp_ok s = true -> sp_rx s = 0x79 :: 0x79 :: rest ->
  forallb is_byte sectors = true ->
  cmdWriteProtect sectors s
  = (Returned tt,
     after ([Write [0x63]; Write [0x9C]; Read 1 (sp_timeout s) [0x79];
             Write [Z.land (Z.of_nat (length sectors) - 1) 0xFF]]
            ++ map (fun c => Write [c]) sectors
            ++ [Write [foldl Z.lxor 0xFF sectors];
                Read 1 (sp_timeout s) [0x79]]) rest s).
Proof.
  intros Hok Hrx Hb. unfold cmdWriteProtect.
  run_by cmdGeneric_ack. change (truthy 1) with true. cbv iota.
  run_send; [|cbn [forallb]; rewrite is_byte_land; reflexivity].
  run_by for_xor_write_run.
  run_send;
    [|cbn [forallb]; rewrite andb_true_r;
      apply foldl_lxor_byte; [reflexivity|exact Hb]].
  run_by wait_for_ask_ack.
  unfold ret. rewrite <- !app_assoc. reflexivity.
Qed.

(** X17.  [cmdWriteProtect] and the legacy sector erase share one payload
    format.  For the same list of sector bytes, both handshakes
    acknowledged, both return, and what [cmdWriteProtect] writes after its
    opcode pair 0x63, 0x9C is byte for byte what the legacy erase writes
    after its pair 0x43, 0xBC: the count byte, one byte per sector and the
    closing byte. *)
Theorem write_protect_payload_as_legacy_erase
        (sectors : list Z) (s : state) (rest : list Z) :
  extended_erase s = false ->
  sp_ok s = true -> sp_rx s = 0x79 :: 0x79 :: rest ->
  forallb is_byte sectors = true ->
  let protect := writes (sp_log (snd (cmdWriteProtect sectors s))) in
  let erase := writes (sp_log (snd (cmdEraseMemory (Some sectors) s))) in
  fst (cmdWriteProtect sectors s) = Returned tt
  /\ fst (cmdEraseMemory (Some sectors) s) = Returned tt
  /\ protect
     = writes (sp_log s) ++ [[0x63]; [0x9C]]
       ++ [Z.land (Z.of_nat (length sectors) - 1) 0xFF]
          :: map (fun c => [c]) sectors ++ [[foldl Z.lxor 0xFF sectors]]
  /\ drop (length (writes (sp_log s)) + 2) protect
     = drop (length (writes (sp_log s)) + 2) erase.
Proof.
  intros Hext Hok Hrx Hb. cbv zeta.
  rewrite (cmdWriteProtect_run sectors s rest Hok Hrx Hb).
  rewrite (legacy_sector_erase_run sectors s rest Hext Hok Hrx Hb).
  cbn [fst snd]. rewrite !sp_log_after, !(writes_app (sp_log s)).
  assert (Hw : forall l : list Z,
            writes (map (fun c => Write [c]) l) = map (fun c => [c]) l).
  { induction l as [|c l IH]; [reflexivity|].
    cbn. f_equal. exact IH. }
  assert (Hsplit : forall op cop,
            writes ([Write [op]; Write [cop]; Read 1 (sp_timeout s) [121];
                     Write [Z.land (Z.of_nat (length sectors) - 1) 255]]
                    ++ map (fun c => Write [c]) sectors
                    ++ [Write [foldl Z.lxor 255 sectors];
                        Read 1 (sp_timeout s) [121]])
            = [[op]; [cop]]
              ++ [Z.land (Z.of_nat (length sectors) - 1) 255]
                 :: map (fun c => [c]) sectors
                 ++ [[foldl Z.lxor 255 sectors]]).
  { intros op cop. rewrite !writes_app, Hw. reflexivity. }
  rewrite !Hsplit.
  split; [reflexivity|]. split; [reflexivity|]. split; [reflexivity|].
  rewrite <- !drop_drop, !drop_app_length. reflexivity.
Qed.

Lemma write_protect_payload_as_legacy_erase_witness :
  writes (sp_log (snd (cmdWriteProtect [0; 1] (opened false [0x79; 0x79] ∅))))
  = [[0x63]; [0x9C]; [0x01]; [0x00]; [0x01]; [0xFE]].
Proof.
  pose proof (write_protect_payload_as_legacy_erase [0; 1]
                (opened false [0x79; 0x79] ∅) []
                eq_refl eq_refl eq_refl eq_refl) as H.
  cbv zeta in H. destruct H as (_ & _ & H & _).
  rewrite H. reflexivity.
Defined.

(** A command that is its opcode pair and two more handshake waits. *)
Lemma two_ack_run (cmd : Z) (info1 info2 fail : string) (s : state)
      (rest : list Z) :
  is_byte cmd = true ->
  sp_ok s = true -> sp_rx s = 0x79 :: 0x79 :: 0x79 :: rest ->
  (r <- cmdGeneric cmd ;;
   if truthy r then
     _wait_for_ask info1 ;;; _wait_for_ask info2 ;;; ret tt
   else raise (CmdException fail)) s
  = (Returned tt,
     after [Write [cmd]; Write [Z.lxor cmd 0xFF];
            Read 1 (sp_timeout s) [0x79]; Read 1 (sp_timeout s) [0x79];
            Read 1 (sp_timeout s) [0x79]] rest s).
Proof.
  intros Hc Hok Hrx.
  run_by cmdGeneric_ack. change (truthy 1) with true. cbv iota.
  run_by wait_for_ask_ack.
  run_by wait_for_ask_ack.
  reflexivity.
Qed.

(** X18.  The three protection-state commands ([cmdWriteUnprotect],
    [cmdReadoutProtect], [cmdReadoutUnprotect]) send nothing but their
    opcode pair (0x73/0x8C, 0x82/0x7D, 0x92/0x6D) and return once three
    ACK bytes have come: one for the opcode and two confirmations. *)
Theorem protection_commands_take_three_acks (s : state) (rest : list Z) :
  sp_ok s = true -> sp_rx s = 0x79 :: 0x79 :: 0x79 :: rest ->
  let acks := [Read 1 (sp_timeout s) [0x79]; Read 1 (sp_timeout s) [0x79];
               Read 1 (sp_timeout s) [0x79]] in
  cmdWriteUnprotect s
  = (Returned tt, after ([Write [0x73]; Write [0x8C]] ++ acks) rest s)
  /\ cmdReadoutProtect s
     = (Returned tt, after ([Write [0x82]; Write [0x7D]] ++ acks) rest s)
  /\ cmdReadoutUnprotect s
     = (Returned tt, after ([Write [0x92]; Write [0x6D]] ++ acks) rest s).
Proof.
  intros Hok Hrx acks. subst acks.
  unfold cmdWriteUnprotect, cmdReadoutProtect, cmdReadoutUnprotect.
  rewrite !(two_ack_run _ _ _ _ s rest) by (reflexivity || assumption).
  repeat split.
Qed.

Lemma protection_commands_take_three_acks_witness :
  cmdWriteUnprotect (opened false [0x79; 0x79; 0x79] ∅)
  = (Returned tt,
     after [Write [0x73]; Write [0x8C]; Read 1 5 [0x79]; Read 1 5 [0x79];
            Read 1 5 [0x79]] [] (opened false [0x79; 0x79; 0x79] ∅)).
Proof.
  exact (proj1 (protection_commands_take_three_acks
                  (opened false [0x79; 0x79; 0x79] ∅) [] eq_refl eq_refl)).
Defined.

Lemma two_ack_second_missing (cmd : Z) (info1 info2 fail : string)
      (s : state) (tail : list Z) :
  is_byte cmd = true ->
  sp_ok s = true -> sp_rx s = 0x79 :: 0x79 :: tail ->
  head tail <> Some 0x79 ->
  exists msg,
    (r <- cmdGeneric cmd ;;
     if truthy r then
       _wait_for_ask info1 ;;; _wait_for_ask info2 ;;; ret tt
     else raise (CmdException fail)) s
    = (Raised (CmdException msg),
       after [Write [cmd]; Write [Z.lxor cmd 0xFF];
              Read 1 (sp_timeout s) [0x79]; Read 1 (sp_timeout s) [0x79];
              Read 1 (sp_timeout s) (take 1 tail)] (drop 1 tail) s).
Proof.
  intros Hc Hok Hrx Hne.
  run_by cmdGeneric_ack. change (truthy 1) with true. cbv iota.
  run_by wait_for_ask_ack.
  unfold bind at 1. rewrite wait_for_ask_unfold. norm_state. rewrite Hok.
  destruct tail as [|b tail].
  - eexists. norm_state. reflexivity.
  - cbn [head] in Hne.
    destruct (Z.eqb_spec b 121) as [->|_]; [contradiction|].
    destruct (b =? 31); eexists; norm_state; reflexivity.
Qed.

(** X19.  The first confirmation alone is not enough.  When the opcode
    and the first confirmation are acknowledged but the second
    confirmation is not an ACK (NACK, another byte, or nothing in time),
    each protection-state command raises [CmdException]. *)
Theorem protection_commands_second_ack_missing (s : state) (tail : list Z) :
  sp_ok s = true -> sp_rx s = 0x79 :: 0x79 :: tail ->
  head tail <> Some 0x79 ->
  (exists msg, fst (cmdWriteUnprotect s) = Raised (CmdException msg))
  /\ (exists msg, fst (cmdReadoutProtect s) = Raised (CmdException msg))
  /\ (exists msg, fst (cmdReadoutUnprotect s) = Raised (CmdException msg)).
Proof.
  intros Hok Hrx Hne.
  unfold cmdWriteUnprotect, cmdReadoutProtect, cmdReadoutUnprotect.
  repeat split.
  - destruct (two_ack_second_missing 0x73 "0x73 write unprotect failed"
                "0x73 write unprotect 2 failed"
                "Write Unprotect (0x73) failed" s tail
                eq_refl Hok Hrx Hne) as [msg ->].
    exists msg. reflexivity.
  - destruct (two_ack_second_missing 0x82 "0x82 readout protect failed"
                "0x82 readout protect 2 failed"
                "Readout protect (0x82) failed" s tail
                eq_refl Hok Hrx Hne) as [msg ->].
    exists msg. reflexivity.
  - destruct (two_ack_second_missing 0x92 "0x92 readout unprotect failed"
                "0x92 readout unprotect 2 failed"
                "Readout unprotect (0x92) failed" s tail
                eq_refl Hok Hrx Hne) as [msg ->].
    exists msg. reflexivity.
Qed.

Lemma protection_commands_second_ack_missing_witness :
  fst (cmdWriteUnprotect (opened false [0x79; 0x79; 0x1F] ∅))
  = Raised (CmdException "NACK 0x73 write unprotect 2 failed").
Proof.
  destruct (protection_commands_second_ack_missing
              (opened false [0x79; 0x79; 0x1F] ∅) [0x1F]
              eq_refl eq_refl ltac:(discriminate)) as [[msg H] _].
  rewrite H. vm_compute in H. injection H as H. rewrite H. reflexivity.
Defined.

Lemma restore_timeout evs1 rx1 t evs2 rx2 s :
  with_timeout (sp_timeout s)
    (after evs2 rx2 (with_timeout t (after evs1 rx1 s)))
  = after (evs1 ++ evs2) rx2 s.
Proof.
  destruct s. unfold after, with_log, with_rx, with_timeout.
  cbn [sp_log sp_rx sp_ok sp_timeout heap extended_erase
       _boot0 _rst _dtr_pol _rts_pol].
  rewrite app_assoc. reflexivity.
Qed.

(** X20.  A successful extended mass erase.  With the opcode and the
    erase acknowledged, [cmdExtendedEraseMemory] (no sector list) writes
    0x44, 0xBB, then 0xFF, 0xFF, 0x00, waits for the final ACK under the
    30 s timeout, and returns with the timeout back at its old value and
    nothing else of the port changed. *)
Theorem extended_mass_erase_acknowledged (s : state) (rest : list Z) :
  sp_ok s = true -> sp_rx s = 0x79 :: 0x79 :: rest ->
  cmdExtendedEraseMemory None s
  = (Returned tt,
     after [Write [0x44]; Write [0xBB]; Read 1 (sp_timeout s) [0x79];
            Write [0xFF]; Write [0xFF]; Write [0x00];
            Read 1 30 [0x79]] rest s)
  /\ sp_timeout (snd (cmdExtendedEraseMemory None s)) = sp_timeout s.
Proof.
  intros Hok Hrx.
  assert (Hrun : cmdExtendedEraseMemory None s
                 = (Returned tt,
                    after [Write [0x44]; Write [0xBB];
                           Read 1 (sp_timeout s) [0x79];
                           Write [0xFF]; Write [0xFF]; Write [0x00];
                           Read 1 30 [0x79]] rest s)).
  { unfold cmdExtendedEraseMemory.
    run_by cmdGeneric_ack. change (truthy 1) with true. cbv iota.
    do 3 (run_send; [|reflexivity]).
    unfold sp_get_timeout at 1. unfold bind at 1. cbv beta iota.
    unfold sp_set_timeout at 1. unfold bind at 1. cbv beta iota.
    erewrite bind_run
      by (apply wait_for_ask_ack; [exact Hok|reflexivity]).
    unfold sp_set_timeout. cbn [sp_timeout with_timeout].
    rewrite sp_timeout_after, restore_timeout. reflexivity. }
  rewrite Hrun. split; reflexivity.
Qed.

Lemma extended_mass_erase_acknowledged_witness :
  cmdExtendedEraseMemory None (opened true [0x79; 0x79] ∅)
  = (Returned tt,
     after [Write [0x44]; Write [0xBB]; Read 1 5 [0x79];
            Write [0xFF]; Write [0xFF]; Write [0x00];
            Read 1 30 [0x79]] [] (opened true [0x79; 0x79] ∅)).
Proof.
  exact (proj1 (extended_mass_erase_acknowledged
                  (opened true [0x79; 0x79] ∅) [] eq_refl eq_refl)).
Defined.

(* ===================================================================== *)
(** ** Further properties: the connection *)
(* ===================================================================== *)

Lemma is_line_name_spec name :
  is_line_name name = true <-> name = "RTS"%string \/ name = "DTR"%string.
Proof.
  unfold is_line_name. rewrite orb_true_iff, !String.eqb_eq. reflexivity.
Qed.

(** X21.  [open] on a port that can be had accepts exactly the wirings
    whose upper-cased names are RTS and DTR, one each; everything else
    (the same line twice, an unknown name) raises [ValueError].  For ASCII
    names, where [str.upper] only raises the letters a to z, that is: the
    names are RTS and DTR in either letter case.  An accepted [open]
    leaves [boot0] and [rst] on different lines, on the lines named, both
    polarities not inverted, and the read timeout at 5 s. *)
Theorem open_accepts_two_distinct_lines `{StrUpper}
        (aport : string) (abaudrate : Z) (boot0 rst : string) (s : state) :
  sp_ok s = true ->
  let res := open aport abaudrate boot0 rst s in
  (fst res = Returned tt <->
   (str_upper boot0 = "RTS"%string /\ str_upper rst = "DTR"%string)
   \/ (str_upper boot0 = "DTR"%string /\ str_upper rst = "RTS"%string))
  /\ (is_ascii boot0 = true -> is_ascii rst = true ->
      (fst res = Returned tt <->
       (upper boot0 = "RTS"%string /\ upper rst = "DTR"%string)
       \/ (upper boot0 = "DTR"%string /\ upper rst = "RTS"%string)))
  /\ (fst res = Returned tt \/ fst res = Raised ValueError)
  /\ (fst res = Returned tt ->
      _boot0 (snd res) <> _rst (snd res)
      /\ (_boot0 (snd res) = RTS <-> str_upper boot0 = "RTS"%string)
      /\ _dtr_pol (snd res) = false /\ _rts_pol (snd res) = false
      /\ sp_timeout (snd res) = 5).
Proof.
  intros Hok. cbv zeta.
  assert (Hmain :
    (fst (open aport abaudrate boot0 rst s) = Returned tt <->
     (str_upper boot0 = "RTS"%string /\ str_upper rst = "DTR"%string)
     \/ (str_upper boot0 = "DTR"%string /\ str_upper rst = "RTS"%string))
    /\ (fst (open aport abaudrate boot0 rst s) = Returned tt
        \/ fst (open aport abaudrate boot0 rst s) = Raised ValueError)
    /\ (fst (open aport abaudrate boot0 rst s) = Returned tt ->
        _boot0 (snd (open aport abaudrate boot0 rst s))
        <> _rst (snd (open aport abaudrate boot0 rst s))
        /\ (_boot0 (snd (open aport abaudrate boot0 rst s)) = RTS
            <-> str_upper boot0 = "RTS"%string)
        /\ _dtr_pol (snd (open aport abaudrate boot0 rst s)) = false
        /\ _rts_pol (snd (open aport abaudrate boot0 rst s)) = false
        /\ sp_timeout (snd (open aport abaudrate boot0 rst s)) = 5)).
  { unfold open. rewrite Hok.
    generalize (str_upper boot0) (str_upper rst). intros b r.
    destruct (String.eqb_spec b r) as [Heq|Hne].
    { cbn [fst snd]. split; [|split; [right; reflexivity|discriminate]].
      split; [discriminate|].
      intros [[Hb Hr]|[Hb Hr]]; rewrite Hb, Hr in Heq; discriminate. }
    destruct (is_line_name b) eqn:Eb; cbn [negb orb].
    - destruct (is_line_name r) eqn:Er; cbn [negb].
      + apply is_line_name_spec in Eb, Er. cbn [fst snd].
        destruct Eb as [->| ->], Er as [->| ->]; try contradiction.
        * split; [split; [left; split; reflexivity|reflexivity]|].
          split; [left; reflexivity|]. intros _.
          cbn. repeat split; discriminate.
        * split; [split; [right; split; reflexivity|reflexivity]|].
          split; [left; reflexivity|]. intros _.
          cbn. repeat split; discriminate.
      + cbn [fst snd]. split; [|split; [right; reflexivity|discriminate]].
        split; [discriminate|].
        intros [[_ Hr]|[_ Hr]]; rewrite Hr in Er; discriminate.
    - cbn [fst snd]. split; [|split; [right; reflexivity|discriminate]].
      split; [discriminate|].
      intros [[Hb _]|[Hb _]]; rewrite Hb in Eb; discriminate. }
  destruct Hmain as (Hiff & Hres & Hacc).
  split; [exact Hiff|]. split; [|split; [exact Hres|exact Hacc]].
  intros Hb Hr.
  rewrite <- (str_upper_ascii boot0 Hb), <- (str_upper_ascii rst Hr).
  exact Hiff.
Qed.

Lemma open_accepts_two_distinct_lines_witness :
  fst (@open ascii_upper "/dev/ttyUSB0" 115200 "dtr" "Rts"
             (opened false [] ∅))
  = Returned tt
  /\ fst (@open ascii_upper "/dev/ttyUSB0" 115200 "rts" "RTS"
               (opened false [] ∅))
     = Raised ValueError.
Proof.
  split.
  - apply (proj1 (proj2 (@open_accepts_two_distinct_lines ascii_upper
                           "/dev/ttyUSB0" 115200 "dtr" "Rts"
                           (opened false [] ∅) eq_refl))
                 eq_refl eq_refl).
    right. split; reflexivity.
  - destruct (proj1 (proj2 (proj2 (@open_accepts_two_distinct_lines
                                     ascii_upper "/dev/ttyUSB0" 115200
                                     "rts" "RTS" (opened false [] ∅)
                                     eq_refl)))) as [H|H]; [|exact H].
    vm_compute in H. discriminate H.
Defined.

Lemma initChip_events (s : state) :
  sp_ok s = true ->
  sp_log (snd (initChip s))
  = sp_log s ++
    [drive (_boot0 s) false s;
     drive (_rst s) false s; Sleep 100; drive (_rst s) true s; Sleep 500;
     Write [0x7F]; ack_read s].
Proof.
  intros Hok. unfold initChip.
  run_by boot0_run. run_by reset_run. run_by sp_write_run.
  rewrite wait_for_ask_state by (norm_state; exact Hok).
  norm_state. reflexivity.
Qed.

Lemma releaseChip_run (s : state) :
  sp_ok s = true ->
  releaseChip s
  = (Returned tt,
     after [drive (_boot0 s) true s;
            drive (_rst s) false s; Sleep 100; drive (_rst s) true s;
            Sleep 500] (sp_rx s) s).
Proof.
  intros Hok. unfold releaseChip.
  run_by boot0_run. rewrite reset_run by (norm_state; exact Hok).
  norm_state. reflexivity.
Qed.

(** X22.  With [boot0] and [rst] wired to different lines, as [open]
    guarantees, the reset pulse never touches the boot0 line: during
    [initChip] that line is driven exactly once, to the bootloader level,
    and during [releaseChip] exactly once, to the run level, in each case
    before the reset line moves. *)
Theorem reset_spares_the_boot0_line (s : state) :
  sp_ok s = true ->
  _boot0 s <> _rst s ->
  (exists evs,
      sp_log (snd (initChip s)) = sp_log s ++ evs
      /\ List.filter (on_line (_boot0 s)) evs = [drive (_boot0 s) false s]
      /\ head evs = Some (drive (_boot0 s) false s))
  /\ (exists evs,
        sp_log (snd (releaseChip s)) = sp_log s ++ evs
        /\ List.filter (on_line (_boot0 s)) evs = [drive (_boot0 s) true s]
        /\ head evs = Some (drive (_boot0 s) true s)).
Proof.
  intros Hok Hne. split.
  - eexists. split; [apply initChip_events, Hok|].
    unfold drive, ack_read.
    destruct (_boot0 s), (_rst s); try contradiction; split; reflexivity.
  - rewrite (releaseChip_run s Hok). eexists.
    split; [apply sp_log_after|].
    unfold drive.
    destruct (_boot0 s), (_rst s); try contradiction; split; reflexivity.
Qed.

Lemma reset_spares_the_boot0_line_witness :
  exists evs,
    sp_log (snd (releaseChip (opened false [] ∅))) = evs
    /\ List.filter (on_line RTS) evs = [SetRTS true]
    /\ head evs = Some (SetRTS true).
Proof.
  destruct (proj2 (reset_spares_the_boot0_line (opened false [] ∅)
                     eq_refl ltac:(discriminate)))
    as (evs & Hlog & Hline & Hhead).
  exists evs. split; [exact Hlog|]. split; [exact Hline|exact Hhead].
Defined.

(** X23.  [releaseChip], and [__exit__] which is nothing else, exchange no
    bytes: on a working port they set boot0 to the run level, pulse reset
    (low, 100 ms, high, 500 ms) and return with the pending input
    untouched; on a failed port they raise at the first line change and
    do nothing. *)
Theorem releaseChip_exchanges_no_bytes (s : state) :
  __exit__ s = releaseChip s
  /\ releaseChip s
     = (if sp_ok s then
          (Returned tt,
           after [drive (_boot0 s) true s;
                  drive (_rst s) false s; Sleep 100; drive (_rst s) true s;
                  Sleep 500] (sp_rx s) s)
        else (Raised SerialException, s))
  /\ sp_rx (snd (releaseChip s)) = sp_rx s
  /\ writes (sp_log (snd (releaseChip s))) = writes (sp_log s).
Proof.
  split; [reflexivity|].
  destruct (sp_ok s) eqn:Hok.
  - rewrite (releaseChip_run s Hok). split; [reflexivity|].
    split; [reflexivity|].
    cbn [snd]. rewrite sp_log_after, writes_app.
    unfold drive. destruct (_boot0 s), (_rst s); cbn; apply app_nil_r.
  - assert (E : releaseChip s = (Raised SerialException, s)).
    { unfold releaseChip, bind, boot0, sp_setRTS, sp_setDTR.
      destruct (_boot0 s); rewrite Hok; reflexivity. }
    rewrite E. repeat split.
Qed.

(* ===================================================================== *)
(** ** Further properties: whole transfers *)
(* ===================================================================== *)

Lemma bind_raised {A B} (m : M A) (k : A -> M B) s e s' :
  m s = (Raised e, s') -> bind m k s = (Raised e, s').
Proof. unfold bind. intros ->. reflexivity. Qed.

Lemma cmdWriteMemory_rejected addr data s :
  sp_ok s = true -> head (sp_rx s) <> Some 0x79 ->
  (length data <= 256)%nat ->
  exists msg,
    cmdWriteMemory addr data s
    = (Raised (CmdException msg),
       after [Write [0x31]; Write [0xCE]; ack_read s] (drop 1 (sp_rx s)) s).
Proof.
  intros Hok Hne Hlen.
  destruct (rejected_head s Hne Hok (format_X 0x31)) as [msg Hmsg].
  exists msg. unfold cmdWriteMemory, assert.
  assert (Hle : (Z.of_nat (length data) <=? 256) = true)
    by (apply Z.leb_le; lia).
  rewrite Hle, bind_ret_l. unfold bind.
  rewrite (cmdGeneric_unfold 0x31 s Hok).
  change (is_byte 0x31) with true. cbv iota. rewrite Hmsg. reflexivity.
Qed.

Lemma full_chunks_payload (data : list Z) (addr : Z) : forall j : nat,
  concat (map snd
            (map (fun i => (addr + 256 * Z.of_nat i,
                            take 256 (drop (256 * i) data)))
                 (seq 0 j)))
  = take (256 * j) data.
Proof.
  induction j as [|j IH]; [reflexivity|].
  rewrite seq_S, !map_app, concat_app, IH. cbn [Nat.add map snd concat].
  rewrite app_nil_r, take_take_drop. f_equal. lia.
Qed.

(** X24.  Handing [writeMemory] a [bytes] object, as the command-line path
    does with the file it has read, cannot succeed: the call never
    returns, and the object is left as it was.  On a device that
    acknowledges every handshake the full 256-byte chunks are programmed
    and then [AttributeError] is raised, so the payload sent is a proper
    prefix of the data: the last 1 to 256 bytes are never written. *)
Theorem writeMemory_of_a_bytes_object
        (addr : Z) (d : ref) (data : list Z) (s : state) (rest : list Z) :
  heap s !! d = Some (Bytes data) ->
  forallb is_byte data = true ->
  sp_ok s = true ->
  sp_rx s
  = replicate (3 * (Spec.frame_count (length data) - 1)) 0x79 ++ rest ->
  let sent := (256 * (Spec.frame_count (length data) - 1))%nat in
  writeMemory addr d s
  = (Raised AttributeError,
     after (concat (map (write_frame_events (sp_timeout s))
                        (Spec.full_chunks addr data))) rest s)
  /\ concat (map snd (Spec.full_chunks addr data)) = take sent data
  /\ (data = [] \/ sent < length data <= sent + 256)%nat
  /\ (forall s0, heap s0 !! d = Some (Bytes data) ->
        (forall r, fst (writeMemory addr d s0) <> Returned r)
        /\ heap (snd (writeMemory addr d s0)) = heap s0).
Proof.
  intros Hd Hb Hok Hrx. cbv zeta.
  split; [|split; [|split]].
  - pose proof (write_frames_bytes addr data Hb) as Hfb.
    pose proof (write_frames_sizes addr data) as Hfs.
    unfold Spec.write_frames in Hfb, Hfs.
    apply Forall_app in Hfb as [Hfb _]. apply Forall_app in Hfs as [Hfs _].
    assert (Hcount : length (Spec.full_chunks addr data)
                     = (Spec.frame_count (length data) - 1)%nat)
      by (unfold Spec.full_chunks; rewrite length_map, length_seq;
          reflexivity).
    rewrite <- Hcount in Hrx.
    rewrite (writeMemory_bytes addr d data s Hd).
    rewrite (bind_run _ _ _ _ _ (issue_writes_acked _ Hfb Hfs s rest Hok Hrx)).
    reflexivity.
  - unfold Spec.full_chunks. apply full_chunks_payload.
  - rewrite frame_count_turns.
    destruct data as [|c data]; [left; reflexivity|right].
    pose proof (loop_turns_remainder (Z.of_nat (length (c :: data)))
                  ltac:(cbn [length]; lia)).
    lia.
  - intros s0 Hd0. rewrite (writeMemory_bytes addr d data s0 Hd0).
    destruct (port_only_issue_writes (Spec.full_chunks addr data) s0)
      as (_ & _ & _ & _ & _ & _ & _ & Hheap).
    unfold bind.
    destruct (issue_writes (Spec.full_chunks addr data) s0)
      as [[[]|e|] s1]; cbn [fst snd raise] in *;
      (split; [intros r; discriminate|exact Hheap]).
Qed.

Lemma writeMemory_of_a_bytes_object_witness :
  fst (writeMemory 0x08000000 1%positive flashing_file300)
  = Raised AttributeError
  /\ writes (sp_log (snd (writeMemory 0x08000000 1%positive
                            flashing_file300)))
     = [[0x31]; [0xCE]; [0x08; 0; 0; 0; 0x08]; [0xFF]]
       ++ map (fun c => [c]) (take 256 firmware300)
       ++ [[foldl Z.lxor 0xFF (take 256 firmware300)]].
Proof.
  pose proof (writeMemory_of_a_bytes_object 0x08000000 1%positive
                firmware300 flashing_file300 []
                ltac:(vm_compute; reflexivity)
                ltac:(vm_compute; reflexivity)
                ltac:(reflexivity)
                ltac:(vm_compute; reflexivity)) as H.
  cbv zeta in H. destruct H as (H & _).
  rewrite H. split; [reflexivity|]. vm_compute. reflexivity.
Defined.

(** X25.  When the device refuses the very first opcode, [writeMemory]
    raises [CmdException] having sent the two opcode bytes and nothing
    else.  The caller's buffer is nevertheless changed when it held at
    most 256 bytes: it has been extended to 256 bytes before the frame was
    tried.  A longer buffer is left as it was. *)
Theorem writeMemory_first_frame_rejected
        (addr : Z) (d : ref) (data : list Z) (s : state) :
  heap s !! d = Some (ByteArray data) ->
  sp_ok s = true ->
  head (sp_rx s) <> Some 0x79 ->
  let res := writeMemory addr d s in
  (exists msg, fst res = Raised (CmdException msg))
  /\ sp_log (snd res) = sp_log s ++ [Write [0x31]; Write [0xCE]; ack_read s]
  /\ heap (snd res)
     = (if (length data <=? 256)%nat
        then <[d := ByteArray (data ++ replicate (256 - length data) 0xFF)]>
               (heap s)
        else heap s).
Proof.
  intros Hd Hok Hne. cbv zeta.
  rewrite (writeMemory_decompose addr d data s Hd).
  destruct (Nat.leb_spec (length data) 256) as [Hle|Hgt].
  - assert (Hk : Spec.frame_count (length data) = 1%nat)
      by (rewrite frame_count_turns, loop_turns_done by lia; reflexivity).
    unfold Spec.full_chunks, Spec.final_chunk, Spec.padding. cbv zeta.
    rewrite Hk. cbn [Nat.sub seq map issue_writes fst snd].
    rewrite bind_ret_l.
    replace (256 * 1 - length data)%nat with (256 - length data)%nat by lia.
    erewrite bind_run by (apply buf_extend_run; exact Hd).
    match goal with
    | |- context [cmdWriteMemory ?a ?p ?s1] =>
        destruct (cmdWriteMemory_rejected a p s1 Hok Hne) as [msg E]
    end.
    { rewrite length_app, length_drop, length_replicate. lia. }
    rewrite E. cbn [fst snd].
    split; [eexists; reflexivity|]. split; reflexivity.
  - assert (Hk : Spec.frame_count (length data)
                 = S (S (loop_turns (Z.of_nat (length data) - 256))))
      by (rewrite frame_count_turns, loop_turns_more by lia; reflexivity).
    unfold Spec.full_chunks. rewrite Hk.
    cbn [Nat.sub seq map issue_writes].
    destruct (cmdWriteMemory_rejected (addr + 256 * Z.of_nat 0)
                (take 256 (drop (256 * 0) data)) s Hok Hne) as [msg E].
    { rewrite length_take. lia. }
    rewrite (bind_raised _ _ _ _ _ (bind_raised _ _ _ _ _ E)).
    cbn [fst snd].
    split; [eexists; reflexivity|]. split; reflexivity.
Qed.

Lemma writeMemory_first_frame_rejected_witness :
  heap (snd (writeMemory 0x08000000 1%positive (refused [1; 2; 3])))
  !! 1%positive
  = Some (ByteArray ([1; 2; 3] ++ replicate 253 0xFF))
  /\ heap (snd (writeMemory 0x08000000 1%positive (refused firmware300)))
     = heap (refused firmware300).
Proof.
  split.
  - pose proof (writeMemory_first_frame_rejected 0x08000000 1%positive
                  [1; 2; 3] (refused [1; 2; 3])
                  ltac:(vm_compute; reflexivity) eq_refl
                  ltac:(discriminate)) as H.
    cbv zeta in H. destruct H as (_ & _ & H).
    rewrite H. apply lookup_insert_eq.
  - pose proof (writeMemory_first_frame_rejected 0x08000000 1%positive
                  firmware300 (refused firmware300)
                  ltac:(vm_compute; reflexivity) eq_refl
                  ltac:(discriminate)) as H.
    cbv zeta in H. destruct H as (_ & _ & H).
    rewrite H. reflexivity.
Defined.

Lemma protocol_frame_256 tmo (f : Z * list Z) :
  length f.2 = 256%nat ->
  write_frame_events tmo f = protocol_write_frame tmo f.
Proof.
  intros H. unfold write_frame_events, protocol_write_frame, Spec.checksum.
  cbv zeta. rewrite H. reflexivity.
Qed.

(** X26.  Every frame that [writeMemory] puts on the wire is a frame of
    the protocol.  Because each of its payloads has exactly 256 bytes, the
    length byte is 0xFF and the checksum that [cmdWriteMemory] seeds with
    the constant 0xFF is the XOR of the length byte and the payload; so on
    a device that acknowledges every handshake the log is the run of
    protocol frames of the chunking. *)
Theorem writeMemory_frames_follow_protocol
        (addr : Z) (d : ref) (data : list Z) (s : state) (rest : list Z) :
  heap s !! d = Some (ByteArray data) ->
  forallb is_byte data = true ->
  sp_ok s = true ->
  sp_rx s = replicate (3 * Spec.frame_count (length data)) 0x79 ++ rest ->
  let frames := Spec.write_frames addr data in
  fst (writeMemory addr d s) = Returned tt
  /\ sp_log (snd (writeMemory addr d s))
     = sp_log s
       ++ concat (map (protocol_write_frame (sp_timeout s)) frames)
  /\ Forall (fun f => Z.of_nat (length f.2) - 1 = 0xFF
                      /\ foldl Z.lxor 0xFF f.2 = Spec.checksum 0xFF f.2)
            frames.
Proof.
  intros Hd Hb Hok Hrx. cbv zeta.
  destruct (writeMemory_on_the_wire addr d data s rest Hd Hb Hok Hrx)
    as (Hret & Hlog & _).
  pose proof (write_frames_sizes addr data) as Hsz.
  split; [exact Hret|]. split.
  - rewrite Hlog. do 2 f_equal. clear Hlog.
    induction Hsz as [|f fs Hf _ IH]; [reflexivity|].
    cbn [map]. rewrite (protocol_frame_256 _ f Hf), IH. reflexivity.
  - eapply Forall_impl; [exact Hsz|].
    intros f Hf. cbv beta in Hf. rewrite Hf. split; reflexivity.
Qed.

Lemma writeMemory_frames_follow_protocol_witness :
  sp_log (snd (writeMemory 0x08000000 1%positive flashing300))
  = protocol_write_frame 5 (0x08000000, take 256 firmware300)
    ++ protocol_write_frame 5
         (0x08000100, drop 256 firmware300 ++ replicate 212 0xFF).
Proof.
  pose proof (writeMemory_frames_follow_protocol 0x08000000 1%positive
                firmware300 flashing300 []
                ltac:(vm_compute; reflexivity)
                ltac:(vm_compute; reflexivity)
                ltac:(reflexivity)
                ltac:(vm_compute; reflexivity)) as H.
  cbv zeta in H. destruct H as (_ & H & _).
  rewrite H. vm_compute. reflexivity.
Defined.

Lemma loop_turns_multiple (j : nat) :
  loop_turns (256 * Z.of_nat (S j)) = j.
Proof.
  unfold loop_turns.
  replace (256 * Z.of_nat (S j) - 1) with (255 + Z.of_nat j * 256) by lia.
  rewrite Z.div_add by lia. change (255 / 256) with 0. lia.
Qed.

Lemma read_frames_of_padded addr data :
  Spec.read_frames addr (Z.of_nat (256 * Spec.frame_count (length data)))
  = map (fun f => (f.1, 256)) (Spec.write_frames addr data).
Proof.
  unfold Spec.read_frames, Spec.write_frames, Spec.full_chunks,
    Spec.final_chunk.
  cbv zeta. rewrite frame_count_turns.
  set (j := loop_turns (Z.of_nat (length data))).
  replace (Z.of_nat (256 * S j)) with (256 * Z.of_nat (S j)) by lia.
  rewrite ceil_turns by lia. rewrite loop_turns_multiple.
  replace (S j - 1)%nat with j by lia.
  rewrite map_app, map_map. cbn [map fst].
  do 3 f_equal. lia.
Qed.

(** X27.  Verifying after writing.  When [writeMemory] has returned, the
    caller's buffer still begins with the original data and has the
    padded length; a [readMemory] of [len(data)] bytes from the same
    address then asks for exactly one 256-byte frame per frame written,
    at the same addresses and in the same order. *)
Theorem verify_reads_the_frames_written
        (addr : Z) (d : ref) (data : list Z) (s : state) :
  heap s !! d = Some (ByteArray data) ->
  fst (writeMemory addr d s) = Returned tt ->
  exists data',
    heap (snd (writeMemory addr d s)) !! d = Some (ByteArray data')
    /\ take (length data) data' = data
    /\ length data' = (256 * Spec.frame_count (length data))%nat
    /\ forall s0,
         readMemory addr (Z.of_nat (length data')) s0
         = issue_reads (map (fun f => (f.1, 256))
                            (Spec.write_frames addr data)) s0.
Proof.
  intros Hd Hret.
  exists (data ++ Spec.padding data).
  pose proof (padded_length_least (length data)) as Hm. cbv zeta in Hm.
  destruct Hm as (Hpos & Hle & _).
  assert (Hlen : length (data ++ Spec.padding data)
                 = (256 * Spec.frame_count (length data))%nat).
  { unfold Spec.padding. rewrite length_app, length_replicate. lia. }
  split.
  { rewrite (heap_after_writeMemory addr d data s Hd Hret).
    apply lookup_insert_eq. }
  split; [apply take_app_length|]. split; [exact Hlen|].
  intros s0. rewrite Hlen.
  rewrite readMemory_issue_reads by lia.
  rewrite read_frames_of_padded. reflexivity.
Qed.

Lemma verify_reads_the_frames_written_witness :
  exists data',
    heap (snd (writeMemory 0x08000000 1%positive flashing300)) !! 1%positive
    = Some (ByteArray data')
    /\ length data' = 512%nat
    /\ forall s0,
         readMemory 0x08000000 (Z.of_nat (length data')) s0
         = issue_reads [(0x08000000, 256); (0x08000100, 256)] s0.
Proof.
  destruct (verify_reads_the_frames_written 0x08000000 1%positive
              firmware300 flashing300
              ltac:(vm_compute; reflexivity)
              ltac:(vm_compute; reflexivity))
    as (data' & Hheap & _ & Hlen & Hread).
  exists data'. split; [exact Hheap|]. split; [exact Hlen|].
  intros s0. rewrite Hread. reflexivity.
Defined.

(* ===================================================================== *)
(** ** Further properties: the read timeout and the line polarity *)
(* ===================================================================== *)

Lemma keeps_timeout_ret {A} (a : A) : keeps_timeout (ret a).
Proof. intros s. reflexivity. Qed.

Lemma keeps_timeout_raise {A} e : keeps_timeout (@raise A e).
Proof. intros s. reflexivity. Qed.

Lemma keeps_timeout_bind {A B} (m : M A) (k : A -> M B) :
  keeps_timeout m -> (forall a, keeps_timeout (k a)) ->
  keeps_timeout (bind m k).
Proof.
  intros Hm Hk s. unfold bind. specialize (Hm s).
  destruct (m s) as [[a|e|] s']; cbn [snd] in *; [|exact Hm..].
  rewrite (Hk a s'). exact Hm.
Qed.

Lemma keeps_timeout_try {A B} (body : M A) (handler : M B)
      (orelse : A -> M B) :
  keeps_timeout body -> keeps_timeout handler ->
  (forall a, keeps_timeout (orelse a)) ->
  keeps_timeout (try_except_else body handler orelse).
Proof.
  intros Hb Hh Ho s. unfold try_except_else. specialize (Hb s).
  destruct (body s) as [[a|e|] s']; cbn [snd] in *.
  - rewrite (Ho a s'). exact Hb.
  - rewrite (Hh s'). exact Hb.
  - exact Hb.
Qed.

Lemma keeps_timeout_assert c : keeps_timeout (assert c).
Proof. destruct c; intros s; reflexivity. Qed.

Lemma keeps_timeout_bytearray l : keeps_timeout (bytearray l).
Proof. unfold bytearray. destruct (forallb is_byte l); intros s; reflexivity. Qed.

Lemma keeps_timeout_getitem b i : keeps_timeout (getitem b i).
Proof. unfold getitem. destruct (b !! i); intros s; reflexivity. Qed.

Lemma keeps_timeout_sp_write data : keeps_timeout (sp_write data).
Proof. intros s. unfold sp_write. destruct (sp_ok s); reflexivity. Qed.

Lemma keeps_timeout_sp_read size : keeps_timeout (sp_read size).
Proof. intros s. unfold sp_read. destruct (sp_ok s); reflexivity. Qed.

Lemma keeps_timeout_sleep ms : keeps_timeout (sleep ms).
Proof. intros s. reflexivity. Qed.

Lemma keeps_timeout_boot0 level : keeps_timeout (boot0 level).
Proof.
  intros s. unfold boot0, sp_setRTS, sp_setDTR.
  destruct (_boot0 s), (sp_ok s); reflexivity.
Qed.

Lemma keeps_timeout_rst level : keeps_timeout (rst level).
Proof.
  intros s. unfold rst, sp_setRTS, sp_setDTR.
  destruct (_rst s), (sp_ok s); reflexivity.
Qed.

Lemma keeps_timeout_buf_len d : keeps_timeout (buf_len d).
Proof.
  intros s. unfold buf_len, bind, deref. destruct (heap s !! d); reflexivity.
Qed.

Lemma keeps_timeout_buf_slice d lo hi : keeps_timeout (buf_slice d lo hi).
Proof.
  intros s. unfold buf_slice, bind, deref. destruct (heap s !! d); reflexivity.
Qed.

Lemma keeps_timeout_buf_extend d more : keeps_timeout (buf_extend d more).
Proof.
  intros s. unfold buf_extend.
  destruct (heap s !! d) as [[l|l]|]; [|reflexivity..].
  destruct (forallb is_byte more); reflexivity.
Qed.

Create HintDb timeout discriminated.
#[local] Hint Resolve keeps_timeout_ret keeps_timeout_raise
  keeps_timeout_assert keeps_timeout_bytearray keeps_timeout_getitem
  keeps_timeout_sp_write keeps_timeout_sp_read keeps_timeout_sleep
  keeps_timeout_boot0 keeps_timeout_rst keeps_timeout_buf_len
  keeps_timeout_buf_slice keeps_timeout_buf_extend : timeout.

(** Walks down a method body, as [port_only_body] does. *)
Ltac keeps_timeout_body :=
  repeat first
    [ solve [auto with timeout]
    | apply keeps_timeout_bind; [|intros ?]
    | apply keeps_timeout_try; [| |intros ?]
    | match goal with
      | |- keeps_timeout (if ?c then _ else _) => destruct c
      | |- keeps_timeout (match ?o with Some _ => _ | None => _ end) =>
          destruct o
      end ].

Lemma keeps_timeout_wait_for_ask info : keeps_timeout (_wait_for_ask info).
Proof. unfold _wait_for_ask. keeps_timeout_body. Qed.
#[local] Hint Resolve keeps_timeout_wait_for_ask : timeout.

Lemma keeps_timeout_cmdGeneric cmd : keeps_timeout (cmdGeneric cmd).
Proof. unfold cmdGeneric. keeps_timeout_body. Qed.
#[local] Hint Resolve keeps_timeout_cmdGeneric : timeout.

Lemma keeps_timeout_for_xor_write data crc :
  keeps_timeout (for_xor_write data crc).
Proof.
  revert crc. induction data as [|c rest IH]; intros crc; cbn [for_xor_write].
  - apply keeps_timeout_ret.
  - keeps_timeout_body.
Qed.
#[local] Hint Resolve keeps_timeout_for_xor_write : timeout.

Lemma keeps_timeout_for_xor_write_pages sectors crc :
  keeps_timeout (for_xor_write_pages sectors crc).
Proof.
  revert crc.
  induction sectors as [|c rest IH]; intros crc; cbn [for_xor_write_pages].
  - apply keeps_timeout_ret.
  - unfold _cast_to_two_bytes. keeps_timeout_body.
Qed.
#[local] Hint Resolve keeps_timeout_for_xor_write_pages : timeout.

Lemma keeps_timeout_cmdReadMemory addr lng :
  keeps_timeout (cmdReadMemory addr lng).
Proof. unfold cmdReadMemory. keeps_timeout_body. Qed.

Lemma keeps_timeout_cmdWriteMemory addr data :
  keeps_timeout (cmdWriteMemory addr data).
Proof. unfold cmdWriteMemory. keeps_timeout_body. Qed.
#[local] Hint Resolve keeps_timeout_cmdReadMemory
  keeps_timeout_cmdWriteMemory : timeout.

Lemma keeps_timeout_readMemory_while : forall fuel addr lng acc,
  keeps_timeout (readMemory_while fuel addr lng acc).
Proof.
  induction fuel as [|fuel IH]; intros addr lng acc;
    cbn [readMemory_while]; destruct (lng >? 256);
    try apply keeps_timeout_ret.
  - intros s. reflexivity.
  - keeps_timeout_body.
Qed.

Lemma keeps_timeout_writeMemory_while : forall fuel d addr offs lng,
  keeps_timeout (writeMemory_while fuel d addr offs lng).
Proof.
  induction fuel as [|fuel IH]; intros d addr offs lng;
    cbn [writeMemory_while]; destruct (lng >? 256);
    try apply keeps_timeout_ret.
  - intros s. reflexivity.
  - keeps_timeout_body.
Qed.

Lemma keeps_timeout_extended_sector_erase sectors :
  keeps_timeout (cmdExtendedEraseMemory (Some sectors)).
Proof.
  unfold cmdExtendedEraseMemory, _cast_to_two_bytes. keeps_timeout_body.
Qed.

Lemma keeps_timeout_legacy_erase sectors :
  keeps_timeout
    (r <- cmdGeneric 0x43 ;;
     if truthy r then
       match sectors with
       | None =>
           b <- bytearray [0xFF] ;;
           sp_write b ;;;
           b <- bytearray [0x00] ;;
           sp_write b ;;;
           ret tt
       | Some sectors =>
           b <- bytearray [Z.land (Z.of_nat (length sectors) - 1) 0xFF] ;;
           sp_write b ;;;
           let crc := 0xFF in
           crc <- for_xor_write sectors crc ;;
           b <- bytearray [crc] ;;
           sp_write b ;;;
           ret tt
       end ;;;
       _wait_for_ask "0x43 erasing failed" ;;;
       ret tt
     else
       raise (CmdException "Erase memory (0x43) failed")).
Proof. keeps_timeout_body. Qed.

(** X28.  The port's read timeout is touched by the extended mass erase
    and by nothing else.  Entering and leaving the bootloader, [cmdGet],
    [cmdGo], the chunked [readMemory] and [writeMemory], every sector
    erase, the legacy mass erase, [cmdWriteProtect] and the three
    protection-state commands all end with the timeout they started with,
    whether they return or raise. *)
Theorem timeout_touched_by_extended_mass_erase_only :
  keeps_timeout initChip /\ keeps_timeout releaseChip
  /\ keeps_timeout cmdGet
  /\ (forall addr, keeps_timeout (cmdGo addr))
  /\ (forall addr lng, keeps_timeout (readMemory addr lng))
  /\ (forall addr d, keeps_timeout (writeMemory addr d))
  /\ (forall sectors, keeps_timeout (cmdEraseMemory (Some sectors)))
  /\ (forall s,
        extended_erase s = true
        \/ sp_timeout (snd (cmdEraseMemory None s)) = sp_timeout s)
  /\ (forall sectors, keeps_timeout (cmdWriteProtect sectors))
  /\ keeps_timeout cmdWriteUnprotect
  /\ keeps_timeout cmdReadoutProtect
  /\ keeps_timeout cmdReadoutUnprotect.
Proof.
  assert (Hreset : keeps_timeout reset)
    by (unfold reset; keeps_timeout_body).
  repeat apply conj.
  - unfold initChip. keeps_timeout_body.
  - unfold releaseChip. keeps_timeout_body.
  - unfold cmdGet. keeps_timeout_body. intros s. reflexivity.
  - intros addr. unfold cmdGo. keeps_timeout_body.
  - intros addr lng. unfold readMemory.
    apply keeps_timeout_bind;
      [apply keeps_timeout_readMemory_while|intros [[a l] acc]].
    keeps_timeout_body.
  - intros addr d. unfold writeMemory.
    apply keeps_timeout_bind; [apply keeps_timeout_buf_len|intros lng].
    apply keeps_timeout_bind;
      [apply keeps_timeout_writeMemory_while|intros [[a o] l]].
    keeps_timeout_body.
  - intros sectors s. unfold cmdEraseMemory.
    destruct (extended_erase s).
    + apply keeps_timeout_extended_sector_erase.
    + apply (keeps_timeout_legacy_erase (Some sectors)).
  - intros s. unfold cmdEraseMemory.
    destruct (extended_erase s); [left; reflexivity|right].
    apply (keeps_timeout_legacy_erase None).
  - intros sectors. unfold cmdWriteProtect. keeps_timeout_body.
  - unfold cmdWriteUnprotect. keeps_timeout_body.
  - unfold cmdReadoutProtect. keeps_timeout_body.
  - unfold cmdReadoutUnprotect. keeps_timeout_body.
Qed.

Lemma polarity_state dtr rts s :
  snd ((dtr_polarity dtr ;;; rts_polarity rts) s)
  = mkState (extended_erase s) (_boot0 s) (_rst s) dtr rts
            (sp_timeout s) (sp_rx s) (sp_ok s) (sp_log s) (heap s).
Proof. reflexivity. Qed.

(** X29.  Setting a line's polarity to inverted inverts every level that
    entering and leaving the bootloader drive on that line, and changes
    nothing else of what goes over the port: the log of [initChip] and of
    [releaseChip] after [dtr_polarity] and [rts_polarity] is the log
    without them, with the levels of the inverted lines flipped. *)
Theorem polarity_inverts_the_levels (dtr rts : bool) (s : state) :
  sp_ok s = true -> _dtr_pol s = false -> _rts_pol s = false ->
  let s' := snd ((dtr_polarity dtr ;;; rts_polarity rts) s) in
  (exists evs,
      sp_log (snd (initChip s)) = sp_log s ++ evs
      /\ sp_log (snd (initChip s'))
         = sp_log s ++ map (inverted dtr rts) evs)
  /\ (exists evs,
        sp_log (snd (releaseChip s)) = sp_log s ++ evs
        /\ sp_log (snd (releaseChip s'))
           = sp_log s ++ map (inverted dtr rts) evs).
Proof.
  intros Hok Hd Hr. cbv zeta. rewrite polarity_state.
  set (s' := mkState _ _ _ _ _ _ _ _ _ _).
  assert (Hok' : sp_ok s' = true) by exact Hok.
  split; eexists.
  - split; [apply initChip_events, Hok|].
    rewrite (initChip_events s' Hok').
    unfold drive, ack_read. subst s'.
    cbn [_boot0 _rst _dtr_pol _rts_pol sp_timeout sp_rx sp_log].
    rewrite Hd, Hr.
    destruct (_boot0 s), (_rst s), dtr, rts; reflexivity.
  - split; [rewrite (releaseChip_run s Hok); apply sp_log_after|].
    rewrite (releaseChip_run s' Hok'). cbn [snd]. rewrite sp_log_after.
    unfold drive. subst s'.
    cbn [_boot0 _rst _dtr_pol _rts_pol sp_timeout sp_rx sp_log].
    rewrite Hd, Hr.
    destruct (_boot0 s), (_rst s), dtr, rts; reflexivity.
Qed.

Lemma polarity_inverts_the_levels_witness :
  sp_log (snd (initChip (snd ((dtr_polarity true ;;; rts_polarity false)
                                (opened false [0x79] ∅)))))
  = [SetRTS false; SetDTR true; Sleep 100; SetDTR false; Sleep 500;
     Write [0x7F]; Read 1 5 [0x79]].
Proof.
  destruct (polarity_inverts_the_levels true false (opened false [0x79] ∅)
              eq_refl eq_refl eq_refl) as [(evs & H1 & H2) _].
  cbv zeta in H2. rewrite H2.
  vm_compute in H1. subst evs. reflexivity.
Defined.
